(** * sesmon: SES enclosure monitoring daemon

    A shallow embedding of the core of [cmd/sesmon] (parser and diff engine,
    retry utility, device resolver, change-report writer, device monitor and
    supervisor) together with the properties of its specification.

    Conventions of the embedding:
    - Go [int] is [Z]; none of the embedded code does arithmetic that could
      leave the 64-bit range, except the failure counter of a monitor,
      whose increment wraps ([incr64]).
    - Go [string] is [string] (a sequence of bytes).
    - A Go pointer field [*T] that is only ever read is [option T]
      ([None] is [nil]); dereferencing [nil] is the outcome [Panic].
    - A Go [map[string]V] is [gmap string V]; ranging over a map visits the
      keys in an unspecified order, modelled by [elements]/[map_to_list].
    - Functions of the Go standard library and of third-party packages are
      not part of the repository; they are operations of the classes
      [GoLib], [GoCodec], [GoTime], [GoYAML] and [AferoFs], and every
      theorem holds for all their implementations unless it names an
      assumption on them. *)

From Stdlib Require Import ZArith String Ascii List Bool Lia DecimalString.
From Stdlib Require Import DecimalZ DecimalPos.
From stdpp Require Import base option list gmap sets strings.

Local Open Scope Z_scope.

(** ** Errors *)

(** The sentinel errors of [program.go] and [notifier.go], the errors of
    [context.Context], errors produced by collaborators, and wrapping with
    [fmt.Errorf("...: %w", err)]. *)
Inductive error : Type :=
  | errDeviceLookupFailed
  | errInvalidArgument
  | errInvalidJSON
  | errNoDevices
  | errNotExecutable
  | errContextCanceled
  | errContextDeadlineExceeded
  | errExternal (msg : string)
  | errWrap (msg : string) (e : error).

(** ** Library operations *)

(** Operations of the Go standard library used by the embedded code. *)
Class GoLib : Type := {
  (* strings *)
  strings_EqualFold : string -> string -> bool;
  strings_TrimSpace : string -> string;
  strings_ToLower : string -> string;
  (* fmt.Sprintf("%q", s) *)
  fmt_Quote : string -> string;
  (* path/filepath *)
  filepath_Join : string -> string -> string;
  filepath_Dir : string -> string;
  filepath_Base : string -> string;
  filepath_Clean : string -> string;
  (* crypto/sha256: the digest as a list of byte values *)
  sha256_Sum256 : string -> list N;
  (* sort.Slice, which is not stable *)
  sort_Slice : forall A : Type, (A -> A -> bool) -> list A -> list A;
}.

(** [strconv.Itoa] and the verb [%d]. *)
Definition strconv_Itoa (z : Z) : string :=
  NilZero.string_of_int (Z.to_int z).

(** [strings.Join]. *)
Fixpoint strings_Join (elems : list string) (sep : string) : string :=
  match elems with
  | [] => ""
  | [s] => s
  | s :: rest => s +:+ sep +:+ strings_Join rest sep
  end.

(** [hex.EncodeToString]. *)
Definition hexDigit (n : N) : ascii :=
  match n with
  | 0 => "0" | 1 => "1" | 2 => "2" | 3 => "3" | 4 => "4" | 5 => "5"
  | 6 => "6" | 7 => "7" | 8 => "8" | 9 => "9" | 10 => "a" | 11 => "b"
  | 12 => "c" | 13 => "d" | 14 => "e" | _ => "f"
  end%N%char.

Fixpoint hex_EncodeToString (bs : list N) : string :=
  match bs with
  | [] => ""
  | b :: rest =>
      String (hexDigit (N.modulo (N.div b 16) 16))
        (String (hexDigit (N.modulo b 16)) (hex_EncodeToString rest))
  end.

(** ** A reference implementation of the string operations on ASCII

    These follow the ASCII paths of the Go functions; they instantiate
    [GoLib] in the examples. *)

Definition isUpperN (n : N) : bool := ((65 <=? n) && (n <=? 90))%N.

Definition isSpaceAscii (c : ascii) : bool :=
  let n := N_of_ascii c in
  ((n =? 32) || ((9 <=? n) && (n <=? 13)))%N.

Fixpoint asciiEqualFold (s t : string) : bool :=
  match s, t with
  | EmptyString, EmptyString => true
  | String a s', String b t' =>
      let sr := N_of_ascii a in
      let tr := N_of_ascii b in
      if (tr =? sr)%N then asciiEqualFold s' t'
      else
        let '(sr, tr) := if (tr <? sr)%N then (tr, sr) else (sr, tr) in
        if isUpperN sr && (tr =? sr + 32)%N then asciiEqualFold s' t'
        else false
  | _, _ => false
  end.

Fixpoint trimLeftAscii (s : string) : string :=
  match s with
  | String c s' => if isSpaceAscii c then trimLeftAscii s' else s
  | EmptyString => EmptyString
  end.

Definition asciiTrimSpace (s : string) : string :=
  String.rev (trimLeftAscii (String.rev (trimLeftAscii s))).

Definition lowerAscii (c : ascii) : ascii :=
  let n := N_of_ascii c in
  if isUpperN n then ascii_of_N (n + 32) else c.

Fixpoint asciiToLower (s : string) : string :=
  match s with
  | String c s' => String (lowerAscii c) (asciiToLower s')
  | EmptyString => EmptyString
  end.

(** The text after the last separator, and the text before it. *)
Fixpoint lastSegment (acc s : string) : string :=
  match s with
  | EmptyString => String.rev acc
  | String "/" s' => lastSegment EmptyString s'
  | String c s' => lastSegment (String c acc) s'
  end.

Fixpoint dropLastSegment (s : string) : string :=
  match s with
  | EmptyString => EmptyString
  | String c s' =>
      if existsb (Ascii.eqb "/") (list_ascii_of_string s')
      then String c (dropLastSegment s')
      else EmptyString
  end.

(** ** Helpers of [util.go] *)

(** [fne] returns the first non-empty string of two strings. *)
Definition fne (a b : string) : string :=
  if negb (String.eqb a "") then a else b.

(** [fnz] returns the first non-zero integer of two integers. *)
Definition fnz (a b : Z) : Z :=
  if negb (a =? 0) then a else b.

(** [ptr] converts a value to a pointer to it. *)
Definition ptr {T : Type} (v : T) : option T := Some v.

(** [ptrIntEqual] compares two integer pointers (nil safe). *)
Definition ptrIntEqual (a b : option Z) : bool :=
  match a, b with
  | None, None => true
  | None, _ | _, None => false
  | Some x, Some y => x =? y
  end.

(** [ptrStrEqualFold] compares case insensitive two string pointers. *)
Definition ptrStrEqualFold `{GoLib} (a b : option string) : bool :=
  match a, b with
  | None, None => true
  | None, _ | _, None => false
  | Some x, Some y => strings_EqualFold x y
  end.

(** [fmtPtrInt], [fmtPtrStr] and [fmtPtrQStr]. *)
Definition fmtPtrInt (p : option Z) (e : string) : string :=
  match p with None => e | Some v => strconv_Itoa v end.

Definition fmtPtrStr (p : option string) (e : string) : string :=
  match p with None => e | Some v => v end.

Definition fmtPtrQStr `{GoLib} (p : option string) (e : string) : string :=
  match p with None => e | Some v => fmt_Quote v end.

(** ** Data model of [structs.go] *)

(** SES structure, as returned by [sg_ses --json]. *)
Record ElementType : Type := {
  et_I : option Z;
  et_Meaning : option string;
}.

Record CodeMeaning : Type := {
  cm_I : option Z;
  cm_Meaning : option string;
}.

Record Voltage : Type := {
  vo_RawValue : option Z;
  vo_ValueInVolts : option string;
}.

Record Current : Type := {
  cu_RawValue : option Z;
  cu_ValueInAmps : option string;
}.

Record StatusDescriptor : Type := {
  sd_Status : option CodeMeaning;
  sd_PrdFail : option Z;
  sd_Disabled : option Z;
  sd_Swap : option Z;
  sd_Temperature : option CodeMeaning;
  sd_Voltage : option Voltage;
  sd_Current : option Current;
}.

Record Element : Type := {
  el_ElementType : option ElementType;
  el_ElementNumber : option Z;
  el_StatusDescriptor : option StatusDescriptor;
}.

Record JoinPages : Type := { ElementList : list Element }.

Record Root : Type := { Join : JoinPages }.

(** Internal structure. *)
Record Device : Type := {
  dev_Type : Z;
  dev_Path : string;
  dev_Address : string;
  dev_Description : string;
}.

Record Result : Type := {
  r_Type : Z;
  r_TypeNum : Z;
  r_TypeDesc : option string;
  r_Status : option Z;
  r_StatusDesc : option string;
  r_PrdFail : option Z;
  r_Disabled : option Z;
  r_Swap : option Z;
  r_Temperature : option string;
  r_Voltage : option string;
  r_Amperage : option string;
}.

Record Change : Type := {
  ch_ID : string;
  ch_Type : Z;
  ch_TypeNum : Z;
  ch_TypeDesc : option string;
  ch_Before : option Result;
  ch_After : option Result;
}.

Record ChangeReport : Type := {
  cr_Device : Device;
  cr_DetectedAt : string;
  cr_Changes : list Change;
}.

Record DeviceSnapshot : Type := {
  ds_Device : Device;
  ds_CapturedAt : string;
  ds_Raw : string;
}.

(** The zero value [Result{}]. *)
Definition zeroResult : Result :=
  {| r_Type := 0; r_TypeNum := 0; r_TypeDesc := None; r_Status := None;
     r_StatusDesc := None; r_PrdFail := None; r_Disabled := None;
     r_Swap := None; r_Temperature := None; r_Voltage := None;
     r_Amperage := None |}.

(** Assignments to one field of a [Result]. *)
Definition setType (v : Z) (r : Result) : Result :=
  {| r_Type := v; r_TypeNum := r_TypeNum r; r_TypeDesc := r_TypeDesc r;
     r_Status := r_Status r; r_StatusDesc := r_StatusDesc r;
     r_PrdFail := r_PrdFail r; r_Disabled := r_Disabled r;
     r_Swap := r_Swap r; r_Temperature := r_Temperature r;
     r_Voltage := r_Voltage r; r_Amperage := r_Amperage r |}.

Definition setTypeNum (v : Z) (r : Result) : Result :=
  {| r_Type := r_Type r; r_TypeNum := v; r_TypeDesc := r_TypeDesc r;
     r_Status := r_Status r; r_StatusDesc := r_StatusDesc r;
     r_PrdFail := r_PrdFail r; r_Disabled := r_Disabled r;
     r_Swap := r_Swap r; r_Temperature := r_Temperature r;
     r_Voltage := r_Voltage r; r_Amperage := r_Amperage r |}.

Definition setTypeDesc (v : option string) (r : Result) : Result :=
  {| r_Type := r_Type r; r_TypeNum := r_TypeNum r; r_TypeDesc := v;
     r_Status := r_Status r; r_StatusDesc := r_StatusDesc r;
     r_PrdFail := r_PrdFail r; r_Disabled := r_Disabled r;
     r_Swap := r_Swap r; r_Temperature := r_Temperature r;
     r_Voltage := r_Voltage r; r_Amperage := r_Amperage r |}.

Definition setStatus (v : option Z) (r : Result) : Result :=
  {| r_Type := r_Type r; r_TypeNum := r_TypeNum r; r_TypeDesc := r_TypeDesc r;
     r_Status := v; r_StatusDesc := r_StatusDesc r;
     r_PrdFail := r_PrdFail r; r_Disabled := r_Disabled r;
     r_Swap := r_Swap r; r_Temperature := r_Temperature r;
     r_Voltage := r_Voltage r; r_Amperage := r_Amperage r |}.

Definition setStatusDesc (v : option string) (r : Result) : Result :=
  {| r_Type := r_Type r; r_TypeNum := r_TypeNum r; r_TypeDesc := r_TypeDesc r;
     r_Status := r_Status r; r_StatusDesc := v;
     r_PrdFail := r_PrdFail r; r_Disabled := r_Disabled r;
     r_Swap := r_Swap r; r_Temperature := r_Temperature r;
     r_Voltage := r_Voltage r; r_Amperage := r_Amperage r |}.

Definition setPrdFail (v : option Z) (r : Result) : Result :=
  {| r_Type := r_Type r; r_TypeNum := r_TypeNum r; r_TypeDesc := r_TypeDesc r;
     r_Status := r_Status r; r_StatusDesc := r_StatusDesc r;
     r_PrdFail := v; r_Disabled := r_Disabled r;
     r_Swap := r_Swap r; r_Temperature := r_Temperature r;
     r_Voltage := r_Voltage r; r_Amperage := r_Amperage r |}.

Definition setDisabled (v : option Z) (r : Result) : Result :=
  {| r_Type := r_Type r; r_TypeNum := r_TypeNum r; r_TypeDesc := r_TypeDesc r;
     r_Status := r_Status r; r_StatusDesc := r_StatusDesc r;
     r_PrdFail := r_PrdFail r; r_Disabled := v;
     r_Swap := r_Swap r; r_Temperature := r_Temperature r;
     r_Voltage := r_Voltage r; r_Amperage := r_Amperage r |}.

Definition setSwap (v : option Z) (r : Result) : Result :=
  {| r_Type := r_Type r; r_TypeNum := r_TypeNum r; r_TypeDesc := r_TypeDesc r;
     r_Status := r_Status r; r_StatusDesc := r_StatusDesc r;
     r_PrdFail := r_PrdFail r; r_Disabled := r_Disabled r;
     r_Swap := v; r_Temperature := r_Temperature r;
     r_Voltage := r_Voltage r; r_Amperage := r_Amperage r |}.

Definition setTemperature (v : option string) (r : Result) : Result :=
  {| r_Type := r_Type r; r_TypeNum := r_TypeNum r; r_TypeDesc := r_TypeDesc r;
     r_Status := r_Status r; r_StatusDesc := r_StatusDesc r;
     r_PrdFail := r_PrdFail r; r_Disabled := r_Disabled r;
     r_Swap := r_Swap r; r_Temperature := v;
     r_Voltage := r_Voltage r; r_Amperage := r_Amperage r |}.

Definition setVoltage (v : option string) (r : Result) : Result :=
  {| r_Type := r_Type r; r_TypeNum := r_TypeNum r; r_TypeDesc := r_TypeDesc r;
     r_Status := r_Status r; r_StatusDesc := r_StatusDesc r;
     r_PrdFail := r_PrdFail r; r_Disabled := r_Disabled r;
     r_Swap := r_Swap r; r_Temperature := r_Temperature r;
     r_Voltage := v; r_Amperage := r_Amperage r |}.

Definition setAmperage (v : option string) (r : Result) : Result :=
  {| r_Type := r_Type r; r_TypeNum := r_TypeNum r; r_TypeDesc := r_TypeDesc r;
     r_Status := r_Status r; r_StatusDesc := r_StatusDesc r;
     r_PrdFail := r_PrdFail r; r_Disabled := r_Disabled r;
     r_Swap := r_Swap r; r_Temperature := r_Temperature r;
     r_Voltage := r_Voltage r; r_Amperage := v |}.

(** Encoders and decoders of [encoding/json] at the types of the
    repository. [json_Unmarshal] decodes into a [Root]; the two
    [json_MarshalIndent] are called with prefix [""] and indent ["  "]. *)
Class GoCodec : Type := {
  json_Unmarshal : string -> error + Root;
  json_MarshalIndent_report : ChangeReport -> error + string;
  json_MarshalIndent_snapshot : DeviceSnapshot -> error + string;
  json_MarshalIndent_results : gmap string Result -> error + string;
}.

(** ** Control flow of one loop iteration *)

(** The body of a [for] loop either runs to its end with a value, leaves
    the iteration with [continue], or panics. *)
Inductive flow (A : Type) : Type :=
  | Next (a : A)
  | Continue
  | Panic.
Arguments Next {A} a.
Arguments Continue {A}.
Arguments Panic {A}.

#[global] Instance flow_ret : MRet flow := fun A a => Next a.
#[global] Instance flow_bind : MBind flow := fun A B f m =>
  match m with
  | Next a => f a
  | Continue => Continue
  | Panic => Panic
  end.

(** [*p]: dereferencing a nil pointer panics. *)
Definition deref {A : Type} (p : option A) : flow A :=
  match p with Some v => Next v | None => Panic end.

(** What a function call produces: a value, an error, or a panic that
    unwinds through the caller. *)
Inductive outcome (A : Type) : Type :=
  | Ok (a : A)
  | Err (e : error)
  | Panicked.
Arguments Ok {A} a.
Arguments Err {A} e.
Arguments Panicked {A}.

(** ** Parser and diff engine *)

(** [keyFor] derives the key [Type#TypeNum] of a [Result]. *)
Definition keyFor (r : Result) : string :=
  strconv_Itoa (r_Type r) +:+ "#" +:+ strconv_Itoa (r_TypeNum r).

Section Parser.
Context `{GoLib} `{GoCodec}.

(** The body of the loop of [parseSES] up to the insertion into the map:
    the [Result] built from one element. *)
Definition parseElement (el : Element) : flow Result :=
  let r := zeroResult in
  r ← match el_ElementType el with
      | Some et =>
          r ← match et_I et with
              | Some i => Next (setType i r)
              | None => Continue (* required for ID *)
              end;
          match et_Meaning et with
          | Some m => Next (setTypeDesc (ptr (strings_TrimSpace m)) r)
          | None => Next r
          end
      | None => Next r
      end;
  r ← match el_ElementNumber el with
      | Some n => Next (setTypeNum n r)
      | None => Continue (* required for ID *)
      end;
  match el_StatusDescriptor el with
  | Some sd =>
      let r :=
        match sd_Status sd with
        | Some st =>
            let r := match cm_I st with
                     | Some _ => setStatus (cm_I st) r
                     | None => r
                     end in
            match cm_Meaning st with
            | Some m => setStatusDesc (ptr (strings_TrimSpace m)) r
            | None => r
            end
        | None => r
        end in
      let r := match sd_PrdFail sd with
               | Some _ => setPrdFail (sd_PrdFail sd) r
               | None => r
               end in
      let r := match sd_Disabled sd with
               | Some _ => setDisabled (sd_Disabled sd) r
               | None => r
               end in
      let r := match sd_Swap sd with
               | Some _ => setSwap (sd_Swap sd) r
               | None => r
               end in
      r ← match sd_Temperature sd with
          | Some t =>
              m ← deref (cm_Meaning t);
              Next (setTemperature (ptr (strings_TrimSpace m)) r)
          | None => Next r
          end;
      r ← match sd_Voltage sd with
          | Some v =>
              m ← deref (vo_ValueInVolts v);
              Next (setVoltage (ptr (strings_TrimSpace m)) r)
          | None => Next r
          end;
      match sd_Current sd with
      | Some c =>
          m ← deref (cu_ValueInAmps c);
          Next (setAmperage (ptr (strings_TrimSpace m)) r)
      | None => Next r
      end
  | None => Next r
  end.

(** The loop of [parseSES] over [root.Join.ElementList], from the map
    built so far. *)
Fixpoint parseElements (els : list Element) (m : gmap string Result)
  : outcome (gmap string Result) :=
  match els with
  | [] => Ok m
  | el :: rest =>
      match parseElement el with
      | Next r => parseElements rest (<[keyFor r := r]> m)
      | Continue => parseElements rest m
      | Panic => Panicked
      end
  end.

(** [parseSES] unmarshals JSON-wrapped SES output into the map of
    [Result]. *)
Definition parseSES (b : string) : outcome (gmap string Result) :=
  match json_Unmarshal b with
  | inl err => Err (errWrap "failure unmarshalling JSON" err)
  | inr root => parseElements (ElementList (Join root)) ∅
  end.

(** [rowsEqual] returns if two [Result] should be considered as equal. *)
Definition rowsEqual (a b : Result) : bool :=
  ptrIntEqual (r_Status a) (r_Status b) &&
  ptrStrEqualFold (r_StatusDesc a) (r_StatusDesc b) &&
  ptrIntEqual (r_PrdFail a) (r_PrdFail b) &&
  ptrIntEqual (r_Disabled a) (r_Disabled b) &&
  ptrIntEqual (r_Swap a) (r_Swap b).

(** [v, ok := m[k]]: the zero value when the key is missing. *)
Definition commaOk (m : gmap string Result) (k : string) : Result * bool :=
  match m !! k with
  | Some v => (v, true)
  | None => (zeroResult, false)
  end.

(** The body of the last loop of [rowsDiff] for the key [k]. *)
Definition diffStep (prev curr : gmap string Result)
    (out : list Change) (k : string) : list Change :=
  let '(p, pok) := commaOk prev k in
  let '(c, cok) := commaOk curr k in
  if negb pok || negb cok || negb (rowsEqual p c) then
    let typeDesc :=
      if bool_decide (r_TypeDesc c ≠ None) || bool_decide (r_TypeDesc p ≠ None)
      then ptr (fne (fmtPtrStr (r_TypeDesc c) "") (fmtPtrStr (r_TypeDesc p) ""))
      else None in
    let ch := {| ch_ID := k;
                 ch_Type := fnz (r_Type c) (r_Type p);
                 ch_TypeNum := fnz (r_TypeNum c) (r_TypeNum p);
                 ch_TypeDesc := typeDesc;
                 ch_Before := if pok then Some p else None;
                 ch_After := if cok then Some c else None |} in
    out ++ [ch]
  else out.

(** [rowsDiff] compares two maps of [Result] and returns the changes.
    [seen] is the set of the keys of both maps. *)
Definition rowsDiff (prev curr : gmap string Result) : list Change :=
  let seen : gset string := dom prev ∪ dom curr in
  foldl (diffStep prev curr) [] (elements seen).

(** [buildMessage] builds a string from a slice of strings. *)
Definition buildMessage (lines : list string) : string :=
  strings_Join lines " ".

Definition resultAsText (r : Result) : string :=
  "status=" +:+ fmtPtrInt (r_Status r) "-" +:+
  " status_txt=" +:+ fmtPtrQStr (r_StatusDesc r) "-" +:+
  " prdfail=" +:+ fmtPtrInt (r_PrdFail r) "-" +:+
  " disabled=" +:+ fmtPtrInt (r_Disabled r) "-" +:+
  " swap=" +:+ fmtPtrInt (r_Swap r) "-" +:+
  " temp=" +:+ fmtPtrQStr (r_Temperature r) "-" +:+
  " volt=" +:+ fmtPtrQStr (r_Voltage r) "-" +:+
  " amp=" +:+ fmtPtrQStr (r_Amperage r) "-".

Definition changeLess (a b : Change) : bool :=
  if ch_Type a =? ch_Type b then ch_TypeNum a <? ch_TypeNum b
  else ch_Type a <? ch_Type b.

Definition changeAsText (ch : Change) : string :=
  let before := match ch_Before ch with
                | Some r => resultAsText r
                | None => "-"
                end in
  let after := match ch_After ch with
               | Some r => resultAsText r
               | None => "-"
               end in
  "[element=" +:+ fmt_Quote (ch_ID ch) +:+
  " type=" +:+ fmtPtrQStr (ch_TypeDesc ch) "-" +:+
  " number=" +:+ strconv_Itoa (ch_TypeNum ch) +:+
  " / Before: (" +:+ before +:+ ") / After: (" +:+ after +:+ ")]".

(** The slice [changes] after the [sort.Slice] of [changesAsText], which
    sorts it in place by type and number. *)
Definition sortChanges (changes : list Change) : list Change :=
  sort_Slice Change changeLess changes.

(** [changesAsText] formats a slice of [Change] as text. *)
Definition changesAsText (changes : list Change) : list string :=
  map changeAsText (sortChanges changes).
End Parser.

(** ** Wall-clock time *)

(** The calendar fields of a [time.Time] in the local zone. *)
Record Time : Type := {
  t_Year : Z;
  t_Month : Z;
  t_Day : Z;
  t_Hour : Z;
  t_Minute : Z;
  t_Second : Z;
  t_Nanosecond : Z;
}.

(** A non-negative number in decimal, zero-padded to [width] digits. *)
Definition zeroPad (width : nat) (z : Z) : string :=
  let s := strconv_Itoa z in
  string_of_list_ascii (repeat "0"%char (width - String.length s)) +:+ s.

(** [t.Format("20060102-150405")]. *)
Definition formatStamp (t : Time) : string :=
  zeroPad 4 (t_Year t) +:+ zeroPad 2 (t_Month t) +:+ zeroPad 2 (t_Day t) +:+
  "-" +:+
  zeroPad 2 (t_Hour t) +:+ zeroPad 2 (t_Minute t) +:+ zeroPad 2 (t_Second t).

(** [t.Format(time.RFC3339)] depends on the zone offset of the host. *)
Class GoTime : Type := {
  time_FormatRFC3339 : Time -> string;
}.

(** ** Observable effects *)

(** The text handed to a notification agent. *)
Inductive Message : Type :=
  (* the joined change lines of an alert *)
  | MsgAlert (msg : string)
  (* "Error polling device [%d/%d] (stopping device monitor): %v" *)
  | MsgBackoffStop (failures after : Z) (err : error)
  (* "Error polling device [%d/%d] (entering %s back-off): %v" *)
  | MsgBackoff (failures after backoffTime : Z) (err : error).

(** The lines written through a [log.Logger]. *)
Inductive LogLine : Type :=
  | LogInitialElements (n : nat)
  | LogBatchElements (n : nat)
  | LogNoChanges
  | LogChangesDetected (n : nat)
  | LogAlertSkipped
  | LogAlert (msg : string)
  | LogSnapshotWriteError (e : error)
  | LogParsedSnapshotWriteError (e : error)
  | LogParsedSnapshotMarshalError (e : error)
  | LogReportWriteError (e : error)
  | LogPollError (failures after : Z) (e : error)
  | LogMessage (m : Message)
  | LogShuttingDown
  | LogMonitoring (withNotifier : bool)
  | LogPanicRecovered (desc : string)
  | LogDuplicateAddress (sas : string)
  | LogNoLookupTable (e : error)
  | LogAddressResolved (address dev : string)
  | LogAddressNotFound (address : string)
  | LogAddressNoTable (address : string)
  | LogDeviceResolved (dev address : string).

(** What a monitor does to its surroundings: a line on its logger, or the
    start of a task calling [notifier.Notify(ctx, device, msg, extra)]. *)
Inductive Event : Type :=
  | EvLog (l : LogLine)
  | EvNotify (dev : Device) (msg : Message) (extra : option ChangeReport).

(** ** The filesystem collaborator *)

(** The operations of [afero.Fs] and of the helpers of package [afero]
    that the code calls, over a filesystem state [F]. [fs_Stat] returns the
    mode bits of the file. *)
Class AferoFs (F : Type) : Type := {
  afero_Glob : F -> string -> error + list string;
  afero_ReadFile : F -> string -> error + string;
  fs_Stat : F -> string -> error + Z;
  fs_MkdirAll : F -> string -> Z -> option error * F;
  afero_WriteFile : F -> string -> string -> Z -> option error * F;
}.

(** ** Retry utility of [util.go] *)

(** A [context.Context] over a world [W]: [ctx.Err()], and the [select]
    between [ctx.Done()] and [time.After(interval)], which yields
    [ctx.Err()] when the context wins and [None] when the timer does. *)
Record Context (W : Type) : Type := {
  ctx_Err : W -> option error;
  ctx_DoneOrAfter : Z -> W -> option error * W;
}.
Arguments ctx_Err {W} _ _.
Arguments ctx_DoneOrAfter {W} _ _ _.

(** The values returned by [withRetries], the world it leaves, and the
    results of the calls of [fn] it made, in order (a ghost field). *)
Record Retried (W : Type) : Type := {
  rt_attempt : Z;
  rt_err : option error;
  rt_world : W;
  rt_calls : list (option error);
}.
Arguments rt_attempt {W} _.
Arguments rt_err {W} _.
Arguments rt_world {W} _.
Arguments rt_calls {W} _.

Section Retry.
Context {W : Type}.

(** The loop [for range attempts] with [n] iterations left. *)
Fixpoint retryLoop (n : nat) (ctx : Context W)
    (fn : W -> option error * W)
    (onAttemptErr : option (Z -> error -> W -> W))
    (attempts interval : Z)
    (attempt : Z) (e : option error) (w : W) (calls : list (option error))
  : Retried W :=
  match n with
  | O => {| rt_attempt := attempt; rt_err := e; rt_world := w;
            rt_calls := calls |}
  | S n' =>
      match ctx_Err ctx w with
      | Some err =>
          {| rt_attempt := attempt;
             rt_err := Some (errWrap "context error" err);
             rt_world := w; rt_calls := calls |}
      | None =>
          let '(e, w) := fn w in
          let attempt := attempt + 1 in
          let calls := calls ++ [e] in
          match e with
          | None =>
              {| rt_attempt := attempt; rt_err := None; rt_world := w;
                 rt_calls := calls |}
          | Some ee =>
              let w := match onAttemptErr with
                       | Some cb => cb attempt ee w
                       | None => w
                       end in
              if attempt <? attempts then
                match ctx_DoneOrAfter ctx interval w with
                | (Some cerr, w) =>
                    {| rt_attempt := attempt;
                       rt_err := Some (errWrap "context error" cerr);
                       rt_world := w; rt_calls := calls |}
                | (None, w) =>
                    retryLoop n' ctx fn onAttemptErr attempts interval
                      attempt e w calls
                end
              else
                retryLoop n' ctx fn onAttemptErr attempts interval
                  attempt e w calls
          end
      end
  end.

(** [withRetries] executes [fn] with retries and a callback on each
    failed attempt. *)
Definition withRetries (ctx : Context W)
    (fn : option (W -> option error * W))
    (onAttemptErr : option (Z -> error -> W -> W))
    (attempts interval : Z) (w : W) : Retried W :=
  match fn with
  | None =>
      {| rt_attempt := 0;
         rt_err := Some (errWrap "function cannot be nil" errInvalidArgument);
         rt_world := w; rt_calls := [] |}
  | Some f =>
      retryLoop (Z.to_nat attempts) ctx f onAttemptErr attempts interval
        0 None w []
  end.
End Retry.

(** ** Device resolver of [lookup.go] *)

Record DeviceFinder : Type := { devices : gmap string string }.

Section Lookup.
Context `{GoLib} {F : Type} `{AferoFs F}.

(** The body of the first loop of [NewDeviceFinder] for the match [d]. *)
Definition finderStep (fsys : F)
    (acc : gmap string string * gset string) (d : string)
  : gmap string string * gset string :=
  let '(devices, ignored) := acc in
  match afero_ReadFile fsys (filepath_Join d "sas_address") with
  | inl _ => acc
  | inr sasb =>
      let sas := strings_ToLower (strings_TrimSpace sasb) in
      if String.eqb sas "" then acc
      else
        let sg := "/dev/" +:+ filepath_Base (filepath_Dir d) in
        let ignored :=
          match devices !! sas with
          | Some _ => {[ sas ]} ∪ ignored
          | None => ignored
          end in
        (<[sas := sg]> devices, ignored)
  end.

(** [NewDeviceFinder] returns a new [DeviceFinder] and the warnings it
    logged. *)
Definition NewDeviceFinder (fsys : F)
  : (error + DeviceFinder) * list LogLine :=
  match afero_Glob fsys "/sys/class/scsi_generic/sg*/device" with
  | inl err => (inl (errWrap "glob failure" err), [])
  | inr matches =>
      let '(devices, ignored) := foldl (finderStep fsys) (∅, ∅) matches in
      let ks := elements ignored in
      (inr {| devices := foldl (fun m k => delete k m) devices ks |},
       map LogDuplicateAddress ks)
  end.

(** [FindAddress] tries to resolve a device path to a SAS address. *)
Definition FindAddress (f : DeviceFinder) (devicePath : string)
  : string * bool :=
  match List.find (fun kv => String.eqb (snd kv) devicePath)
          (map_to_list (devices f)) with
  | Some (k, _) => (k, true)
  | None => ("", false)
  end.

(** [FindDevice] tries to resolve a SAS address to a device path. *)
Definition FindDevice (f : DeviceFinder) (deviceAddress : string)
  : string * bool :=
  match devices f !! deviceAddress with
  | Some v => (v, true)
  | None => ("", false)
  end.
End Lookup.

(** ** Configuration of a monitor ([monitor.go]) *)

(** Durations are in nanoseconds. *)
Definition Second : Z := 1000000000.
Definition Minute : Z := 60 * Second.

Definition DeviceTypeDevice : Z := 0.
Definition DeviceTypeFile : Z := 1.

Record DeviceMonitorConfig : Type := {
  PollInterval : option Z;
  PollAttempts : option Z;
  PollAttemptTimeout : option Z;
  PollAttemptInterval : option Z;
  PollBackoffAfter : option Z;
  PollBackoffTime : option Z;
  PollBackoffNotify : option bool;
  PollBackoffStopMonitor : option bool;
  OutputDir : option string;
  Verbose : option bool;
}.

(** [DefaultDeviceMonitorConfig] returns the default configuration. *)
Definition DefaultDeviceMonitorConfig : DeviceMonitorConfig :=
  {| PollInterval := ptr (90 * Second);
     PollAttempts := ptr 3;
     PollAttemptTimeout := ptr (15 * Second);
     PollAttemptInterval := ptr (15 * Second);
     PollBackoffAfter := ptr 3;
     PollBackoffTime := ptr (3 * Minute);
     PollBackoffNotify := ptr true;
     PollBackoffStopMonitor := ptr false;
     OutputDir := None;
     Verbose := ptr false |}.

(** [if user != nil { merged = user } else { merged = default }]. *)
Definition orDefault {A : Type} (user dflt : option A) : option A :=
  match user with Some _ => user | None => dflt end.

(** [mergeDeviceMonitorConfig] merges a user-provided configuration with
    the defaults. *)
Definition mergeDeviceMonitorConfig `{GoLib}
    (userCfg : option DeviceMonitorConfig) : error + DeviceMonitorConfig :=
  match userCfg with
  | None => inr DefaultDeviceMonitorConfig
  | Some u =>
      let d := DefaultDeviceMonitorConfig in
      match PollAttempts u with
      | Some n =>
          if n <=? 0 then
            inl (errWrap "poll_attempts must be > 0" errInvalidArgument)
          else
            inr {| PollInterval := orDefault (PollInterval u) (PollInterval d);
                   PollAttempts := PollAttempts u;
                   PollAttemptTimeout :=
                     orDefault (PollAttemptTimeout u) (PollAttemptTimeout d);
                   PollAttemptInterval :=
                     orDefault (PollAttemptInterval u) (PollAttemptInterval d);
                   PollBackoffAfter :=
                     orDefault (PollBackoffAfter u) (PollBackoffAfter d);
                   PollBackoffTime :=
                     orDefault (PollBackoffTime u) (PollBackoffTime d);
                   PollBackoffNotify :=
                     orDefault (PollBackoffNotify u) (PollBackoffNotify d);
                   PollBackoffStopMonitor :=
                     orDefault (PollBackoffStopMonitor u)
                       (PollBackoffStopMonitor d);
                   OutputDir :=
                     match OutputDir u with
                     | Some o =>
                         if negb (String.eqb o "") then ptr (filepath_Clean o)
                         else OutputDir d
                     | None => OutputDir d
                     end;
                   Verbose := orDefault (Verbose u) (Verbose d) |}
      | None =>
          inr {| PollInterval := orDefault (PollInterval u) (PollInterval d);
                 PollAttempts := PollAttempts d;
                 PollAttemptTimeout :=
                   orDefault (PollAttemptTimeout u) (PollAttemptTimeout d);
                 PollAttemptInterval :=
                   orDefault (PollAttemptInterval u) (PollAttemptInterval d);
                 PollBackoffAfter :=
                   orDefault (PollBackoffAfter u) (PollBackoffAfter d);
                 PollBackoffTime :=
                   orDefault (PollBackoffTime u) (PollBackoffTime d);
                 PollBackoffNotify :=
                   orDefault (PollBackoffNotify u) (PollBackoffNotify d);
                 PollBackoffStopMonitor :=
                   orDefault (PollBackoffStopMonitor u)
                     (PollBackoffStopMonitor d);
                 OutputDir :=
                   match OutputDir u with
                   | Some o =>
                       if negb (String.eqb o "") then ptr (filepath_Clean o)
                       else OutputDir d
                   | None => OutputDir d
                   end;
                 Verbose := orDefault (Verbose u) (Verbose d) |}
      end
  end.

(** ** Notification agent ([notifier.go]) *)

Definition executableModeMask : Z := 73 (* 0o111 *).

Record ScriptNotifierConfig : Type := {
  NotifyAttempts : option Z;
  NotifyAttemptTimeout : option Z;
  NotifyAttemptInterval : option Z;
}.

Definition DefaultScriptNotifierConfig : ScriptNotifierConfig :=
  {| NotifyAttempts := ptr 3;
     NotifyAttemptTimeout := ptr (15 * Second);
     NotifyAttemptInterval := ptr (15 * Second) |}.

(** [mergeScriptNotifierConfig] of [util.go]. *)
Definition mergeScriptNotifierConfig (userCfg : option ScriptNotifierConfig)
  : error + ScriptNotifierConfig :=
  match userCfg with
  | None => inr DefaultScriptNotifierConfig
  | Some u =>
      let d := DefaultScriptNotifierConfig in
      let rest attempts :=
        {| NotifyAttempts := attempts;
           NotifyAttemptTimeout :=
             orDefault (NotifyAttemptTimeout u) (NotifyAttemptTimeout d);
           NotifyAttemptInterval :=
             orDefault (NotifyAttemptInterval u) (NotifyAttemptInterval d) |} in
      match NotifyAttempts u with
      | Some n =>
          if n <=? 0 then
            inl (errWrap "notify_attempts must be > 0" errInvalidArgument)
          else inr (rest (NotifyAttempts u))
      | None => inr (rest (NotifyAttempts d))
      end
  end.

(** A [log.Logger]: its prefix and whether it prints timestamps. *)
Record Logger : Type := {
  lg_prefix : string;
  lg_timestamps : bool;
}.

(** The implementations of the interface [CommandRunner]: one supplied by
    the caller, or the [RetryCommandRunner] of [exec.go]. *)
Inductive CommandRunner : Type :=
  | SuppliedRunner
  | RetryCommandRunner (logger : Logger).

Record ScriptNotifier : Type := {
  sn_script : string;
  sn_runner : CommandRunner;
  sn_logger : Logger;
  sn_cfg : ScriptNotifierConfig;
}.

Section Notifier.
Context {F : Type} `{AferoFs F}.

(** [NewScriptNotifier] returns a new [ScriptNotifier]. *)
Definition NewScriptNotifier (script : string)
    (cfg : option ScriptNotifierConfig)
    (fsys : option F) (runner : option CommandRunner)
    (logger : option Logger) : error + ScriptNotifier :=
  match fsys, runner, logger with
  | Some fsys, Some runner, Some logger =>
      if String.eqb script "" then
        inl (errWrap "no script provided" errInvalidArgument)
      else
        match fs_Stat fsys script with
        | inl err => inl (errWrap "stat script failure" err)
        | inr mode =>
            if Z.land mode executableModeMask =? 0 then
              inl (errWrap script errNotExecutable)
            else
              match mergeScriptNotifierConfig cfg with
              | inl err => inl (errWrap "configuration failure" err)
              | inr scfg =>
                  inr {| sn_script := script; sn_runner := runner;
                         sn_logger := logger; sn_cfg := scfg |}
              end
        end
  | _, _, _ => inl (errWrap "required dependency is nil" errInvalidArgument)
  end.
End Notifier.

(** ** Device monitor ([monitor.go], [write.go]) *)

Definition baseFilePerms : Z := 438 (* 0o666 *).
Definition baseFolderPerms : Z := 511 (* 0o777 *).

(** [deviceMonitorState] is the state of a [DeviceMonitor]. [onceDone]
    says that [once] has run; [stopClosed] and [doneClosed] say that the
    channels [stop] and [done] are closed. *)
Record deviceMonitorState : Type := {
  pollFailures : Z;
  lastAlertHash : string;
  previousResults : option (gmap string Result);
  onceDone : bool;
  stopClosed : bool;
  doneClosed : bool;
}.

(** [newDeviceMonitorState] returns a new [deviceMonitorState]. *)
Definition newDeviceMonitorState : deviceMonitorState :=
  {| pollFailures := 0; lastAlertHash := ""; previousResults := None;
     onceDone := false; stopClosed := false; doneClosed := false |}.

Definition setPollFailures (v : Z) (s : deviceMonitorState) :=
  {| pollFailures := v; lastAlertHash := lastAlertHash s;
     previousResults := previousResults s; onceDone := onceDone s;
     stopClosed := stopClosed s; doneClosed := doneClosed s |}.

Definition setLastAlertHash (v : string) (s : deviceMonitorState) :=
  {| pollFailures := pollFailures s; lastAlertHash := v;
     previousResults := previousResults s; onceDone := onceDone s;
     stopClosed := stopClosed s; doneClosed := doneClosed s |}.

Definition setPreviousResults (v : option (gmap string Result))
    (s : deviceMonitorState) :=
  {| pollFailures := pollFailures s; lastAlertHash := lastAlertHash s;
     previousResults := v; onceDone := onceDone s;
     stopClosed := stopClosed s; doneClosed := doneClosed s |}.

Definition closeStop (s : deviceMonitorState) :=
  {| pollFailures := pollFailures s; lastAlertHash := lastAlertHash s;
     previousResults := previousResults s; onceDone := true;
     stopClosed := true; doneClosed := doneClosed s |}.

Definition closeDone (s : deviceMonitorState) :=
  {| pollFailures := pollFailures s; lastAlertHash := lastAlertHash s;
     previousResults := previousResults s; onceDone := onceDone s;
     stopClosed := stopClosed s; doneClosed := true |}.

(** [n++] on a 64-bit [int]. *)
Definition incr64 (n : Z) : Z :=
  (n + 1 + 2 ^ 63) mod 2 ^ 64 - 2 ^ 63.

Record DeviceMonitor : Type := {
  dm_device : Device;
  dm_runner : CommandRunner;
  dm_notifier : option ScriptNotifier;
  dm_logger : Logger;
  dm_cfg : DeviceMonitorConfig;
}.

(** What one task of a monitor works on: the state of the monitor, the
    filesystem, and the effects emitted so far (oldest first). *)
Record World (F : Type) : Type := {
  w_state : deviceMonitorState;
  w_fs : F;
  w_events : list Event;
}.
Arguments w_state {F} _.
Arguments w_fs {F} _.
Arguments w_events {F} _.

(** A computation over the world; [None] is a panic. *)
Definition M (F A : Type) : Type := World F -> option A * World F.

Definition retM {F A : Type} (a : A) : M F A := fun w => (Some a, w).

Definition panicM {F A : Type} : M F A := fun w => (None, w).

Definition bindM {F A B : Type} (m : M F A) (k : A -> M F B) : M F B :=
  fun w => match m w with
           | (Some a, w') => k a w'
           | (None, w') => (None, w')
           end.

Notation "'do' x <- m ; k" := (bindM m (fun x => k))
  (at level 10, x name, m at level 100, k at level 200).
Notation "m ;; k" := (bindM m (fun _ => k))
  (at level 100, k at level 200, right associativity).

(** [defer f]: [f] runs when the function returns or panics. *)
Definition deferM {F A : Type} (f : World F -> World F) (m : M F A) : M F A :=
  fun w => let '(r, w') := m w in (r, f w').

Definition getState {F : Type} : M F deviceMonitorState :=
  fun w => (Some (w_state w), w).

Definition modifyState {F : Type} (f : deviceMonitorState -> deviceMonitorState)
  : M F unit :=
  fun w => (Some tt, {| w_state := f (w_state w); w_fs := w_fs w;
                        w_events := w_events w |}).

Definition emit {F : Type} (e : Event) : M F unit :=
  fun w => (Some tt, {| w_state := w_state w; w_fs := w_fs w;
                        w_events := w_events w ++ [e] |}).

Definition logM {F : Type} (l : LogLine) : M F unit := emit (EvLog l).

Definition onFs {F A : Type} (f : F -> A * F) : M F A :=
  fun w => let '(a, fs) := f (w_fs w) in
           (Some a, {| w_state := w_state w; w_fs := fs;
                       w_events := w_events w |}).

(** [*p] inside a computation. *)
Definition derefM {F A : Type} (p : option A) : M F A :=
  match p with Some v => retM v | None => panicM end.

Definition whenM {F : Type} (b : bool) (m : M F unit) : M F unit :=
  if b then m else retM tt.

(** What a poll observes of its surroundings: the result of
    [fetchFromDevice] (the dump of the device, obtained through the command
    runner or the file source), and the readings of [time.Now()] in
    [writeCurrentData], in [poll] and in [writeChangeReport]. *)
Record PollEnv : Type := {
  pe_fetch : error + string;
  pe_capturedAt : Time;
  pe_detectedAt : Time;
  pe_reportAt : Time;
}.

(** How the wait of a back-off period ends. *)
Inductive Wake : Type :=
  | WakeContext   (* <-ctx.Done() *)
  | WakeStop      (* <-d.state.stop, closed by a [Stop] of another task *)
  | WakeTimer.    (* <-time.After(backoff) *)

(** What [pollFailure] observes: whether the context is cancelled when it
    is entered, and how the wait ends if it is reached. *)
Record FailEnv : Type := {
  fe_ctxDone : bool;
  fe_wake : Wake;
}.

Section Monitor.
Context `{GoLib} `{GoCodec} `{GoTime} {F : Type} `{AferoFs F}.

(** [NewDeviceMonitor] returns a new [DeviceMonitor]. *)
Definition NewDeviceMonitor (device : Device)
    (cfg : option DeviceMonitorConfig)
    (fsys : option F) (runner : option CommandRunner)
    (logger : option Logger) (notifier : option ScriptNotifier)
  : error + DeviceMonitor :=
  match fsys, runner, logger with
  | Some fsys, Some runner, Some logger =>
      if String.eqb (dev_Path device) "" then
        inl (errWrap "no device provided" errInvalidArgument)
      else
        match fs_Stat fsys (dev_Path device) with
        | inl err =>
            inl (errWrap "stat device failure" errInvalidArgument)
        | inr _ =>
            match mergeDeviceMonitorConfig cfg with
            | inl err => inl (errWrap "configuration failure" err)
            | inr mcfg =>
                inr {| dm_device := device; dm_runner := runner;
                       dm_notifier := notifier; dm_logger := logger;
                       dm_cfg := mcfg |}
            end
        end
  | _, _, _ => inl (errWrap "required dependency is nil" errInvalidArgument)
  end.

(** [Stop] stops the monitoring for the device. *)
Definition Stop (d : DeviceMonitor) : M F unit :=
  do st <- getState;
  if onceDone st then retM tt
  else (logM LogShuttingDown ;; modifyState closeStop).

(** [ensureDeviceFolder] ensures that the output directory exists. *)
Definition ensureDeviceFolder (d : DeviceMonitor) : M F (error + string) :=
  do dir <- derefM (OutputDir (dm_cfg d));
  do err <- onFs (fun fs => fs_MkdirAll fs dir baseFolderPerms);
  match err with
  | Some e => retM (inl (errWrap "failure creating directory" e))
  | None =>
      do dir <- derefM (OutputDir (dm_cfg d));
      retM (inr dir)
  end.

(** [writeDeviceSnapshot] writes a [DeviceSnapshot] to a JSON file. *)
Definition writeDeviceSnapshot (d : DeviceMonitor)
    (snapshot : DeviceSnapshot) (filename : string) : M F (option error) :=
  do dir <- ensureDeviceFolder d;
  match dir with
  | inl err => retM (Some (errWrap "failure ensuring folder" err))
  | inr deviceDir =>
      let currentPath := filepath_Join deviceDir filename in
      match json_MarshalIndent_snapshot snapshot with
      | inl err => retM (Some (errWrap "failure marshalling to JSON" err))
      | inr data =>
          do err <- onFs (fun fs =>
                      afero_WriteFile fs currentPath data baseFilePerms);
          match err with
          | Some e => retM (Some (errWrap "failure writing to file" e))
          | None => retM None
          end
      end
  end.

(** [writeChangeReport] writes a [ChangeReport] to a time-stamped JSON
    file; [now] is the reading of [time.Now()]. *)
Definition writeChangeReport (d : DeviceMonitor) (now : Time)
    (report : ChangeReport) : M F (option error) :=
  do dir <- ensureDeviceFolder d;
  match dir with
  | inl err => retM (Some (errWrap "failure ensuring folder" err))
  | inr deviceDir =>
      let timestamp := formatStamp now in
      let filename := "change-" +:+ timestamp +:+ ".json" in
      let reportPath := filepath_Join deviceDir filename in
      match json_MarshalIndent_report report with
      | inl err => retM (Some (errWrap "failure marshalling to JSON" err))
      | inr data =>
          do err <- onFs (fun fs =>
                      afero_WriteFile fs reportPath data baseFilePerms);
          match err with
          | Some e => retM (Some (errWrap "failure writing to file" e))
          | None => retM None
          end
      end
  end.

(** [writeCurrentData] writes the current results to the snapshot
    files. *)
Definition writeCurrentData (d : DeviceMonitor) (now : Time)
    (raw : string) (parsed : gmap string Result) : M F unit :=
  let snapshot := {| ds_Device := dm_device d;
                     ds_CapturedAt := time_FormatRFC3339 now;
                     ds_Raw := raw |} in
  do err <- writeDeviceSnapshot d snapshot "current.json";
  match err with
  | Some e => logM (LogSnapshotWriteError e)
  | None => retM tt
  end ;;
  match json_MarshalIndent_results parsed with
  | inr results =>
      let snapshot := {| ds_Device := dm_device d;
                         ds_CapturedAt := time_FormatRFC3339 now;
                         ds_Raw := results |} in
      do err <- writeDeviceSnapshot d snapshot "current_parsed.json";
      match err with
      | Some e => logM (LogParsedSnapshotWriteError e)
      | None => retM tt
      end
  | inl e => logM (LogParsedSnapshotMarshalError e)
  end.

(** [handleAlert] handles alerting for the changes of [report] with the
    message [msg]. The notifier runs in a task of its own, which starts
    with the event [EvNotify]; what that task logs later is not part of
    this trace. *)
Definition handleAlert (d : DeviceMonitor) (now : Time)
    (hash msg : string) (report : ChangeReport) : M F unit :=
  logM (LogAlert msg) ;;
  match dm_notifier d with
  | Some _ => emit (EvNotify (dm_device d) (MsgAlert msg) (Some report))
  | None => retM tt
  end ;;
  match OutputDir (dm_cfg d) with
  | Some _ =>
      do err <- writeChangeReport d now report;
      match err with
      | Some e => logM (LogReportWriteError e)
      | None => retM tt
      end
  | None => retM tt
  end ;;
  modifyState (setLastAlertHash hash).

(** The hash of an alert message: [hex.EncodeToString] of
    [sha256.Sum256]. *)
Definition alertHash (msg : string) : string :=
  hex_EncodeToString (sha256_Sum256 msg).

(** [poll] is a device polling attempt. *)
Definition poll (d : DeviceMonitor) (env : PollEnv) : M F (option error) :=
  match pe_fetch env with
  | inl err => retM (Some (errWrap "failure fetching from device" err))
  | inr ret =>
      match parseSES ret with
      | Panicked => panicM
      | Err err => retM (Some (errWrap "failure parsing fetched data" err))
      | Ok currentResults =>
          deferM
            (fun w => {| w_state := setPreviousResults (Some currentResults)
                                      (w_state w);
                         w_fs := w_fs w; w_events := w_events w |})
            (match OutputDir (dm_cfg d) with
             | Some _ =>
                 writeCurrentData d (pe_capturedAt env) ret currentResults
             | None => retM tt
             end ;;
             do st <- getState;
             match previousResults st with
             | None =>
                 logM (LogInitialElements (size currentResults)) ;;
                 retM None
             | Some previous =>
                 do verbose <- derefM (Verbose (dm_cfg d));
                 whenM verbose
                   (logM (LogBatchElements (size currentResults))) ;;
                 let changes := rowsDiff previous currentResults in
                 if (length changes =? 0)%nat then
                   do verbose <- derefM (Verbose (dm_cfg d));
                   whenM verbose (logM LogNoChanges) ;;
                   retM None
                 else
                   do verbose <- derefM (Verbose (dm_cfg d));
                   whenM verbose
                     (logM (LogChangesDetected (length changes))) ;;
                   (* [changesAsText] sorts the slice shared with the
                      report before the report is used *)
                   let report :=
                     {| cr_Device := dm_device d;
                        cr_DetectedAt :=
                          time_FormatRFC3339 (pe_detectedAt env);
                        cr_Changes := sortChanges changes |} in
                   let msg := buildMessage (changesAsText changes) in
                   let hash := alertHash msg in
                   do st <- getState;
                   if negb (String.eqb (lastAlertHash st) "")
                      && String.eqb (lastAlertHash st) hash
                   then logM LogAlertSkipped ;; retM None
                   else
                     handleAlert d (pe_reportAt env) hash msg report ;;
                     retM None
             end)
      end
  end.

(** [pollFailure] is called after a device poll has failed. A [select]
    with a [default] case takes a ready case when there is one. *)
Definition pollFailure (d : DeviceMonitor) (env : FailEnv) (err : error)
  : M F unit :=
  do st <- getState;
  if fe_ctxDone env || stopClosed st then retM tt
  else
    modifyState (fun s => setPollFailures (incr64 (pollFailures s)) s) ;;
    do st <- getState;
    do after <- derefM (PollBackoffAfter (dm_cfg d));
    if pollFailures st <? after then
      logM (LogPollError (pollFailures st) after err)
    else
      do stopMonitor <- derefM (PollBackoffStopMonitor (dm_cfg d));
      do msg <-
        (if stopMonitor : bool then
           do after <- derefM (PollBackoffAfter (dm_cfg d));
           retM (MsgBackoffStop (pollFailures st) after err)
         else
           do after <- derefM (PollBackoffAfter (dm_cfg d));
           do backoff <- derefM (PollBackoffTime (dm_cfg d));
           retM (MsgBackoff (pollFailures st) after backoff err));
      logM (LogMessage msg) ;;
      match dm_notifier d with
      | Some _ =>
          do notify <- derefM (PollBackoffNotify (dm_cfg d));
          whenM notify (emit (EvNotify (dm_device d) msg None))
      | None => retM tt
      end ;;
      do stopMonitor <- derefM (PollBackoffStopMonitor (dm_cfg d));
      if stopMonitor : bool then Stop d
      else
        do backoff <- derefM (PollBackoffTime (dm_cfg d));
        match fe_wake env with
        | WakeContext => retM tt
        | WakeStop => Stop d
        | WakeTimer => modifyState (setPollFailures 0)
        end.
End Monitor.

(** What the loop of a monitor task meets, one entry per step: a tick of
    the ticker (with what the poll then observes), the cancellation of the
    context, the closed [stop] channel, or a call of [Stop] by another
    task. *)
Inductive LoopInput : Type :=
  | InTick (env : PollEnv) (fenv : FailEnv)
  | InCtxDone
  | InStopSeen
  | InExternalStop.

Section MonitorLoop.
Context `{GoLib} `{GoCodec} `{GoTime} {F : Type} `{AferoFs F}.

(** [if err := d.poll(ctx); err != nil { d.pollFailure(ctx, err) }]. *)
Definition pollOnce (d : DeviceMonitor) (env : PollEnv) (fenv : FailEnv)
  : M F unit :=
  do err <- poll d env;
  match err with
  | Some e => pollFailure d fenv e
  | None => retM tt
  end.

(** The [for { select { ... } }] of [Start] over the inputs met so far;
    the result says whether the loop has returned. *)
Fixpoint tickerLoop (d : DeviceMonitor) (inputs : list LoopInput)
  : M F bool :=
  match inputs with
  | [] => retM false
  | InCtxDone :: _ => retM true
  | InStopSeen :: rest =>
      do st <- getState;
      if stopClosed st then retM true else tickerLoop d rest
  | InExternalStop :: rest => Stop d ;; tickerLoop d rest
  | InTick env fenv :: rest => pollOnce d env fenv ;; tickerLoop d rest
  end.

(** [Start] starts monitoring of the device: the first poll, then the
    loop ([time.NewTicker] panics on an interval that is not positive);
    when the task ends, by return or by panic, the deferred calls run:
    [d.Stop()], [close(d.state.done)], [recoverGoPanic]. *)
Definition Start (d : DeviceMonitor) (env : PollEnv) (fenv : FailEnv)
    (inputs : list LoopInput) (w : World F) : World F :=
  let task : M F bool :=
    logM (LogMonitoring (bool_decide (dm_notifier d <> None))) ;;
    pollOnce d env fenv ;;
    do interval <- derefM (PollInterval (dm_cfg d));
    if interval <=? 0 then panicM else tickerLoop d inputs in
  match task w with
  | (Some false, w') => w'
  | (Some true, w') =>
      snd ((Stop d ;; modifyState closeDone) w')
  | (None, w') =>
      snd ((Stop d ;; modifyState closeDone ;;
            logM (LogPanicRecovered "monitor")) w')
  end.
End MonitorLoop.

(** ** Supervisor ([program.go]) *)

Record ScriptNotifierYAML : Type := {
  sy_Script : string;
  sy_Config : option ScriptNotifierConfig;
}.

Record DeviceYAML : Type := {
  dy_Device : string;
  dy_Address : string;
  dy_Description : string;
  dy_Type : Z;
  dy_Enabled : bool;
  dy_MonitorConfig : option DeviceMonitorConfig;
  dy_ScriptNotifier : option ScriptNotifierYAML;
}.

Record ConfigYAML : Type := {
  DisableTimestamps : bool;
  Devices : list DeviceYAML;
}.

Record Program : Type := {
  monitors : gmap string DeviceMonitor;
  prog_logger : Logger;
}.

(** [yaml.NewDecoder] with [KnownFields(true)], decoding a [ConfigYAML]. *)
Class GoYAML : Type := {
  yaml_Decode : string -> error + ConfigYAML;
}.

(** The interface [DeviceLookuper]. *)
Record DeviceLookuper : Type := {
  lk_FindAddress : string -> string * bool;
  lk_FindDevice : string -> string * bool;
}.

Definition withDevice (v : string) (c : DeviceYAML) : DeviceYAML :=
  {| dy_Device := v; dy_Address := dy_Address c;
     dy_Description := dy_Description c; dy_Type := dy_Type c;
     dy_Enabled := dy_Enabled c; dy_MonitorConfig := dy_MonitorConfig c;
     dy_ScriptNotifier := dy_ScriptNotifier c |}.

Definition withAddress (v : string) (c : DeviceYAML) : DeviceYAML :=
  {| dy_Device := dy_Device c; dy_Address := v;
     dy_Description := dy_Description c; dy_Type := dy_Type c;
     dy_Enabled := dy_Enabled c; dy_MonitorConfig := dy_MonitorConfig c;
     dy_ScriptNotifier := dy_ScriptNotifier c |}.

(** [lookupDevice] attempts to look up a [DeviceYAML] using a
    [DeviceLookuper]; it returns the error, the completed configuration
    and the lines logged. *)
Definition lookupDevice (deviceCfg : DeviceYAML)
    (finder : option DeviceLookuper)
  : option error * DeviceYAML * list LogLine :=
  if negb (String.eqb (dy_Address deviceCfg) "") then
    match finder with
    | Some finder =>
        match lk_FindDevice finder (dy_Address deviceCfg) with
        | (dev, true) =>
            (None, withDevice dev deviceCfg,
             [LogAddressResolved (dy_Address deviceCfg) dev])
        | (_, false) =>
            if String.eqb (dy_Device deviceCfg) "" then
              (Some (errWrap "SAS address is not resolvable (not found)"
                       errDeviceLookupFailed), deviceCfg, [])
            else
              (None, withAddress "" deviceCfg,
               [LogAddressNotFound (dy_Address deviceCfg)])
        end
    | None =>
        if String.eqb (dy_Device deviceCfg) "" then
          (Some (errWrap "SAS address is not resolvable (no lookup table)"
                   errDeviceLookupFailed), deviceCfg, [])
        else
          (None, withAddress "" deviceCfg,
           [LogAddressNoTable (dy_Address deviceCfg)])
    end
  else if negb (String.eqb (dy_Device deviceCfg) "")
          && bool_decide (finder <> None) then
    match finder with
    | Some finder =>
        match lk_FindAddress finder (dy_Device deviceCfg) with
        | (addr, true) =>
            (None, withAddress addr deviceCfg,
             [LogDeviceResolved (dy_Device deviceCfg) addr])
        | (_, false) => (None, deviceCfg, [])
        end
    | None => (None, deviceCfg, [])
    end
  else (None, deviceCfg, []).

Section Supervisor.
Context `{GoLib} `{GoYAML} {F : Type} `{AferoFs F}.

(** [afero.NewOsFs()]: the filesystem of the host. *)
Variable afero_NewOsFs : F.

(** A [DeviceFinder] as a [DeviceLookuper]. *)
Definition finderLookuper (df : DeviceFinder) : DeviceLookuper :=
  {| lk_FindAddress := FindAddress df; lk_FindDevice := FindDevice df |}.

(** [setupDeviceMonitor] creates the [DeviceMonitor] for a
    [DeviceYAML]. *)
Definition setupDeviceMonitor (cfg : ConfigYAML) (deviceCfg : DeviceYAML)
    (fsys : F) (r : option CommandRunner) : error + DeviceMonitor :=
  let logger :=
    {| lg_prefix := dy_Device deviceCfg +:+ ":" +:+
                    dy_Address deviceCfg +:+ ": ";
       lg_timestamps := negb (DisableTimestamps cfg) |} in
  let runner := match r with
                | Some r => r
                | None => RetryCommandRunner logger
                end in
  let device := {| dev_Type := dy_Type deviceCfg;
                   dev_Path := dy_Device deviceCfg;
                   dev_Address := dy_Address deviceCfg;
                   dev_Description := dy_Description deviceCfg |} in
  let build notifier :=
    match NewDeviceMonitor device (dy_MonitorConfig deviceCfg)
            (Some fsys) (Some runner) (Some logger) notifier with
    | inl err => inl (errWrap "failure creating monitoring agent" err)
    | inr monitor => inr monitor
    end in
  match dy_ScriptNotifier deviceCfg with
  | Some sn =>
      match NewScriptNotifier (sy_Script sn) (sy_Config sn)
              (Some fsys) (Some runner) (Some logger) with
      | inl err => inl (errWrap "failure creating notification agent" err)
      | inr notifier => build (Some notifier)
      end
  | None => build None
  end.

(** What the loop of [NewProgram] carries from one entry to the next. *)
Record Setup : Type := {
  su_seenOutputDirs : gmap string bool;
  su_monitors : gmap string DeviceMonitor;
  su_log : list LogLine;
}.

(** The loop of [NewProgram] over [config.Devices] from index [i]: the
    error that ends it, if any, and what had been set up by then. *)
Fixpoint setupDevices (config : ConfigYAML) (fsys : F)
    (finder : option DeviceLookuper) (r : option CommandRunner)
    (i : Z) (devs : list DeviceYAML) (s : Setup) : option error * Setup :=
  match devs with
  | [] => (None, s)
  | deviceCfg :: rest =>
      if negb (dy_Enabled deviceCfg) then
        setupDevices config fsys finder r (i + 1) rest s
      else if String.eqb (dy_Device deviceCfg) ""
              && String.eqb (dy_Address deviceCfg) "" then
        (Some (errWrap ("[config:" +:+ strconv_Itoa i +:+
                        "] missing device and address") errInvalidArgument),
         s)
      else
        let checked : error + gmap string bool :=
          match dy_MonitorConfig deviceCfg with
          | Some mc =>
              match OutputDir mc with
              | Some dir =>
                  if default false (su_seenOutputDirs s !! dir) then
                    inl (errWrap ("[config:" +:+ strconv_Itoa i +:+
                                  "] cannot use same output directory")
                           errInvalidArgument)
                  else inr (<[dir := true]> (su_seenOutputDirs s))
              | None => inr (su_seenOutputDirs s)
              end
          | None => inr (su_seenOutputDirs s)
          end in
        match checked with
        | inl err => (Some err, s)
        | inr seen =>
            match lookupDevice deviceCfg finder with
            | (Some err, _, _) =>
                (Some (errWrap ("[config:" +:+ strconv_Itoa i +:+ "]") err),
                 s)
            | (None, deviceCfg, lines) =>
                let s := {| su_seenOutputDirs := seen;
                            su_monitors := su_monitors s;
                            su_log := su_log s ++ lines |} in
                match su_monitors s !! dy_Device deviceCfg with
                | Some _ =>
                    (Some (errWrap ("[config:" +:+ strconv_Itoa i +:+
                                    "] cannot monitor multiple times")
                             errInvalidArgument), s)
                | None =>
                    match setupDeviceMonitor config deviceCfg fsys r with
                    | inl err =>
                        (Some (errWrap ("[config:" +:+ strconv_Itoa i +:+
                                        ":" +:+ dy_Device deviceCfg +:+
                                        ":" +:+ dy_Address deviceCfg +:+
                                        "]") err), s)
                    | inr monitor =>
                        setupDevices config fsys finder r (i + 1) rest
                          {| su_seenOutputDirs := su_seenOutputDirs s;
                             su_monitors :=
                               <[dy_Device deviceCfg := monitor]>
                                 (su_monitors s);
                             su_log := su_log s |}
                    end
                end
            end
        end
  end.

(** [NewProgram] creates a new [Program] from a YAML configuration; the
    second component is what the logger of the program wrote. *)
Definition NewProgram (yamlConfig : string) (f : option F)
    (d : option DeviceLookuper) (r : option CommandRunner)
  : (error + Program) * list LogLine :=
  match yaml_Decode yamlConfig with
  | inl err => (inl (errWrap "failure parsing YAML" err), [])
  | inr config =>
      if (length (Devices config) =? 0)%nat then (inl errNoDevices, [])
      else
        let fsys := match f with Some f => f | None => afero_NewOsFs end in
        let logger := {| lg_prefix := "";
                         lg_timestamps := negb (DisableTimestamps config) |} in
        let '(finder, lines) :=
          match d with
          | Some d => (Some d, [])
          | None =>
              match NewDeviceFinder fsys with
              | (inl err, lines) => (None, lines ++ [LogNoLookupTable err])
              | (inr df, lines) => (Some (finderLookuper df), lines)
              end
          end in
        match setupDevices config fsys finder r 0 (Devices config)
                {| su_seenOutputDirs := ∅; su_monitors := ∅;
                   su_log := lines |} with
        | (Some err, s) => (inl err, su_log s)
        | (None, s) =>
            (inr {| monitors := su_monitors s; prog_logger := logger |},
             su_log s)
        end
  end.
End Supervisor.

(** ** Instances used by the examples

    The string operations are the ASCII reference implementations above.
    The digest, the codecs and the filesystem are small stand-ins: the
    examples need an implementation of each interface, and the general
    theorems do not depend on which one. *)

Definition doubleQuote : ascii := ascii_of_nat 34.

(** A text written with single quotes, read with double quotes. *)
Fixpoint dq (s : string) : string :=
  match s with
  | EmptyString => EmptyString
  | String c s' =>
      String (if Ascii.eqb c "'" then doubleQuote else c) (dq s')
  end.

Definition quoteAscii (s : string) : string :=
  String doubleQuote (s +:+ String doubleQuote EmptyString).

Fixpoint insertBy {A : Type} (less : A -> A -> bool) (x : A) (l : list A)
  : list A :=
  match l with
  | [] => [x]
  | y :: l' => if less y x then y :: insertBy less x l' else x :: l
  end.

Definition insertionSort (A : Type) (less : A -> A -> bool) (l : list A)
  : list A :=
  foldr (insertBy less) [] l.

(** A 32-byte checksum, standing in for SHA-256. *)
Definition checksum32 (msg : string) : list N :=
  map (fun i : nat =>
         fold_left (fun acc c => ((acc * 31 + N_of_ascii c + 7) mod 256)%N)
           (list_ascii_of_string msg) (N.of_nat i))
      (seq 0 32).

Definition asciiLib : GoLib :=
  {| strings_EqualFold := asciiEqualFold;
     strings_TrimSpace := asciiTrimSpace;
     strings_ToLower := asciiToLower;
     fmt_Quote := quoteAscii;
     filepath_Join := fun a b => a +:+ "/" +:+ b;
     filepath_Dir := dropLastSegment;
     filepath_Base := lastSegment EmptyString;
     filepath_Clean := fun p => p;
     sha256_Sum256 := checksum32;
     sort_Slice := insertionSort |}.

Definition utcTime : GoTime :=
  {| time_FormatRFC3339 := fun t =>
       zeroPad 4 (t_Year t) +:+ "-" +:+ zeroPad 2 (t_Month t) +:+ "-" +:+
       zeroPad 2 (t_Day t) +:+ "T" +:+ zeroPad 2 (t_Hour t) +:+ ":" +:+
       zeroPad 2 (t_Minute t) +:+ ":" +:+ zeroPad 2 (t_Second t) +:+ "Z" |}.

(** An in-memory filesystem: files with their contents and mode, and
    directories. *)
Record MemFs : Type := {
  mem_files : gmap string (string * Z);
  mem_dirs : gset string;
}.

(** A path matches [pre*suf] when it starts with [pre], ends with [suf] and
    has no separator in between. *)
Definition matchStar (pre suf p : string) : bool :=
  String.prefix pre p
  && String.prefix (String.rev suf) (String.rev p)
  && (String.length pre + String.length suf <=? String.length p)%nat
  && negb (existsb (Ascii.eqb "/")
             (list_ascii_of_string
                (substring (String.length pre)
                   (String.length p - String.length pre - String.length suf)
                   p))).

Fixpoint splitStar (acc s : string) : string * string :=
  match s with
  | EmptyString => (String.rev acc, EmptyString)
  | String "*" s' => (String.rev acc, s')
  | String c s' => splitStar (String c acc) s'
  end.

Definition memFs : AferoFs MemFs :=
  {| afero_Glob := fun fs pattern =>
       let '(pre, suf) := splitStar EmptyString pattern in
       inr (insertionSort string String.ltb
              (List.filter (matchStar pre suf) (elements (mem_dirs fs))));
     afero_ReadFile := fun fs p =>
       match mem_files fs !! p with
       | Some (data, _) => inr data
       | None => inl (errExternal "file does not exist")
       end;
     fs_Stat := fun fs p =>
       match mem_files fs !! p with
       | Some (_, mode) => inr mode
       | None =>
           if bool_decide (p ∈ mem_dirs fs) then inr (Z.lor (2 ^ 31) 511)
           else inl (errExternal "file does not exist")
       end;
     fs_MkdirAll := fun fs p perm =>
       match mem_files fs !! p with
       | Some _ => (Some (errExternal "not a directory"), fs)
       | None =>
           (None, {| mem_files := mem_files fs;
                     mem_dirs := {[ p ]} ∪ mem_dirs fs |})
       end;
     afero_WriteFile := fun fs p data perm =>
       if bool_decide (p ∈ mem_dirs fs) then
         (Some (errExternal "is a directory"), fs)
       else
         let mode := match mem_files fs !! p with
                     | Some (_, mode) => mode
                     | None => perm
                     end in
         (None, {| mem_files := <[p := (data, mode)]> (mem_files fs);
                   mem_dirs := mem_dirs fs |}) |}.

Definition emptyFs : MemFs := {| mem_files := ∅; mem_dirs := ∅ |}.

(** Documents of the examples and what [json.Unmarshal] makes of them. *)
Definition noStatus : StatusDescriptor :=
  {| sd_Status := None; sd_PrdFail := None; sd_Disabled := None;
     sd_Swap := None; sd_Temperature := None; sd_Voltage := None;
     sd_Current := None |}.

Definition rootOf (els : list Element) : Root :=
  {| Join := {| ElementList := els |} |}.

Definition enclosureElement (status : Z) (meaning : string) : Element :=
  {| el_ElementType :=
       Some {| et_I := Some 15; et_Meaning := Some "Enclosure" |};
     el_ElementNumber := Some 0;
     el_StatusDescriptor :=
       Some {| sd_Status :=
                 Some {| cm_I := Some status; cm_Meaning := Some meaning |};
               sd_PrdFail := None; sd_Disabled := None; sd_Swap := None;
               sd_Temperature := None; sd_Voltage := None;
               sd_Current := None |} |}.

Definition docOK : string :=
  dq "{'join_of_diagnostic_pages':{'element_list':[{'element_type':{'i':15,'meaning':'Enclosure'},'element_number':0,'status_descriptor':{'status':{'i':1,'meaning':'OK'}}}]}}".

Definition docCritical : string :=
  dq "{'join_of_diagnostic_pages':{'element_list':[{'element_type':{'i':15,'meaning':'Enclosure'},'element_number':0,'status_descriptor':{'status':{'i':2,'meaning':'Critical'}}}]}}".

(** An element without an [element_type] object. *)
Definition docNoTypeObject : string :=
  dq "{'join_of_diagnostic_pages':{'element_list':[{'element_number':5}]}}".

Definition elementNoTypeObject : Element :=
  {| el_ElementType := None; el_ElementNumber := Some 5;
     el_StatusDescriptor := None |}.

(** A [temperature] object without [meaning]. *)
Definition docTemperatureNoMeaning : string :=
  dq "{'join_of_diagnostic_pages':{'element_list':[{'element_type':{'i':4},'element_number':0,'status_descriptor':{'temperature':{'i':1}}}]}}".

Definition elementTemperatureNoMeaning : Element :=
  {| el_ElementType := Some {| et_I := Some 4; et_Meaning := None |};
     el_ElementNumber := Some 0;
     el_StatusDescriptor :=
       Some {| sd_Status := None; sd_PrdFail := None; sd_Disabled := None;
               sd_Swap := None;
               sd_Temperature := Some {| cm_I := Some 1; cm_Meaning := None |};
               sd_Voltage := None; sd_Current := None |} |}.

Definition fixtureDocuments : list (string * Root) :=
  [ (docOK, rootOf [enclosureElement 1 "OK"]);
    (docCritical, rootOf [enclosureElement 2 "Critical"]);
    (docNoTypeObject, rootOf [elementNoTypeObject]);
    (docTemperatureNoMeaning, rootOf [elementTemperatureNoMeaning]) ].

Definition fixtureCodec : GoCodec :=
  {| json_Unmarshal := fun b =>
       match List.find (fun d => String.eqb (fst d) b) fixtureDocuments with
       | Some (_, root) => inr root
       | None => inl (errExternal "invalid character")
       end;
     json_MarshalIndent_report := fun r =>
       inr ("report " +:+ cr_DetectedAt r +:+ " " +:+
            strings_Join (map ch_ID (cr_Changes r)) ",");
     json_MarshalIndent_snapshot := fun s =>
       inr ("snapshot " +:+ ds_CapturedAt s +:+ " " +:+ ds_Raw s);
     json_MarshalIndent_results := fun m =>
       inr (strings_Join (map fst (map_to_list m)) ",") |}.

(** Results of the scenarios of the specification. *)
Definition resultOK : Result :=
  {| r_Type := 15; r_TypeNum := 0; r_TypeDesc := Some "Enclosure";
     r_Status := Some 1; r_StatusDesc := Some "OK"; r_PrdFail := None;
     r_Disabled := None; r_Swap := None; r_Temperature := Some "25 C";
     r_Voltage := None; r_Amperage := None |}.

Definition resultWarmer : Result :=
  {| r_Type := 15; r_TypeNum := 0; r_TypeDesc := Some "Enclosure";
     r_Status := Some 1; r_StatusDesc := Some "OK"; r_PrdFail := None;
     r_Disabled := None; r_Swap := None; r_Temperature := Some "30 C";
     r_Voltage := None; r_Amperage := None |}.

Definition resultCritical : Result :=
  {| r_Type := 15; r_TypeNum := 0; r_TypeDesc := Some "Enclosure";
     r_Status := Some 2; r_StatusDesc := Some "Critical"; r_PrdFail := None;
     r_Disabled := None; r_Swap := None; r_Temperature := Some "25 C";
     r_Voltage := None; r_Amperage := None |}.

(** ** Vocabulary of the specification *)

(** Two optional values match nil-safely when both are absent, or both are
    present with matching values. *)
Definition nilSafe {A : Type} (R : A -> A -> Prop) (a b : option A) : Prop :=
  match a, b with
  | None, None => True
  | Some x, Some y => R x y
  | _, _ => False
  end.

(** The fields of a [Result] that are not compared: two results that
    differ at most in the identifiers and metrics. *)
Definition sameFaultFields (a b : Result) : Prop :=
  r_Status a = r_Status b /\ r_StatusDesc a = r_StatusDesc b /\
  r_PrdFail a = r_PrdFail b /\ r_Disabled a = r_Disabled b /\
  r_Swap a = r_Swap b.

(** The number of changes of a diff that carry the id [k]. *)
Definition changesWithID (k : string) (l : list Change) : nat :=
  length (filter (fun ch => ch_ID ch = k) l).

(** An element lacks an identifier when its [element_type] object has no
    [i], or when it has no [element_number]. *)
Definition lacksTypeI (el : Element) : Prop :=
  exists et, el_ElementType el = Some et /\ et_I et = None.

Definition lacksNumber (el : Element) : Prop :=
  el_ElementNumber el = None.

(** A status descriptor carries a metric object without its reading. *)
Definition lacksReading (sd : StatusDescriptor) : Prop :=
  (exists t, sd_Temperature sd = Some t /\ cm_Meaning t = None) \/
  (exists v, sd_Voltage sd = Some v /\ vo_ValueInVolts v = None) \/
  (exists c, sd_Current sd = Some c /\ cu_ValueInAmps c = None).

(** The three ways a run of [withRetries] with a non-nil operation ends,
    in terms of the results of the calls it made: the last call succeeded
    and every earlier one failed; or every call failed, fewer than
    [attempts] were made and a context error is returned; or every call
    failed, [attempts] were made (none when [attempts <= 0]) and the error
    of the last call is returned. In each case the count returned is the
    number of calls. *)
Definition retryEnds {W : Type} (attempts : Z) (r : Retried W) : Prop :=
  rt_attempt r = Z.of_nat (length (rt_calls r)) /\
  (length (rt_calls r) <= Z.to_nat attempts)%nat /\
  ((exists errs, rt_calls r = (Some <$> errs) ++ [None] /\ rt_err r = None) \/
   (exists errs cerr,
      rt_calls r = Some <$> errs /\
      (length errs < Z.to_nat attempts)%nat /\
      rt_err r = Some (errWrap "context error" cerr)) \/
   (exists errs,
      rt_calls r = Some <$> errs /\
      length errs = Z.to_nat attempts /\
      rt_err r = last errs)).

(** An operation over a counter of calls that fails while the counter is
    below [k], and a context that is never cancelled. *)
Definition failsBefore (k : nat) (w : nat) : option error * nat :=
  (if (w <? k)%nat then Some (errExternal "busy") else None, S w).

Definition background : Context nat :=
  {| ctx_Err := fun _ => None; ctx_DoneOrAfter := fun _ w => (None, w) |}.


(** The SAS address observed on the device directory [d]: the content of
    its [sas_address] file, trimmed and lowercased, when that is readable
    and not empty. *)
Definition addressOf `{GoLib} {F : Type} `{AferoFs F} (fsys : F) (d : string)
  : option string :=
  match afero_ReadFile fsys (filepath_Join d "sas_address") with
  | inl _ => None
  | inr sasb =>
      let sas := strings_ToLower (strings_TrimSpace sasb) in
      if String.eqb sas "" then None else Some sas
  end.

(** The device directories, among [matches], on which [a] was observed. *)
Definition dirsWith `{GoLib} {F : Type} `{AferoFs F} (fsys : F) (a : string)
    (matches : list string) : list string :=
  filter (fun d => addressOf fsys d = Some a) matches.

(** The device node of a device directory: ["/dev/"] and its [sgN]
    component. *)
Definition nodeOf `{GoLib} (d : string) : string :=
  "/dev/" +:+ filepath_Base (filepath_Dir d).

(** Three generic SCSI devices, two of which expose the same address. *)
Definition sysFs : MemFs :=
  {| mem_files :=
       {[ "/sys/class/scsi_generic/sg0/device/sas_address" := ("0xABC", 292);
          "/sys/class/scsi_generic/sg1/device/sas_address" := (" 0xabc ", 292);
          "/sys/class/scsi_generic/sg2/device/sas_address" := ("0x123", 292) ]};
     mem_dirs :=
       {[ "/sys/class/scsi_generic/sg0/device";
          "/sys/class/scsi_generic/sg1/device";
          "/sys/class/scsi_generic/sg2/device" ]} |}.

(** The alert messages logged in a trace, and those handed to the
    notifier, in order. *)
Definition alertOf (e : Event) : option string :=
  match e with EvLog (LogAlert msg) => Some msg | _ => None end.

Definition notifiedOf (e : Event) : option string :=
  match e with EvNotify _ (MsgAlert msg) _ => Some msg | _ => None end.

Definition alertsOf (evs : list Event) : list string := omap alertOf evs.

Definition notifiedAlerts (evs : list Event) : list string :=
  omap notifiedOf evs.

(** No element of the list equals the one before it. *)
Fixpoint noRepeat (l : list string) : Prop :=
  match l with
  | a :: (b :: _) as rest => a <> b /\ noRepeat rest
  | _ => True
  end.

(** The condition under which [poll] calls [handleAlert]. *)
Definition dispatches (lastHash hash : string) : bool :=
  String.eqb lastHash "" || negb (String.eqb lastHash hash).

(** What ties the state of a monitor to its trace: [lastAlertHash] is the
    hash of the last alert logged (empty when there is none), every alert
    was handed to the notifier when there is one, and no alert repeats the
    message of the alert before it. *)
Definition alertInv `{GoLib} {F : Type} (d : DeviceMonitor) (w : World F)
  : Prop :=
  noRepeat (alertsOf (w_events w)) /\
  notifiedAlerts (w_events w) =
    match dm_notifier d with
    | Some _ => alertsOf (w_events w)
    | None => []
    end /\
  lastAlertHash (w_state w) =
    match last (alertsOf (w_events w)) with
    | Some msg => alertHash msg
    | None => ""
    end.

(** The part of [poll] between the parse and the comparison of the hash,
    on the path with previous results and changes: the snapshot files and
    the verbose lines. *)
Definition pollPrelude `{GoLib} `{GoCodec} `{GoTime} {F : Type} `{AferoFs F}
    (d : DeviceMonitor) (env : PollEnv) (ret : string)
    (currentResults : gmap string Result) (verbose : bool) (changes : nat)
  : M F unit :=
  match OutputDir (dm_cfg d) with
  | Some _ => writeCurrentData d (pe_capturedAt env) ret currentResults
  | None => retM tt
  end ;;
  whenM verbose (logM (LogBatchElements (size currentResults))) ;;
  whenM verbose (logM (LogChangesDetected changes)).

(** The world with [previousResults] replaced, as the deferred function of
    [poll] leaves it. *)
Definition withPrevious {F : Type} (m : gmap string Result) (w : World F)
  : World F :=
  {| w_state := setPreviousResults (Some m) (w_state w);
     w_fs := w_fs w; w_events := w_events w |}.

(** A computation is silent up to [R] when it relates the state before to
    the state after by [R] and appends only events that are neither an
    alert line nor the notification of an alert. *)
Definition Silent {F A : Type}
    (R : deviceMonitorState -> deviceMonitorState -> Prop) (m : M F A) : Prop :=
  forall w,
    R (w_state w) (w_state (snd (m w))) /\
    exists evs, w_events (snd (m w)) = w_events w ++ evs /\
                alertsOf evs = [] /\ notifiedAlerts evs = [].

(** The states have the same [lastAlertHash]. *)
Definition sameHash (s s' : deviceMonitorState) : Prop :=
  lastAlertHash s' = lastAlertHash s.

(** A monitor of [/dev/sg0] with a notifier and an output directory, after
    a first poll that found the enclosure OK (scenario S1), and what the
    next poll observes when the status has become Critical (scenario
    S2). *)
Definition monitorSg0 : DeviceMonitor :=
  {| dm_device := {| dev_Type := DeviceTypeDevice; dev_Path := "/dev/sg0";
                     dev_Address := ""; dev_Description := "JBOD" |};
     dm_runner := SuppliedRunner;
     dm_notifier :=
       Some {| sn_script := "/usr/local/bin/notify";
               sn_runner := SuppliedRunner;
               sn_logger := {| lg_prefix := "/dev/sg0:: ";
                               lg_timestamps := true |};
               sn_cfg := DefaultScriptNotifierConfig |};
     dm_logger := {| lg_prefix := "/dev/sg0:: "; lg_timestamps := true |};
     dm_cfg :=
       {| PollInterval := ptr (90 * Second);
          PollAttempts := ptr 3;
          PollAttemptTimeout := ptr (15 * Second);
          PollAttemptInterval := ptr (15 * Second);
          PollBackoffAfter := ptr 3;
          PollBackoffTime := ptr (3 * Minute);
          PollBackoffNotify := ptr true;
          PollBackoffStopMonitor := ptr false;
          OutputDir := ptr "/output";
          Verbose := ptr false |} |}.

Definition parsedOK : Result :=
  {| r_Type := 15; r_TypeNum := 0; r_TypeDesc := Some "Enclosure";
     r_Status := Some 1; r_StatusDesc := Some "OK"; r_PrdFail := None;
     r_Disabled := None; r_Swap := None; r_Temperature := None;
     r_Voltage := None; r_Amperage := None |}.

Definition parsedCritical : Result :=
  {| r_Type := 15; r_TypeNum := 0; r_TypeDesc := Some "Enclosure";
     r_Status := Some 2; r_StatusDesc := Some "Critical"; r_PrdFail := None;
     r_Disabled := None; r_Swap := None; r_Temperature := None;
     r_Voltage := None; r_Amperage := None |}.

Definition worldAfterOK : World MemFs :=
  {| w_state := setPreviousResults (Some {[ "15#0" := parsedOK ]})
                  newDeviceMonitorState;
     w_fs := emptyFs; w_events := [] |}.

Definition noon : Time :=
  {| t_Year := 2025; t_Month := 1; t_Day := 1; t_Hour := 12; t_Minute := 0;
     t_Second := 0; t_Nanosecond := 0 |}.

Definition noonAndHalf : Time :=
  {| t_Year := 2025; t_Month := 1; t_Day := 1; t_Hour := 12; t_Minute := 0;
     t_Second := 0; t_Nanosecond := 500000000 |}.

Definition envOK : PollEnv :=
  {| pe_fetch := inr docOK; pe_capturedAt := noon; pe_detectedAt := noon;
     pe_reportAt := noon |}.

Definition envCritical : PollEnv :=
  {| pe_fetch := inr docCritical; pe_capturedAt := noon;
     pe_detectedAt := noon; pe_reportAt := noon |}.

Definition ctxCancelled : FailEnv :=
  {| fe_ctxDone := true; fe_wake := WakeTimer |}.

Definition ctxLive : FailEnv :=
  {| fe_ctxDone := false; fe_wake := WakeTimer |}.

(** Two times agree to the second. *)
Definition sameSecond (t1 t2 : Time) : Prop :=
  t_Year t1 = t_Year t2 /\ t_Month t1 = t_Month t2 /\ t_Day t1 = t_Day t2 /\
  t_Hour t1 = t_Hour t2 /\ t_Minute t1 = t_Minute t2 /\
  t_Second t1 = t_Second t2.

(** The file a change report written at [now] goes to. *)
Definition reportPath `{GoLib} (dir : string) (now : Time) : string :=
  filepath_Join dir ("change-" +:+ formatStamp now +:+ ".json").

(** What the specification asks of two reports that resolve to the same
    file: once the first is written, the second call returns an error and
    the content of the file is unchanged. *)
Definition refusesOverwrite `{GoLib} `{GoCodec} {F : Type} `{AferoFs F}
    (d : DeviceMonitor) (dir : string) (t1 t2 : Time)
    (r1 r2 : ChangeReport) (w : World F) : Prop :=
  let first := writeChangeReport d t1 r1 w in
  let second := writeChangeReport d t2 r2 (snd first) in
  reportPath dir t1 = reportPath dir t2 ->
  fst first = Some None ->
  (exists e, fst second = Some (Some e)) /\
  afero_ReadFile (w_fs (snd second)) (reportPath dir t2) =
  afero_ReadFile (w_fs (snd first)) (reportPath dir t1).

(** A successful [afero.WriteFile] leaves the data as the content of the
    file: it opens with [O_WRONLY|O_CREATE|O_TRUNC]. *)
Definition writeTruncates (F : Type) `{AferoFs F} : Prop :=
  forall (fs fs' : F) p data perm,
    afero_WriteFile fs p data perm = (None, fs') ->
    afero_ReadFile fs' p = inr data.

Definition reportFirst : ChangeReport :=
  {| cr_Device := dm_device monitorSg0;
     cr_DetectedAt := "2025-01-01T12:00:00Z";
     cr_Changes := [ {| ch_ID := "15#0"; ch_Type := 15; ch_TypeNum := 0;
                        ch_TypeDesc := None; ch_Before := None;
                        ch_After := None |} ] |}.

Definition reportSecond : ChangeReport :=
  {| cr_Device := dm_device monitorSg0;
     cr_DetectedAt := "2025-01-01T12:00:00Z";
     cr_Changes := [ {| ch_ID := "23#1"; ch_Type := 23; ch_TypeNum := 1;
                        ch_TypeDesc := None; ch_Before := None;
                        ch_After := None |} ] |}.

Definition freshWorld : World MemFs :=
  {| w_state := newDeviceMonitorState; w_fs := emptyFs; w_events := [] |}.

(** Configurations of the examples: an entry that is disabled and names
    neither device nor address, alone and next to an enabled device. *)
Definition entrySpare : DeviceYAML :=
  {| dy_Device := ""; dy_Address := ""; dy_Description := "spare";
     dy_Type := 0; dy_Enabled := false; dy_MonitorConfig := None;
     dy_ScriptNotifier := None |}.

Definition entryRetired : DeviceYAML :=
  {| dy_Device := "/dev/sg0"; dy_Address := ""; dy_Description := "retired";
     dy_Type := 0; dy_Enabled := false;
     dy_MonitorConfig := Some DefaultDeviceMonitorConfig;
     dy_ScriptNotifier :=
       Some {| sy_Script := "/nonexistent"; sy_Config := None |} |}.

Definition entrySg0 : DeviceYAML :=
  {| dy_Device := "/dev/sg0"; dy_Address := ""; dy_Description := "JBOD";
     dy_Type := 0; dy_Enabled := true; dy_MonitorConfig := None;
     dy_ScriptNotifier := None |}.

Definition yamlSpare : string :=
  "devices: [{device: /dev/sg0, description: JBOD, enabled: true}, {description: spare}]".

Definition yamlRetired : string :=
  "devices: [{device: /dev/sg0, description: JBOD, enabled: true}, {device: /dev/sg0, description: retired, enabled: false, config: {poll_attempts: 3}, script_notifier: {script: /nonexistent}}]".

Definition yamlOnlySpare : string := "devices: [{description: spare}]".

Definition fixtureConfigs : list (string * ConfigYAML) :=
  [ (yamlSpare,
     {| DisableTimestamps := false; Devices := [entrySg0; entrySpare] |});
    (yamlRetired,
     {| DisableTimestamps := false; Devices := [entrySg0; entryRetired] |});
    (yamlOnlySpare,
     {| DisableTimestamps := false; Devices := [entrySpare] |}) ].

Definition fixtureYAML : GoYAML :=
  {| yaml_Decode := fun y =>
       match List.find (fun c => String.eqb (fst c) y) fixtureConfigs with
       | Some (_, config) => inr config
       | None => inl (errExternal "yaml: unmarshal errors")
       end |}.

(** A filesystem with the device node [/dev/sg0]. *)
Definition devFs : MemFs :=
  {| mem_files := {[ "/dev/sg0" := ("", 432) ]}; mem_dirs := {[ "/dev" ]} |}.

(** A resolver that knows no address. *)
Definition noAddresses : DeviceLookuper :=
  {| lk_FindAddress := fun _ => ("", false);
     lk_FindDevice := fun _ => ("", false) |}.

(** The results that the loop of [parseSES] inserts for a list of
    elements, in order: those of the elements it does not skip. *)
Definition keptResults `{GoLib} (els : list Element) : list Result :=
  omap (fun el => match parseElement el with
                  | Next r => Some r
                  | _ => None
                  end) els.

(** Every entry of a result map is stored under the key of its value. *)
Definition wellKeyed (m : gmap string Result) : Prop :=
  forall k r, m !! k = Some r -> k = keyFor r.

(** The character does not occur in the string. *)
Fixpoint lacksChar (c : ascii) (s : string) : Prop :=
  match s with
  | EmptyString => True
  | String a s' => a <> c /\ lacksChar c s'
  end.

(** The field [f] of an optional object: absent when the object is. *)
Definition field {A B : Type} (o : option A) (f : A -> option B) : option B :=
  match o with
  | Some a => f a
  | None => None
  end.

(** The change [ch'] is the change [ch] read in the other direction. *)
Definition swapped (ch ch' : Change) : Prop :=
  ch_ID ch' = ch_ID ch /\ ch_Before ch' = ch_After ch /\
  ch_After ch' = ch_Before ch.

(** The change of scenario S2: the enclosure goes from OK to Critical. *)
Definition changeS2 : Change :=
  {| ch_ID := "15#0"; ch_Type := 15; ch_TypeNum := 0;
     ch_TypeDesc := Some "Enclosure";
     ch_Before := Some parsedOK; ch_After := Some parsedCritical |}.

(** [errors.Is(e, target)] for a sentinel [target]: [e] is the target or
    wraps it. *)
Fixpoint errorsIs (e target : error) : Prop :=
  e = target \/
  match e with
  | errWrap _ e' => errorsIs e' target
  | _ => False
  end.

(** No field that the monitor dereferences is nil ([OutputDir] is tested
    before it is used). *)
Definition completeConfig (c : DeviceMonitorConfig) : Prop :=
  is_Some (PollInterval c) /\ is_Some (PollAttempts c) /\
  is_Some (PollAttemptTimeout c) /\ is_Some (PollAttemptInterval c) /\
  is_Some (PollBackoffAfter c) /\ is_Some (PollBackoffTime c) /\
  is_Some (PollBackoffNotify c) /\ is_Some (PollBackoffStopMonitor c) /\
  is_Some (Verbose c).

(** A value set by the user is the value of the merged configuration. *)
Definition kept {A : Type} (user merged : option A) : Prop :=
  forall v, user = Some v -> merged = Some v.

(** The merged configuration has the values that the user has set (the
    output directory apart, which is cleaned). *)
Definition keepsUserValues (u m : DeviceMonitorConfig) : Prop :=
  kept (PollInterval u) (PollInterval m) /\
  kept (PollAttempts u) (PollAttempts m) /\
  kept (PollAttemptTimeout u) (PollAttemptTimeout m) /\
  kept (PollAttemptInterval u) (PollAttemptInterval m) /\
  kept (PollBackoffAfter u) (PollBackoffAfter m) /\
  kept (PollBackoffTime u) (PollBackoffTime m) /\
  kept (PollBackoffNotify u) (PollBackoffNotify m) /\
  kept (PollBackoffStopMonitor u) (PollBackoffStopMonitor m) /\
  kept (Verbose u) (Verbose m).

(** The computation returns, from every world, a value for which [Q]
    holds: it does not panic. *)
Definition yields {F A : Type} (m : M F A) (Q : A -> Prop) : Prop :=
  forall w, exists a, fst (m w) = Some a /\ Q a.

Definition returns {F A : Type} (m : M F A) : Prop :=
  yields m (fun _ => True).

(** The computation keeps a property of the state and of the events. *)
Definition Keeps {F A : Type}
    (P : deviceMonitorState -> list Event -> Prop) (m : M F A) : Prop :=
  forall w, P (w_state w) (w_events w) ->
            P (w_state (snd (m w))) (w_events (snd (m w))).

(** The part of the state that steers the loop of a monitor: the count
    of failures, and the state of [once] and of the two channels. *)
Definition control (s : deviceMonitorState) : Z * bool * bool * bool :=
  (pollFailures s, onceDone s, stopClosed s, doneClosed s).

(** How often the line of [Stop] has been logged. *)
Fixpoint shutdowns (evs : list Event) : nat :=
  match evs with
  | [] => 0
  | EvLog LogShuttingDown :: evs' => S (shutdowns evs')
  | _ :: evs' => shutdowns evs'
  end.

(** [once] has run exactly when [stop] is closed, [done] is closed only
    after [stop], and the line of [Stop] has been logged once if [stop]
    is closed and never otherwise. *)
Definition shutdownInv (s : deviceMonitorState) (evs : list Event) : Prop :=
  onceDone s = stopClosed s /\
  (doneClosed s = true -> stopClosed s = true) /\
  shutdowns evs = if stopClosed s then 1%nat else 0%nat.

(** [n] polls in a row that fail with [err]: the calls of [pollFailure]
    that they lead to. *)
Fixpoint failures {F : Type}
    (n : nat) (d : DeviceMonitor) (env : FailEnv) (err : error) : M F unit :=
  match n with
  | O => retM tt
  | S n' => pollFailure d env err ;; failures n' d env err
  end.

(** The lines logged by failures number [from+1] to [from+n] below the
    threshold [after]. *)
Fixpoint pollErrorLines (n : nat) (from after : Z) (err : error)
  : list Event :=
  match n with
  | O => []
  | S n' => EvLog (LogPollError (from + 1) after err)
            :: pollErrorLines n' (from + 1) after err
  end.



(** The notifications of a back-off: one, when there is a notifier and
    [PollBackoffNotify] is set. *)
Definition backoffNotes (d : DeviceMonitor) (notify : bool) (msg : Message)
  : list Event :=
  match dm_notifier d with
  | Some _ => if notify then [EvNotify (dm_device d) msg None] else []
  | None => []
  end.

(** The entry [c'] is the entry [c] but for its device path and its
    address. *)
Definition sameEntry (c c' : DeviceYAML) : Prop :=
  dy_Description c' = dy_Description c /\ dy_Type c' = dy_Type c /\
  dy_Enabled c' = dy_Enabled c /\ dy_MonitorConfig c' = dy_MonitorConfig c /\
  dy_ScriptNotifier c' = dy_ScriptNotifier c.

(** Every monitor is stored under the path of its device, which is not
    empty, and has a complete configuration. *)
Definition keyedByPath (ms : gmap string DeviceMonitor) : Prop :=
  forall k m, ms !! k = Some m ->
              dev_Path (dm_device m) = k /\ k <> "" /\
              completeConfig (dm_cfg m).

(** The entries that are enabled. *)
Definition enabledEntries (devs : list DeviceYAML) : list DeviceYAML :=
  List.filter dy_Enabled devs.

(** The program that [NewProgram] makes of the configuration with the
    device [/dev/sg0] and a disabled entry. *)
Definition programSg0 : Program :=
  {| monitors :=
       {[ "/dev/sg0" :=
            {| dm_device := dm_device monitorSg0; dm_runner := SuppliedRunner;
               dm_notifier := None; dm_logger := dm_logger monitorSg0;
               dm_cfg := DefaultDeviceMonitorConfig |} ]};
     prog_logger := {| lg_prefix := ""; lg_timestamps := true |} |}.

(** No change of the list comes before one that is less than it. *)
Fixpoint ordered (l : list Change) : Prop :=
  match l with
  | [] => True
  | a :: l' => Forall (fun b => changeLess b a = false) l' /\ ordered l'
  end.

(** What [sort.Slice] promises for the order of [changesAsText]: the
    slice is rearranged so that it is ordered. *)
Definition sortsChanges `{GoLib} : Prop :=
  forall cs, sortChanges cs ≡ₚ cs /\ ordered (sortChanges cs).

(** ** Command runner ([exec.go]) and the fetch of a poll ([monitor.go]) *)

(** [RunCommandConfig] is the configuration for a [RetryCommandRunner]. *)
Record RunCommandConfig : Type := {
  rc_Description : string;
  rc_Command : string;
  rc_Args : list string;
  rc_Attempts : Z;
  rc_AttemptTimeout : Z;
  rc_AttemptInterval : Z;
  rc_ExpectJSON : bool;
  rc_PrintErrors : bool;
}.

(** [json.Valid], and [json.Marshal] of the change report handed to a
    notifier. *)
Class GoJSON : Type := {
  json_Valid : string -> bool;
  json_Marshal_report : ChangeReport -> error + string;
}.

(** The host on which commands run: [cmd_Run h command args timeout] is
    [exec.CommandContext(runCtx, command, args...).Run()] under a context
    with that timeout; it yields the captured standard output and standard
    error, the error, and the host afterwards. *)
Class GoExec (H : Type) : Type := {
  cmd_Run : H -> string -> list string -> Z
            -> (string * string * option error) * H;
}.

(** The lines that the retry call-backs log. *)
Inductive RunLine : Type :=
  (* "%s: [%d/%d] execution failure: %v: stdout=[%s] stderr=[%s]" *)
  | RunFailure (description : string) (attempt attempts : Z) (err : error)
               (stdout stderr : string)
  (* "[%d/%d] %v" *)
  | ReadFailure (attempt attempts : Z) (err : error).

(** What a retried operation works on: the host, the variables that its
    closures capture, and the lines logged. *)
Record Frame (H V : Type) : Type := {
  fr_host : H;
  fr_vars : V;
  fr_log : list RunLine;
}.
Arguments fr_host {H V} _.
Arguments fr_vars {H V} _.
Arguments fr_log {H V} _.

(** A context of the host, seen from a retried operation: it touches
    neither the captured variables nor the log. *)
Definition hostContext {H V : Type} (ctx : Context H) : Context (Frame H V) :=
  {| ctx_Err := fun w => ctx_Err ctx (fr_host w);
     ctx_DoneOrAfter := fun interval w =>
       let '(e, h) := ctx_DoneOrAfter ctx interval (fr_host w) in
       (e, {| fr_host := h; fr_vars := fr_vars w; fr_log := fr_log w |}) |}.

(** "[%d/%d] execution failure: %w: stdout=[%s] stderr=[%s]" around the
    wrapped error. *)
Definition executionFailure (attempt attempts : Z) (stdout stderr : string)
  : string :=
  "[" +:+ strconv_Itoa attempt +:+ "/" +:+ strconv_Itoa attempts +:+
  "] execution failure: stdout=[" +:+ stdout +:+ "] stderr=[" +:+ stderr +:+
  "]".

Section Runner.
Context `{GoJSON} {Hst : Type} `{GoExec Hst}.

(** The function retried by [Run]: one execution of the command. *)
Definition runAttempt (cfg : RunCommandConfig)
    (w : Frame Hst (string * string))
  : option error * Frame Hst (string * string) :=
  let '((stdout, stderr, err), h) :=
    cmd_Run (fr_host w) (rc_Command cfg) (rc_Args cfg)
      (rc_AttemptTimeout cfg) in
  let err :=
    match err with
    | None =>
        if rc_ExpectJSON cfg && negb (json_Valid stdout)
        then Some errInvalidJSON else None
    | Some _ => err
    end in
  (err, {| fr_host := h; fr_vars := (stdout, stderr); fr_log := fr_log w |}).

(** The call-back of [Run] on a failed attempt. *)
Definition runAttemptErr (cfg : RunCommandConfig) (attempt : Z) (err : error)
    (w : Frame Hst (string * string)) : Frame Hst (string * string) :=
  if rc_PrintErrors cfg then
    {| fr_host := fr_host w; fr_vars := fr_vars w;
       fr_log := fr_log w ++
         [RunFailure (rc_Description cfg) attempt (rc_Attempts cfg) err
            (fst (fr_vars w)) (snd (fr_vars w))] |}
  else w.

(** [Run] of [RetryCommandRunner] executes a command according to a
    [RunCommandConfig]: what it returns, the host afterwards and the
    lines logged. *)
Definition Run (ctx : Context Hst) (cfg : RunCommandConfig) (host : Hst)
  : (string * string * option error) * Hst * list RunLine :=
  let r := withRetries (hostContext ctx) (Some (runAttempt cfg))
             (Some (runAttemptErr cfg)) (rc_Attempts cfg)
             (rc_AttemptInterval cfg)
             {| fr_host := host; fr_vars := ("", ""); fr_log := [] |} in
  let w := rt_world r in
  let '(stdout, stderr) := fr_vars w in
  match rt_err r with
  | Some err =>
      ((stdout, stderr,
        Some (errWrap (executionFailure (rt_attempt r) (rc_Attempts cfg)
                         stdout stderr) err)),
       fr_host w, fr_log w)
  | None => ((stdout, stderr, None), fr_host w, fr_log w)
  end.
End Runner.

Section Fetch.
Context `{GoLib} `{GoJSON} {Hst : Type} `{AferoFs Hst} `{GoExec Hst}.

(** The method [Run] of a runner that the caller has supplied. *)
Variable supplied_Run :
  Context Hst -> RunCommandConfig -> Hst
  -> (string * string * option error) * Hst * list RunLine.

(** [d.runner.Run]: the method of the interface [CommandRunner]. *)
Definition runner_Run (r : CommandRunner) :=
  match r with
  | SuppliedRunner => supplied_Run
  | RetryCommandRunner _ => Run
  end.

(** The function retried by [fetchFromDevice] for a file: read it and
    check that it is JSON. *)
Definition readAttempt (d : DeviceMonitor) (w : Frame Hst string)
  : option error * Frame Hst string :=
  match afero_ReadFile (fr_host w) (dev_Path (dm_device d)) with
  | inl err =>
      (Some (errWrap "failure reading from file" err),
       {| fr_host := fr_host w; fr_vars := ""; fr_log := fr_log w |})
  | inr by_ =>
      let w := {| fr_host := fr_host w; fr_vars := by_;
                  fr_log := fr_log w |} in
      if negb (json_Valid by_) then
        (Some (errWrap "failure parsing from file" errInvalidJSON), w)
      else (None, w)
  end.

(** [fetchFromDevice] tries to fetch the SES information from the
    device: from the file for a device of type file, through [sg_ses]
    otherwise. [None] is a panic. *)
Definition fetchFromDevice (d : DeviceMonitor) (ctx : Context Hst) (host : Hst)
  : option ((error + string) * Hst * list RunLine) :=
  if dev_Type (dm_device d) =? DeviceTypeFile then
    attempts ← PollAttempts (dm_cfg d);
    interval ← PollAttemptInterval (dm_cfg d);
    let r := withRetries (hostContext ctx) (Some (readAttempt d))
               (Some (fun attempt err w =>
                        {| fr_host := fr_host w; fr_vars := fr_vars w;
                           fr_log := fr_log w ++
                             [ReadFailure attempt attempts err] |}))
               attempts interval
               {| fr_host := host; fr_vars := ""; fr_log := [] |} in
    let w := rt_world r in
    match rt_err r with
    | Some err =>
        Some (inl (errWrap ("[" +:+ strconv_Itoa (rt_attempt r) +:+ "/" +:+
                            strconv_Itoa attempts +:+ "]") err),
              fr_host w, fr_log w)
    | None => Some (inr (fr_vars w), fr_host w, fr_log w)
    end
  else
    attempts ← PollAttempts (dm_cfg d);
    timeout ← PollAttemptTimeout (dm_cfg d);
    interval ← PollAttemptInterval (dm_cfg d);
    let '((stdout, _, err), h, lines) :=
      runner_Run (dm_runner d) ctx
        {| rc_Description := fmt_Quote "sg_ses";
           rc_Command := "sg_ses";
           rc_Args := ["--all"; "--json"; dev_Path (dm_device d)];
           rc_Attempts := attempts;
           rc_AttemptTimeout := timeout;
           rc_AttemptInterval := interval;
           rc_ExpectJSON := true;
           rc_PrintErrors := true |} host in
    match err with
    | Some err => Some (inl (errWrap (fmt_Quote "sg_ses") err), h, lines)
    | None => Some (inr stdout, h, lines)
    end.
End Fetch.

Section Notifying.
Context `{GoLib} `{GoJSON} {Hst : Type} `{GoExec Hst}.

Variable supplied_Run :
  Context Hst -> RunCommandConfig -> Hst
  -> (string * string * option error) * Hst * list RunLine.

(** [Notify] executes the script of the notifier through its runner,
    with the device, its address, its description and the message as
    arguments, and the JSON of [extra] when there is one. [None] is a
    panic. *)
Definition Notify (n : ScriptNotifier) (ctx : Context Hst) (device : Device)
    (message : string) (extra : option ChangeReport) (host : Hst)
  : option (option error * Hst * list RunLine) :=
  let args := [dev_Path device; dev_Address device; dev_Description device;
               message] in
  let marshalled : error + list string :=
    match extra with
    | Some report =>
        match json_Marshal_report report with
        | inl err => inl err
        | inr b => inr (args ++ [b])
        end
    | None => inr args
    end in
  match marshalled with
  | inl err =>
      Some (Some (errWrap (fmt_Quote (sn_script n) +:+
                           ": failure marshalling extra to JSON") err),
            host, [])
  | inr args =>
      attempts ← NotifyAttempts (sn_cfg n);
      timeout ← NotifyAttemptTimeout (sn_cfg n);
      interval ← NotifyAttemptInterval (sn_cfg n);
      let '((_, _, err), h, lines) :=
        runner_Run supplied_Run (sn_runner n) ctx
          {| rc_Description := fmt_Quote (sn_script n);
             rc_Command := sn_script n;
             rc_Args := args;
             rc_Attempts := attempts;
             rc_AttemptTimeout := timeout;
             rc_AttemptInterval := interval;
             rc_ExpectJSON := false;
             rc_PrintErrors := true |} host in
      match err with
      | Some err => Some (Some (errWrap (fmt_Quote (sn_script n)) err), h, lines)
      | None => Some (None, h, lines)
      end
  end.
End Notifying.

(** A host for the examples: a filesystem in memory and the outcomes of
    the executions to come, in order. *)
Record ScriptedHost : Type := {
  sh_fs : MemFs;
  sh_runs : list (string * string * option error);
}.

Definition scriptedFs : AferoFs ScriptedHost :=
  {| afero_Glob := fun h => @afero_Glob MemFs memFs (sh_fs h);
     afero_ReadFile := fun h => @afero_ReadFile MemFs memFs (sh_fs h);
     fs_Stat := fun h => @fs_Stat MemFs memFs (sh_fs h);
     fs_MkdirAll := fun h p perm =>
       let '(e, fs) := @fs_MkdirAll MemFs memFs (sh_fs h) p perm in
       (e, {| sh_fs := fs; sh_runs := sh_runs h |});
     afero_WriteFile := fun h p data perm =>
       let '(e, fs) := @afero_WriteFile MemFs memFs (sh_fs h) p data perm in
       (e, {| sh_fs := fs; sh_runs := sh_runs h |}) |}.

Definition scriptedExec : GoExec ScriptedHost :=
  {| cmd_Run := fun h command args timeout =>
       match sh_runs h with
       | [] => (("", "", Some (errExternal "exec: not started")), h)
       | run :: rest => (run, {| sh_fs := sh_fs h; sh_runs := rest |})
       end |}.

(** The documents of the examples are the valid JSON texts. *)
Definition fixtureJSON : GoJSON :=
  {| json_Valid := fun b =>
       existsb (fun d => String.eqb (fst d) b) fixtureDocuments;
     json_Marshal_report := fun r =>
       inr ("report " +:+ cr_DetectedAt r +:+ " " +:+
            strings_Join (map ch_ID (cr_Changes r)) ",") |}.

(** A context of the host that is never cancelled. *)
Definition liveContext {H : Type} : Context H :=
  {| ctx_Err := fun _ => None; ctx_DoneOrAfter := fun _ h => (None, h) |}.

(** A host on which [sg_ses] fails once and then prints the document of
    scenario S1, and the configuration of the command of a poll. *)
Definition hostSg0 : ScriptedHost :=
  {| sh_fs := devFs;
     sh_runs := [("", "sg_ses: device busy", Some (errExternal "exit status 15"));
                 (docOK, "", None)] |}.

Definition sgSesCommand : RunCommandConfig :=
  {| rc_Description := "sg_ses"; rc_Command := "sg_ses";
     rc_Args := ["--all"; "--json"; "/dev/sg0"];
     rc_Attempts := 3; rc_AttemptTimeout := 15 * Second;
     rc_AttemptInterval := 15 * Second;
     rc_ExpectJSON := true; rc_PrintErrors := true |}.

(** A monitor of a file that holds the document of scenario S1, and the
    host with that file. *)
Definition monitorFile : DeviceMonitor :=
  {| dm_device := {| dev_Type := DeviceTypeFile; dev_Path := "/tmp/ses.json";
                     dev_Address := ""; dev_Description := "dump" |};
     dm_runner := SuppliedRunner;
     dm_notifier := None;
     dm_logger := {| lg_prefix := "/tmp/ses.json:: "; lg_timestamps := true |};
     dm_cfg := DefaultDeviceMonitorConfig |}.

Definition hostFile : ScriptedHost :=
  {| sh_fs := {| mem_files := {[ "/tmp/ses.json" := (docOK, 420) ]};
                 mem_dirs := {[ "/tmp" ]} |};
     sh_runs := [] |}.

(** A notifier whose script is run by the [RetryCommandRunner], and a
    host with that script on which it will end without error. *)
Definition notifierScript : ScriptNotifier :=
  {| sn_script := "/usr/local/bin/notify";
     sn_runner := RetryCommandRunner {| lg_prefix := ""; lg_timestamps := true |};
     sn_logger := {| lg_prefix := ""; lg_timestamps := true |};
     sn_cfg := DefaultScriptNotifierConfig |}.

Definition hostNotify : ScriptedHost :=
  {| sh_fs := {| mem_files := {[ "/usr/local/bin/notify" := ("#!/bin/sh", 493) ]};
                 mem_dirs := {[ "/usr/local/bin" ]} |};
     sh_runs := [("sent", "", None)] |}.

(** A supplied runner that runs nothing. *)
Definition idleRun (ctx : Context ScriptedHost) (cfg : RunCommandConfig)
    (h : ScriptedHost)
  : (string * string * option error) * ScriptedHost * list RunLine :=
  (("", "", Some (errExternal "not used")), h, []).

(** A configuration that names the device [/dev/sg0] twice. *)
Definition yamlTwice : string :=
  "devices: [{device: /dev/sg0, description: JBOD, enabled: true}, {device: /dev/sg0, description: JBOD, enabled: true}]".

Definition configTwice : ConfigYAML :=
  {| DisableTimestamps := false; Devices := [entrySg0; entrySg0] |}.







(** A document that lists the enclosure twice, first OK and then
    Critical, and a codec that reads it. *)
Definition docTwice : string :=
  dq "{'join_of_diagnostic_pages':{'element_list':[{'element_type':{'i':15,'meaning':'Enclosure'},'element_number':0,'status_descriptor':{'status':{'i':1,'meaning':'OK'}}},{'element_type':{'i':15,'meaning':'Enclosure'},'element_number':0,'status_descriptor':{'status':{'i':2,'meaning':'Critical'}}}]}}".

Definition codecTwice : GoCodec :=
  {| json_Unmarshal := fun b =>
       if String.eqb b docTwice then
         inr (rootOf [enclosureElement 1 "OK"; enclosureElement 2 "Critical"])
       else @json_Unmarshal fixtureCodec b;
     json_MarshalIndent_report := @json_MarshalIndent_report fixtureCodec;
     json_MarshalIndent_snapshot := @json_MarshalIndent_snapshot fixtureCodec;
     json_MarshalIndent_results := @json_MarshalIndent_results fixtureCodec |}.

(** What a poll observes when the fetch has failed. *)
Definition envFetchFailed : PollEnv :=
  {| pe_fetch := inl (errExternal "sg_ses: exit status 15");
     pe_capturedAt := noon; pe_detectedAt := noon; pe_reportAt := noon |}.

(** A fan next to the enclosure, running and failed; the results of two
    polls of both elements, and the change of the fan. *)
Definition parsedFanOK : Result :=
  {| r_Type := 3; r_TypeNum := 1; r_TypeDesc := Some "Cooling";
     r_Status := Some 1; r_StatusDesc := Some "OK"; r_PrdFail := None;
     r_Disabled := None; r_Swap := None; r_Temperature := None;
     r_Voltage := None; r_Amperage := None |}.

Definition parsedFanFailed : Result :=
  {| r_Type := 3; r_TypeNum := 1; r_TypeDesc := Some "Cooling";
     r_Status := Some 2; r_StatusDesc := Some "Critical"; r_PrdFail := None;
     r_Disabled := None; r_Swap := None; r_Temperature := None;
     r_Voltage := None; r_Amperage := None |}.

Definition resultsBefore : gmap string Result :=
  <[ "3#1" := parsedFanOK ]> {[ "15#0" := parsedOK ]}.

Definition resultsAfter : gmap string Result :=
  <[ "3#1" := parsedFanFailed ]> {[ "15#0" := parsedCritical ]}.

Definition changeFan : Change :=
  {| ch_ID := "3#1"; ch_Type := 3; ch_TypeNum := 1;
     ch_TypeDesc := Some "Cooling";
     ch_Before := Some parsedFanOK; ch_After := Some parsedFanFailed |}.

(** A [filepath.Clean] that drops one trailing separator, for an example
    of two spellings of one directory. *)
Fixpoint dropTrailingSlash (s : string) : string :=
  match s with
  | EmptyString => EmptyString
  | String c s' =>
      match s' with
      | String "/" EmptyString => String c EmptyString
      | _ => String c (dropTrailingSlash s')
      end
  end.

Definition cleaningLib : GoLib :=
  {| strings_EqualFold := asciiEqualFold;
     strings_TrimSpace := asciiTrimSpace;
     strings_ToLower := asciiToLower;
     fmt_Quote := quoteAscii;
     filepath_Join := fun a b => a +:+ "/" +:+ b;
     filepath_Dir := dropLastSegment;
     filepath_Base := lastSegment EmptyString;
     filepath_Clean := dropTrailingSlash;
     sha256_Sum256 := checksum32;
     sort_Slice := insertionSort |}.

(** A configuration of two devices whose output directories are written
    [/out] and [/out/], and a filesystem with both device nodes. *)
Definition cfgOutputDir (dir : string) : DeviceMonitorConfig :=
  {| PollInterval := None; PollAttempts := None;
     PollAttemptTimeout := None; PollAttemptInterval := None;
     PollBackoffAfter := None; PollBackoffTime := None;
     PollBackoffNotify := None; PollBackoffStopMonitor := None;
     OutputDir := Some dir; Verbose := None |}.

Definition entryOut (device dir : string) : DeviceYAML :=
  {| dy_Device := device; dy_Address := ""; dy_Description := "JBOD";
     dy_Type := 0; dy_Enabled := true;
     dy_MonitorConfig := Some (cfgOutputDir dir);
     dy_ScriptNotifier := None |}.

Definition yamlSpellings : string :=
  "devices: [{device: /dev/sg0, enabled: true, config: {output_dir: /out}}, {device: /dev/sg1, enabled: true, config: {output_dir: /out/}}]".

Definition configSpellings : ConfigYAML :=
  {| DisableTimestamps := false;
     Devices := [entryOut "/dev/sg0" "/out"; entryOut "/dev/sg1" "/out/"] |}.

Definition yamlSame : string :=
  "devices: [{device: /dev/sg0, enabled: true, config: {output_dir: /out}}, {device: /dev/sg1, enabled: true, config: {output_dir: /out}}]".

Definition configSame : ConfigYAML :=
  {| DisableTimestamps := false;
     Devices := [entryOut "/dev/sg0" "/out"; entryOut "/dev/sg1" "/out"] |}.

Definition yamlOfOutputDirs : GoYAML :=
  {| yaml_Decode := fun y =>
       if String.eqb y yamlSpellings then inr configSpellings
       else if String.eqb y yamlSame then inr configSame
       else if String.eqb y yamlTwice then inr configTwice
       else inl (errExternal "yaml: unmarshal errors") |}.

Definition devFsTwo : MemFs :=
  {| mem_files := {[ "/dev/sg0" := ("", 432); "/dev/sg1" := ("", 432) ]};
     mem_dirs := {[ "/dev" ]} |}.

(** * Properties *)

(** ** Equality and diff *)

Section DiffFacts.
Context `{GoLib}.

Lemma ptrIntEqual_nilSafe (a b : option Z) :
  ptrIntEqual a b = true <-> nilSafe eq a b.
Proof.
  destruct a as [x|], b as [y|]; simpl; try (split; [discriminate | tauto]).
  - apply Z.eqb_eq.
  - tauto.
Qed.

Lemma ptrStrEqualFold_nilSafe (a b : option string) :
  ptrStrEqualFold a b = true <->
  nilSafe (fun x y => strings_EqualFold x y = true) a b.
Proof.
  destruct a as [x|], b as [y|]; simpl; try tauto;
    split; (discriminate || tauto).
Qed.

Lemma rowsEqual_nilSafe (a b : Result) :
  rowsEqual a b = true <->
  nilSafe eq (r_Status a) (r_Status b) /\
  nilSafe (fun x y => strings_EqualFold x y = true)
    (r_StatusDesc a) (r_StatusDesc b) /\
  nilSafe eq (r_PrdFail a) (r_PrdFail b) /\
  nilSafe eq (r_Disabled a) (r_Disabled b) /\
  nilSafe eq (r_Swap a) (r_Swap b).
Proof.
  unfold rowsEqual. rewrite !andb_true_iff.
  rewrite !ptrIntEqual_nilSafe, ptrStrEqualFold_nilSafe. tauto.
Qed.

Lemma rowsEqual_frame (a a' b b' : Result) :
  sameFaultFields a a' -> sameFaultFields b b' ->
  rowsEqual a' b' = rowsEqual a b.
Proof.
  intros (Ha1 & Ha2 & Ha3 & Ha4 & Ha5) (Hb1 & Hb2 & Hb3 & Hb4 & Hb5).
  unfold rowsEqual. congruence.
Qed.

Lemma ptrIntEqual_refl (a : option Z) : ptrIntEqual a a = true.
Proof. destruct a; simpl; [apply Z.eqb_refl | reflexivity]. Qed.

Lemma rowsEqual_refl (a : Result) :
  (forall s, strings_EqualFold s s = true) -> rowsEqual a a = true.
Proof.
  intros Hrefl. unfold rowsEqual. rewrite !ptrIntEqual_refl. simpl.
  destruct (r_StatusDesc a); simpl; [rewrite Hrefl|]; reflexivity.
Qed.

(** The change, if any, that the loop of [rowsDiff] emits for [k]. *)
Lemma diffStep_app (prev curr : gmap string Result) out k :
  diffStep prev curr out k = out ++ diffStep prev curr [] k.
Proof.
  unfold diffStep.
  destruct (commaOk prev k) as [p pok], (commaOk curr k) as [c cok].
  destruct (negb pok || negb cok || negb (rowsEqual p c));
    [reflexivity | by rewrite app_nil_r].
Qed.

Lemma rowsDiff_foldl (prev curr : gmap string Result) ks out :
  foldl (diffStep prev curr) out ks =
  out ++ concat (map (diffStep prev curr []) ks).
Proof.
  revert out. induction ks as [|k ks IH]; intros out; simpl.
  - by rewrite app_nil_r.
  - rewrite IH, (diffStep_app _ _ out k). by rewrite <- app_assoc.
Qed.

Lemma diffStep_ids (prev curr : gmap string Result) k ch :
  ch ∈ diffStep prev curr [] k -> ch_ID ch = k.
Proof.
  unfold diffStep.
  destruct (commaOk prev k) as [p pok], (commaOk curr k) as [c cok].
  destruct (negb pok || negb cok || negb (rowsEqual p c)); simpl.
  - intros Hin. apply list_elem_of_singleton in Hin. by subst ch.
  - intros Hin. by apply not_elem_of_nil in Hin.
Qed.

Lemma changesWithID_app k l1 l2 :
  changesWithID k (l1 ++ l2) = (changesWithID k l1 + changesWithID k l2)%nat.
Proof. unfold changesWithID. by rewrite filter_app, length_app. Qed.

Lemma diffStep_cases (prev curr : gmap string Result) k :
  diffStep prev curr [] k = [] \/
  exists ch, diffStep prev curr [] k = [ch] /\ ch_ID ch = k.
Proof.
  unfold diffStep.
  destruct (commaOk prev k) as [p pok], (commaOk curr k) as [c cok].
  destruct (negb pok || negb cok || negb (rowsEqual p c)); simpl;
    [right; eexists; split; reflexivity | by left].
Qed.

Lemma changesWithID_other (prev curr : gmap string Result) k k' :
  k' <> k -> changesWithID k (diffStep prev curr [] k') = 0%nat.
Proof.
  intros Hne. unfold changesWithID.
  destruct (diffStep_cases prev curr k') as [->|(ch & -> & Hid)];
    [reflexivity|].
  rewrite filter_cons_False by congruence. reflexivity.
Qed.

Lemma changesWithID_same (prev curr : gmap string Result) k :
  changesWithID k (diffStep prev curr [] k) =
  length (diffStep prev curr [] k).
Proof.
  unfold changesWithID.
  destruct (diffStep_cases prev curr k) as [->|(ch & -> & Hid)];
    [reflexivity|].
  rewrite filter_cons_True by done. reflexivity.
Qed.

Lemma changesWithID_concat (prev curr : gmap string Result) k ks :
  NoDup ks ->
  changesWithID k (concat (map (diffStep prev curr []) ks)) =
  if bool_decide (k ∈ ks) then length (diffStep prev curr [] k) else 0%nat.
Proof.
  induction 1 as [|k' ks Hnotin Hnd IH]; simpl.
  - reflexivity.
  - rewrite changesWithID_app, IH.
    destruct (decide (k' = k)) as [->|Hne].
    + rewrite changesWithID_same.
      rewrite (bool_decide_eq_true_2 (k ∈ k :: ks)) by left.
      rewrite (bool_decide_eq_false_2 (k ∈ ks)) by done. lia.
    + rewrite changesWithID_other by done. simpl.
      apply (f_equal (fun b : bool => if b then _ else _)).
      apply bool_decide_ext. rewrite elem_of_cons.
      split; [by right | intros [E|Hin]; [congruence | done]].
Qed.

Lemma changesWithID_rowsDiff (prev curr : gmap string Result) k :
  changesWithID k (rowsDiff prev curr) =
  if bool_decide (k ∈ dom prev ∪ dom curr)
  then length (diffStep prev curr [] k) else 0%nat.
Proof.
  unfold rowsDiff. rewrite rowsDiff_foldl. simpl.
  rewrite changesWithID_concat by apply NoDup_elements.
  apply (f_equal (fun b : bool => if b then _ else _)).
  apply bool_decide_ext. apply elem_of_elements.
Qed.

Lemma diffStep_length (prev curr : gmap string Result) k :
  length (diffStep prev curr [] k) =
  match prev !! k, curr !! k with
  | Some p, Some c => if rowsEqual p c then 0%nat else 1%nat
  | _, _ => 1%nat
  end.
Proof.
  unfold diffStep, commaOk.
  destruct (prev !! k) as [p|], (curr !! k) as [c|]; simpl; try reflexivity.
  destruct (rowsEqual p c); reflexivity.
Qed.

Lemma rowsDiff_nil_iff (prev curr : gmap string Result) :
  rowsDiff prev curr = [] <->
  forall k, k ∈ dom prev ∪ dom curr -> diffStep prev curr [] k = [].
Proof.
  unfold rowsDiff. rewrite rowsDiff_foldl. simpl. split.
  - intros Hnil k Hk. apply elem_of_elements, list_elem_of_In in Hk.
    remember (elements (dom prev ∪ dom curr)) as ks eqn:E. clear E.
    induction ks as [|k' ks IH]; simpl in *; [done|].
    apply app_eq_nil in Hnil as [H1 H2].
    destruct Hk as [->|Hk]; [done | by apply IH].
  - intros Hall.
    assert (forall k, k ∈ elements (dom prev ∪ dom curr) ->
                      diffStep prev curr [] k = []) as Hks.
    { intros k Hk. apply Hall. by apply elem_of_elements. }
    clear Hall. induction (elements (dom prev ∪ dom curr)) as [|k ks IH];
      simpl; [done|].
    rewrite Hks by left. simpl. apply IH. intros k' Hk'. apply Hks.
    by right.
Qed.

Lemma rowsDiff_self (a : gmap string Result) :
  (forall s, strings_EqualFold s s = true) -> rowsDiff a a = [].
Proof.
  intros Hrefl. apply rowsDiff_nil_iff. intros k Hk.
  apply length_zero_iff_nil. rewrite diffStep_length.
  destruct (a !! k) as [p|] eqn:E.
  - by rewrite rowsEqual_refl.
  - rewrite union_idemp_L in Hk. apply elem_of_dom in Hk as [p Hp].
    congruence.
Qed.
End DiffFacts.

Lemma asciiEqualFold_refl (s : string) : asciiEqualFold s s = true.
Proof. induction s as [|c s IH]; simpl; [|rewrite N.eqb_refl]; done. Qed.

Section DiffTheorems.
Context `{GoLib}.

(** C2. [rowsEqual a b] holds exactly when the five optional fields
    status, statusDesc (compared with [strings.EqualFold]), prdFail,
    disabled and swap match pairwise nil-safely. The other fields play no
    role: replacing [a] and [b] by results with the same five fields does
    not change the verdict, and (as [strings.EqualFold] relates every
    string to itself) two results that differ only in the other fields
    are equal and give no change in a diff. *)
Theorem rowsEqual_five_fields (a b : Result) :
  (rowsEqual a b = true <->
   nilSafe eq (r_Status a) (r_Status b) /\
   nilSafe (fun x y => strings_EqualFold x y = true)
     (r_StatusDesc a) (r_StatusDesc b) /\
   nilSafe eq (r_PrdFail a) (r_PrdFail b) /\
   nilSafe eq (r_Disabled a) (r_Disabled b) /\
   nilSafe eq (r_Swap a) (r_Swap b)) /\
  (forall a' b', sameFaultFields a a' -> sameFaultFields b b' ->
                 rowsEqual a' b' = rowsEqual a b) /\
  ((forall s, strings_EqualFold s s = true) ->
   sameFaultFields a b ->
   rowsEqual a b = true /\
   forall (prev curr : gmap string Result) k,
     prev !! k = Some a -> curr !! k = Some b ->
     changesWithID k (rowsDiff prev curr) = 0%nat).
Proof.
  split; [apply rowsEqual_nilSafe|].
  split; [intros a' b'; apply rowsEqual_frame|].
  intros Hrefl Hsame.
  assert (rowsEqual a b = true) as Heq.
  { rewrite (rowsEqual_frame a a a b) by (done || by repeat split).
    by apply rowsEqual_refl. }
  split; [done|]. intros prev curr k Hp Hc.
  rewrite changesWithID_rowsDiff, diffStep_length, Hp, Hc, Heq.
  by destruct (bool_decide _).
Qed.

(** C3. For every key of [prev] or [curr], [rowsDiff prev curr] holds
    exactly one change with that id when the key is missing from one of
    the maps or the two results are unequal under [rowsEqual], and none
    when the pair is equal; no change carries any other id; and (as
    [strings.EqualFold] relates every string to itself) the diff of a map
    with itself is empty. *)
Theorem rowsDiff_complete (prev curr : gmap string Result) (k : string) :
  (k ∈ dom prev ∪ dom curr ->
   (changesWithID k (rowsDiff prev curr) = 1%nat <->
    prev !! k = None \/ curr !! k = None \/
    exists p c, prev !! k = Some p /\ curr !! k = Some c /\
                rowsEqual p c = false) /\
   (changesWithID k (rowsDiff prev curr) = 0%nat <->
    exists p c, prev !! k = Some p /\ curr !! k = Some c /\
                rowsEqual p c = true)) /\
  (k ∉ dom prev ∪ dom curr ->
   changesWithID k (rowsDiff prev curr) = 0%nat) /\
  ((forall s, strings_EqualFold s s = true) ->
   forall a : gmap string Result, rowsDiff a a = []).
Proof.
  split; [|split].
  - intros Hk. rewrite changesWithID_rowsDiff, diffStep_length.
    rewrite bool_decide_eq_true_2 by done.
    destruct (prev !! k) as [p|] eqn:Ep, (curr !! k) as [c|] eqn:Ec.
    + destruct (rowsEqual p c) eqn:E; split; split;
        try (intros; discriminate); try (intros; lia).
      * intros [?|[?|(p' & c' & ? & ? & ?)]]; congruence.
      * intros _. by exists p, c.
      * intros _. right. right. by exists p, c.
      * intros (p' & c' & ? & ? & ?). congruence.
    + split; split; try (intros; lia); try tauto.
      intros (p' & c' & ? & ? & ?). congruence.
    + split; split; try (intros; lia); try tauto.
      intros (p' & c' & ? & ? & ?). congruence.
    + split; split; try (intros; lia); try tauto.
      intros (p' & c' & ? & ? & ?). congruence.
  - intros Hk. rewrite changesWithID_rowsDiff.
    by rewrite bool_decide_eq_false_2.
  - intros Hrefl a. by apply rowsDiff_self.
Qed.
End DiffTheorems.

(** Scenario S3 of the specification: a change of temperature alone. *)
Lemma rowsEqual_five_fields_witness :
  (forall s, asciiEqualFold s s = true) /\
  sameFaultFields resultOK resultWarmer /\
  @rowsEqual asciiLib resultOK resultWarmer = true /\
  changesWithID "15#0"
    (@rowsDiff asciiLib {[ "15#0" := resultOK ]} {[ "15#0" := resultWarmer ]})
  = 0%nat.
Proof.
  assert (sameFaultFields resultOK resultWarmer) as Hsame
    by (repeat split; reflexivity).
  split; [exact asciiEqualFold_refl|]. split; [exact Hsame|].
  destruct (proj2 (proj2 (@rowsEqual_five_fields asciiLib resultOK resultWarmer))
              asciiEqualFold_refl Hsame) as [Heq Hdiff].
  split; [exact Heq|]. apply Hdiff; reflexivity.
Defined.

(** Scenario S2 of the specification: the status goes from OK to
    Critical. *)
Lemma rowsDiff_complete_witness :
  "15#0" ∈ dom ({[ "15#0" := resultOK ]} : gmap string Result)
           ∪ dom ({[ "15#0" := resultCritical ]} : gmap string Result) /\
  changesWithID "15#0"
    (@rowsDiff asciiLib {[ "15#0" := resultOK ]} {[ "15#0" := resultCritical ]})
  = 1%nat /\
  @rowsDiff asciiLib {[ "15#0" := resultOK ]} {[ "15#0" := resultOK ]} = [].
Proof.
  assert ("15#0" ∈ dom ({[ "15#0" := resultOK ]} : gmap string Result)
                   ∪ dom ({[ "15#0" := resultCritical ]} : gmap string Result))
    as Hk by (apply elem_of_union_l, elem_of_dom; eexists; reflexivity).
  split; [exact Hk|].
  pose proof (@rowsDiff_complete asciiLib {[ "15#0" := resultOK ]}
                {[ "15#0" := resultCritical ]} "15#0") as (Hin & _ & _).
  pose proof (@rowsDiff_complete asciiLib {[ "15#0" := resultOK ]}
                {[ "15#0" := resultOK ]} "15#0") as (_ & _ & Hself).
  split.
  - apply (proj1 (Hin Hk)). right. right.
    exists resultOK, resultCritical. repeat split; reflexivity.
  - apply Hself. exact asciiEqualFold_refl.
Defined.

(** ** Parser *)

Section ParserFacts.
Context `{GoLib} `{GoCodec}.

Lemma parseElement_lacksTypeI (el : Element) :
  lacksTypeI el -> parseElement el = Continue.
Proof.
  intros (et & Het & Hi). unfold parseElement. rewrite Het, Hi. reflexivity.
Qed.

Lemma parseElement_lacksNumber (el : Element) :
  lacksNumber el -> parseElement el = Continue.
Proof.
  unfold lacksNumber, parseElement. intros ->.
  destruct (el_ElementType el) as [[[i|] [m|]]|]; reflexivity.
Qed.

(** An element without an [element_type] object is keyed with type 0. *)
Lemma parseElement_no_type_object (el : Element) (n : Z) :
  el_ElementType el = None -> el_ElementNumber el = Some n ->
  el_StatusDescriptor el = None ->
  parseElement el = Next (setTypeNum n zeroResult).
Proof. unfold parseElement. intros -> -> ->. reflexivity. Qed.

Lemma parseElement_panic_iff (el : Element) :
  parseElement el = Panic <->
  ~ lacksTypeI el /\ ~ lacksNumber el /\
  exists sd, el_StatusDescriptor el = Some sd /\ lacksReading sd.
Proof.
  unfold parseElement, lacksTypeI, lacksNumber, lacksReading.
  destruct el as [et n sd]; simpl.
  destruct et as [[[i|] m]|], n as [n|]; simpl;
    try (destruct m; simpl);
    try (split; [discriminate | intros (H1 & H2 & H3)]; exfalso;
         first [ by apply H2 | by (apply H1; eexists) ]).
  all: destruct sd as [[st pf di sw [t|] [v|] [c|]]|]; simpl.
  all: try destruct t as [ti [tm|]]; try destruct v as [vr [vv|]];
    try destruct c as [cr [cv|]]; simpl.
  all: try (split; [discriminate|];
            intros (_ & _ & sd' & Hsd & Hl); exfalso;
            first [ discriminate Hsd
                  | injection Hsd as <-; simpl in Hl;
                    destruct Hl as [(? & ? & ?)|[(? & ? & ?)|(? & ? & ?)]];
                    simplify_eq/= ]).
  all: split; [intros _|reflexivity].
  all: split; [intros (? & ? & ?); simplify_eq/=|].
  all: split; [discriminate|]; eexists; split; [reflexivity|]; simpl;
    eauto 8.
Qed.

Lemma parseElements_panic_iff (els : list Element) (m : gmap string Result) :
  parseElements els m = Panicked <->
  Exists (fun el => parseElement el = Panic) els.
Proof.
  revert m. induction els as [|el els IH]; intros m; simpl.
  - split; [discriminate | intros Hex; inversion Hex].
  - rewrite Exists_cons.
    destruct (parseElement el) eqn:E; rewrite ?IH; split; try tauto;
      try (intros [?|?]; [discriminate | done]).
Qed.

Lemma parseElements_total (els : list Element) (m : gmap string Result) :
  (exists m', parseElements els m = Ok m') \/ parseElements els m = Panicked.
Proof.
  revert m. induction els as [|el els IH]; intros m; simpl; [eauto|].
  destruct (parseElement el); eauto.
Qed.
End ParserFacts.

Section ParserTheorems.
Context `{GoLib} `{GoCodec}.

(** C1. An element whose [element_type] object has no [i], or that has
    no [element_number], is skipped by [parseSES] and contributes no
    entry. An element without any [element_type] object is not skipped:
    the document whose only element is [{"element_number": 5}] yields a
    map with the entry ["0#5"]. *)
Theorem parseSES_element_without_type_object (b : string) :
  (forall el rest m,
     lacksTypeI el \/ lacksNumber el ->
     parseElement el = Continue /\
     parseElements (el :: rest) m = parseElements rest m) /\
  (json_Unmarshal b = inr (rootOf [elementNoTypeObject]) ->
   parseSES b = Ok {[ "0#5" := setTypeNum 5 zeroResult ]}).
Proof.
  split.
  - intros el rest m Hlacks.
    assert (parseElement el = Continue) as Hskip
      by (destruct Hlacks;
          [by apply parseElement_lacksTypeI
          |by apply parseElement_lacksNumber]).
    split; [done|]. simpl. by rewrite Hskip.
  - intros Hdoc. unfold parseSES. rewrite Hdoc.
    change (ElementList (Join (rootOf [elementNoTypeObject])))
      with [elementNoTypeObject].
    cbn [parseElements].
    rewrite (parseElement_no_type_object elementNoTypeObject 5)
      by reflexivity.
    reflexivity.
Qed.

(** C5. [parseSES] returns an error exactly when [json.Unmarshal] does.
    On a decoded document it panics exactly when some element that is
    not skipped carries a temperature object without [meaning], a voltage
    object without [value_in_volts] or a current object without
    [value_in_amps], and returns a map otherwise. The document with
    [{"element_type":{"i":4},"element_number":0,
      "status_descriptor":{"temperature":{"i":1}}}] makes it panic. *)
Theorem parseSES_outcomes (b : string) :
  (forall e, json_Unmarshal b = inl e <->
             parseSES b = Err (errWrap "failure unmarshalling JSON" e)) /\
  (forall root,
     json_Unmarshal b = inr root ->
     (parseSES b = Panicked <->
      Exists (fun el =>
                ~ lacksTypeI el /\ ~ lacksNumber el /\
                exists sd, el_StatusDescriptor el = Some sd /\
                           lacksReading sd)
        (ElementList (Join root))) /\
     (parseSES b <> Panicked -> exists m, parseSES b = Ok m)) /\
  (json_Unmarshal b = inr (rootOf [elementTemperatureNoMeaning]) ->
   parseSES b = Panicked).
Proof.
  split; [|split].
  - intros e. unfold parseSES. split.
    + intros ->. reflexivity.
    + destruct (json_Unmarshal b) as [e'|root]; [congruence|].
      destruct (parseElements_total (ElementList (Join root)) ∅)
        as [[m' ->]| ->]; discriminate.
  - intros root Hroot. unfold parseSES. rewrite Hroot. split.
    + rewrite parseElements_panic_iff, !Exists_exists.
      split; intros (el & Hin & Hel); exists el; (split; [done|]);
        by apply parseElement_panic_iff.
    + intros Hne.
      destruct (parseElements_total (ElementList (Join root)) ∅)
        as [Hok|Hp]; [done | contradiction].
  - intros Hdoc. unfold parseSES. rewrite Hdoc. reflexivity.
Qed.
End ParserTheorems.

Lemma parseSES_element_without_type_object_witness :
  @json_Unmarshal fixtureCodec docNoTypeObject
    = inr (rootOf [elementNoTypeObject]) /\
  @parseSES asciiLib fixtureCodec docNoTypeObject
    = Ok {[ "0#5" := setTypeNum 5 zeroResult ]}.
Proof.
  assert (@json_Unmarshal fixtureCodec docNoTypeObject
            = inr (rootOf [elementNoTypeObject])) as Hdoc by reflexivity.
  split; [exact Hdoc|].
  exact (proj2 (@parseSES_element_without_type_object asciiLib fixtureCodec
                  docNoTypeObject) Hdoc).
Defined.

Lemma parseSES_outcomes_witness :
  @json_Unmarshal fixtureCodec docTemperatureNoMeaning
    = inr (rootOf [elementTemperatureNoMeaning]) /\
  @parseSES asciiLib fixtureCodec docTemperatureNoMeaning = Panicked.
Proof.
  assert (@json_Unmarshal fixtureCodec docTemperatureNoMeaning
            = inr (rootOf [elementTemperatureNoMeaning])) as Hdoc
    by reflexivity.
  split; [exact Hdoc|].
  exact (proj2 (proj2 (@parseSES_outcomes asciiLib fixtureCodec
                         docTemperatureNoMeaning)) Hdoc).
Defined.

(** ** Retry utility *)

Section RetryFacts.
Context {W : Type}.
Variables (ctx : Context W) (f : W -> option error * W)
          (onAttemptErr : option (Z -> error -> W -> W))
          (attempts interval : Z).

Lemma retryLoop_cancelled n attempt e w calls err :
  ctx_Err ctx w = Some err ->
  retryLoop (S n) ctx f onAttemptErr attempts interval attempt e w calls =
  {| rt_attempt := attempt; rt_err := Some (errWrap "context error" err);
     rt_world := w; rt_calls := calls |}.
Proof. intros Herr. simpl. by rewrite Herr. Qed.

Lemma retryLoop_success n attempt e w w' calls :
  ctx_Err ctx w = None -> f w = (None, w') ->
  retryLoop (S n) ctx f onAttemptErr attempts interval attempt e w calls =
  {| rt_attempt := attempt + 1; rt_err := None; rt_world := w';
     rt_calls := calls ++ [None] |}.
Proof. intros Herr Hf. simpl. by rewrite Herr, Hf. Qed.

Lemma retryLoop_ends n (errs : list error) w :
  (length errs + n)%nat = Z.to_nat attempts ->
  retryEnds attempts
    (retryLoop n ctx f onAttemptErr attempts interval
       (Z.of_nat (length errs)) (last errs) w (Some <$> errs)).
Proof.
  revert errs w. induction n as [|n IH]; intros errs w Hlen.
  - simpl. unfold retryEnds; simpl. rewrite length_fmap.
    split; [done|]. split; [lia|]. right. right. exists errs.
    split; [done|]. split; [lia | done].
  - simpl. destruct (ctx_Err ctx w) as [cerr|] eqn:Ectx.
    + unfold retryEnds; simpl. rewrite length_fmap.
      split; [done|]. split; [lia|]. right. left. exists errs, cerr.
      split; [done|]. split; [lia | done].
    + destruct (f w) as [[ee|] w'] eqn:Ef.
      * assert (Z.of_nat (length errs) + 1
                = Z.of_nat (length (errs ++ [ee]))) as Hcount
          by (rewrite length_app; simpl; lia).
        assert ((Some <$> errs) ++ [Some ee] = Some <$> (errs ++ [ee]))
          as Hcalls by (by rewrite fmap_app).
        assert (Some ee = last (errs ++ [ee])) as Hlast
          by (by rewrite last_snoc).
        rewrite Hcount, Hcalls.
        destruct (Z.of_nat (length (errs ++ [ee])) <? attempts) eqn:Elt.
        -- destruct (ctx_DoneOrAfter ctx interval _) as [[cerr|] w''].
           ++ unfold retryEnds; simpl. rewrite length_fmap.
              apply Z.ltb_lt in Elt.
              split; [done|]. split; [lia|]. right. left.
              exists (errs ++ [ee]), cerr.
              split; [done|]. split; [lia | done].
           ++ rewrite Hlast. apply IH. rewrite length_app; simpl. lia.
        -- rewrite Hlast. apply IH. rewrite length_app; simpl. lia.
      * unfold retryEnds; simpl. rewrite length_app, length_fmap; simpl.
        split; [lia|]. split; [lia|]. left. by exists errs.
Qed.
End RetryFacts.

Section RetryRuns.
Context {W : Type}.
Variables (ctx : Context W) (f : W -> option error * W)
          (onAttemptErr : option (Z -> error -> W -> W))
          (attempts interval : Z).



End RetryRuns.



(** ** Device resolver *)

Section LookupFacts.
Context `{GoLib} {F : Type} `{AferoFs F}.
Variable fsys : F.

Lemma finderStep_addressOf devices ignored d :
  finderStep fsys (devices, ignored) d =
  match addressOf fsys d with
  | None => (devices, ignored)
  | Some sas =>
      (<[sas := nodeOf d]> devices,
       match devices !! sas with
       | Some _ => {[ sas ]} ∪ ignored
       | None => ignored
       end)
  end.
Proof.
  unfold finderStep, addressOf, nodeOf.
  destruct (afero_ReadFile fsys _) as [e|sasb]; [reflexivity|].
  destruct (String.eqb _ ""); reflexivity.
Qed.

Lemma dirsWith_snoc a ds d :
  dirsWith fsys a (ds ++ [d]) =
  dirsWith fsys a ds ++
  (if decide (addressOf fsys d = Some a) then [d] else []).
Proof. unfold dirsWith. by rewrite filter_app. Qed.

(** After the first loop: the index maps an address to the node of the
    last directory it was observed on, and the addresses to ignore are
    those observed at least twice. *)
Lemma finder_loop_invariant matches a :
  let '(devices, ignored) := foldl (finderStep fsys) (∅, ∅) matches in
  devices !! a = nodeOf <$> last (dirsWith fsys a matches) /\
  (a ∈ ignored <-> (2 <= length (dirsWith fsys a matches))%nat).
Proof.
  induction matches as [|d ds IH] using rev_ind.
  - simpl. split; [apply lookup_empty|].
    split; [intros Hin; by apply not_elem_of_empty in Hin | simpl; lia].
  - rewrite foldl_app. simpl.
    destruct (foldl (finderStep fsys) (∅, ∅) ds) as [devices ignored].
    destruct IH as [Hdev Hign].
    rewrite finderStep_addressOf, dirsWith_snoc.
    destruct (addressOf fsys d) as [sas|] eqn:Eaddr.
    + destruct (decide (Some sas = Some a)) as [E|Hne].
      * injection E as ->. rewrite lookup_insert_eq, last_snoc.
        split; [reflexivity|]. rewrite length_app. simpl.
        rewrite Hdev.
        destruct (dirsWith fsys a ds) as [|d0 l] using rev_ind.
        -- simpl. rewrite Hign. simpl. lia.
        -- rewrite last_snoc. simpl. rewrite length_app. simpl.
           split; [intros _; lia | intros _].
           apply elem_of_union_l, elem_of_singleton. reflexivity.
      * assert (sas <> a) as Hne' by congruence.
        rewrite lookup_insert_ne, app_nil_r by done.
        split; [done|]. rewrite <- Hign.
        destruct (devices !! sas); [|done].
        rewrite elem_of_union, elem_of_singleton.
        split; [intros [?|?]; [congruence | done] | by right].
    + rewrite decide_False, app_nil_r by discriminate. done.
Qed.

Lemma lookup_delete_all (m : gmap string string) ks a :
  foldl (fun m k => delete k m) m ks !! a =
  if decide (a ∈ ks) then None else m !! a.
Proof.
  revert m. induction ks as [|k ks IH]; intros m; cbn [foldl].
  - rewrite decide_False; [done | apply not_elem_of_nil].
  - rewrite IH. destruct (decide (a ∈ ks)) as [Hin|Hnin].
    + rewrite decide_True; [done | by right].
    + destruct (decide (k = a)) as [->|Hne].
      * rewrite lookup_delete_eq, decide_True; [done | by left].
      * rewrite lookup_delete_ne by done.
        rewrite decide_False; [done|].
        rewrite elem_of_cons. intros [?|?]; [congruence | done].
Qed.
End LookupFacts.

(** C8. After [NewDeviceFinder] has enumerated the device directories, an
    address (trimmed, lowercased, not empty) observed on more than one of
    them is absent from the index, [FindDevice] reports it as not found and
    a warning names it; an address observed on exactly one directory maps
    to ["/dev/"] and the [sgN] component of that directory; an address
    observed on none is not found. *)
Theorem NewDeviceFinder_unique `{GoLib} {F : Type} `{AferoFs F}
    (fsys : F) (matches : list string) :
  afero_Glob fsys "/sys/class/scsi_generic/sg*/device" = inr matches ->
  exists df warnings,
    NewDeviceFinder fsys = (inr df, warnings) /\
    forall a,
      ((2 <= length (dirsWith fsys a matches))%nat ->
       devices df !! a = None /\ FindDevice df a = ("", false) /\
       LogDuplicateAddress a ∈ warnings) /\
      (forall d, dirsWith fsys a matches = [d] ->
                 FindDevice df a = (nodeOf d, true) /\
                 LogDuplicateAddress a ∉ warnings) /\
      (dirsWith fsys a matches = [] -> FindDevice df a = ("", false)).
Proof.
  intros Hglob. unfold NewDeviceFinder. rewrite Hglob.
  pose proof (finder_loop_invariant fsys matches) as Hinv.
  destruct (foldl (finderStep fsys) (∅, ∅) matches) as [devs ignored].
  eexists _, _. split; [reflexivity|]. intros a.
  destruct (Hinv a) as [Hdev Hign]. unfold FindDevice. simpl.
  rewrite lookup_delete_all.
  assert (LogDuplicateAddress a ∈ map LogDuplicateAddress (elements ignored)
          <-> a ∈ ignored) as Hwarn.
  { rewrite <- elem_of_elements. change map with (@fmap list _). split.
    - intros Hin. apply list_elem_of_fmap in Hin as (k & E & Hk).
      by injection E as ->.
    - intros Hin. apply list_elem_of_fmap. by exists a. }
  split; [|split].
  - intros Htwo. apply Hign in Htwo.
    rewrite decide_True by (by apply elem_of_elements).
    by rewrite Hwarn.
  - intros d Hd. rewrite Hd in Hdev, Hign. simpl in Hdev, Hign.
    assert (a ∉ ignored) as Hnot by (rewrite Hign; lia).
    rewrite decide_False by (by rewrite elem_of_elements).
    rewrite Hdev, Hwarn. done.
  - intros Hnone. rewrite Hnone in Hdev. simpl in Hdev.
    destruct (decide _); [done | by rewrite Hdev].
Qed.

(** Scenario S7 of the specification, with a third device. *)
Lemma NewDeviceFinder_unique_witness :
  @afero_Glob _ memFs sysFs "/sys/class/scsi_generic/sg*/device"
    = inr [ "/sys/class/scsi_generic/sg0/device";
            "/sys/class/scsi_generic/sg1/device";
            "/sys/class/scsi_generic/sg2/device" ] /\
  exists df warnings,
    @NewDeviceFinder asciiLib _ memFs sysFs = (inr df, warnings) /\
    FindDevice df "0xabc" = ("", false) /\
    LogDuplicateAddress "0xabc" ∈ warnings /\
    FindDevice df "0x123" = ("/dev/sg2", true).
Proof.
  assert (@afero_Glob _ memFs sysFs "/sys/class/scsi_generic/sg*/device"
            = inr [ "/sys/class/scsi_generic/sg0/device";
                    "/sys/class/scsi_generic/sg1/device";
                    "/sys/class/scsi_generic/sg2/device" ]) as Hglob
    by (vm_compute; reflexivity).
  split; [exact Hglob|].
  destruct (@NewDeviceFinder_unique asciiLib _ memFs sysFs _ Hglob)
    as (df & warnings & Hnew & Hall).
  exists df, warnings. split; [exact Hnew|].
  destruct (Hall "0xabc") as (Htwo & _ & _).
  destruct (Hall "0x123") as (_ & Hone & _).
  destruct Htwo as (_ & Hnot & Hwarn); [vm_compute; lia|].
  destruct (Hone "/sys/class/scsi_generic/sg2/device") as [Hfound _];
    [vm_compute; reflexivity|].
  split; [exact Hnot|]. split; [exact Hwarn|]. exact Hfound.
Defined.

(** ** Device monitor *)

Section SilentFacts.
Context {F : Type}.
Variable R : deviceMonitorState -> deviceMonitorState -> Prop.
Hypothesis R_refl : forall s, R s s.
Hypothesis R_trans : forall s1 s2 s3, R s1 s2 -> R s2 s3 -> R s1 s3.

Lemma Silent_here {A : Type} (m : M F A) :
  (forall w, snd (m w) = w) -> Silent R m.
Proof.
  intros Hm w. rewrite Hm. split; [apply R_refl|].
  exists []. by rewrite app_nil_r.
Qed.

Lemma Silent_ret {A : Type} (a : A) : Silent R (retM (F := F) a).
Proof. by apply Silent_here. Qed.

Lemma Silent_panic {A : Type} : Silent R (panicM (F := F) (A := A)).
Proof. by apply Silent_here. Qed.

Lemma Silent_getState : Silent R (getState (F := F)).
Proof. by apply Silent_here. Qed.

Lemma Silent_deref {A : Type} (p : option A) : Silent R (derefM (F := F) p).
Proof. destruct p; [apply Silent_ret | apply Silent_panic]. Qed.

Lemma Silent_bind {A B : Type} (m : M F A) (k : A -> M F B) :
  Silent R m -> (forall a, Silent R (k a)) -> Silent R (bindM m k).
Proof.
  intros Hm Hk w. unfold bindM.
  destruct (Hm w) as (HR & evs & Hev & Ha & Hn).
  destruct (m w) as [[a|] w1]; simpl in *.
  - destruct (Hk a w1) as (HR' & evs' & Hev' & Ha' & Hn').
    split; [by eapply R_trans|].
    exists (evs ++ evs'). rewrite Hev', Hev, <- app_assoc.
    split; [done|]. unfold alertsOf, notifiedAlerts in *.
    by rewrite !omap_app, Ha, Ha', Hn, Hn'.
  - split; [done|]. by exists evs.
Qed.

Lemma Silent_emit (e : Event) :
  alertOf e = None -> notifiedOf e = None -> Silent R (emit (F := F) e).
Proof.
  intros Ha Hn w. simpl. split; [apply R_refl|].
  exists [e]. split; [done|]. unfold alertsOf, notifiedAlerts. simpl.
  by rewrite Ha, Hn.
Qed.

Lemma Silent_log (l : LogLine) :
  (forall msg, l <> LogAlert msg) -> Silent R (logM (F := F) l).
Proof.
  intros Hl. apply Silent_emit; [|done].
  destruct l; try done. by destruct (Hl msg).
Qed.

Lemma Silent_when (b : bool) (m : M F unit) :
  Silent R m -> Silent R (whenM b m).
Proof. destruct b; [done | intros _; apply Silent_ret]. Qed.

Lemma Silent_onFs {A : Type} (f : F -> A * F) : Silent R (onFs f).
Proof.
  intros w. unfold onFs. destruct (f (w_fs w)) as [a fs]. simpl.
  split; [apply R_refl|]. exists []. by rewrite app_nil_r.
Qed.

Lemma Silent_modify (f : deviceMonitorState -> deviceMonitorState) :
  (forall s, R s (f s)) -> Silent R (modifyState (F := F) f).
Proof.
  intros Hf w. simpl. split; [apply Hf|]. exists []. by rewrite app_nil_r.
Qed.

Lemma Silent_defer {A : Type} (f : World F -> World F) (m : M F A) :
  (forall w, R (w_state w) (w_state (f w)) /\ w_events (f w) = w_events w) ->
  Silent R m -> Silent R (deferM f m).
Proof.
  intros Hf Hm w. unfold deferM.
  destruct (Hm w) as (HR & evs & Hev & Ha & Hn).
  destruct (m w) as [r w1]; simpl in *.
  destruct (Hf w1) as [HR' Hev']. split; [by eapply R_trans|].
  exists evs. by rewrite Hev'.
Qed.
End SilentFacts.

Lemma Silent_bind_val {F A B : Type}
    (R : deviceMonitorState -> deviceMonitorState -> Prop)
    (m : M F A) (k : A -> M F B) :
  (forall s1 s2 s3, R s1 s2 -> R s2 s3 -> R s1 s3) ->
  Silent R m -> (forall a w, fst (m w) = Some a -> Silent R (k a)) ->
  Silent R (bindM m k).
Proof.
  intros R_trans Hm Hk w. unfold bindM.
  destruct (Hm w) as (HR & evs & Hev & Ha & Hn).
  pose proof (Hk) as Hk'. specialize (fun a => Hk' a w).
  destruct (m w) as [[a|] w1]; simpl in *.
  - destruct (Hk' a eq_refl w1) as (HR' & evs' & Hev' & Ha' & Hn').
    split; [by eapply R_trans|].
    exists (evs ++ evs'). rewrite Hev', Hev, <- app_assoc.
    split; [done|]. unfold alertsOf, notifiedAlerts in *.
    by rewrite !omap_app, Ha, Ha', Hn, Hn'.
  - split; [done|]. by exists evs.
Qed.

Ltac solveR :=
  solve [ done
        | eauto
        | intros; subst; reflexivity
        | unfold sameHash; intros; congruence
        | intros; congruence
        | intros; discriminate ].

Ltac silent :=
  repeat (intros;
          first
            [ solveR
            | apply Silent_bind
            | apply Silent_when
            | apply Silent_log
            | apply Silent_emit
            | apply Silent_ret
            | apply Silent_panic
            | apply Silent_getState
            | apply Silent_deref
            | apply Silent_onFs
            | apply Silent_modify
            | match goal with
              | |- Silent _ (match ?x with _ => _ end) => destruct x
              | |- Silent _ (if ?x then _ else _) => destruct x
              end ]).

Section MonitorFacts.
Context `{GoLib} `{GoCodec} `{GoTime} {F : Type} `{AferoFs F}.
Variable d : DeviceMonitor.

Lemma ensureDeviceFolder_silent R :
  (forall s, R s s) -> (forall s1 s2 s3, R s1 s2 -> R s2 s3 -> R s1 s3) ->
  Silent R (ensureDeviceFolder (F := F) d).
Proof. intros Hrefl Htrans. unfold ensureDeviceFolder. silent. Qed.

Lemma writeDeviceSnapshot_silent R snapshot filename :
  (forall s, R s s) -> (forall s1 s2 s3, R s1 s2 -> R s2 s3 -> R s1 s3) ->
  Silent R (writeDeviceSnapshot (F := F) d snapshot filename).
Proof.
  intros Hrefl Htrans. unfold writeDeviceSnapshot.
  apply Silent_bind; [done | by apply ensureDeviceFolder_silent |].
  silent.
Qed.

Lemma writeChangeReport_silent R now report :
  (forall s, R s s) -> (forall s1 s2 s3, R s1 s2 -> R s2 s3 -> R s1 s3) ->
  Silent R (writeChangeReport (F := F) d now report).
Proof.
  intros Hrefl Htrans. unfold writeChangeReport.
  apply Silent_bind; [done | by apply ensureDeviceFolder_silent |].
  silent.
Qed.

Lemma writeCurrentData_silent R now raw parsed :
  (forall s, R s s) -> (forall s1 s2 s3, R s1 s2 -> R s2 s3 -> R s1 s3) ->
  Silent R (writeCurrentData (F := F) d now raw parsed).
Proof.
  intros Hrefl Htrans. unfold writeCurrentData.
  apply Silent_bind; [done | by apply writeDeviceSnapshot_silent |].
  intros err. apply Silent_bind; [done | silent |]. intros _.
  destruct (json_MarshalIndent_results parsed); [silent|].
  apply Silent_bind; [done | by apply writeDeviceSnapshot_silent |].
  silent.
Qed.

Lemma Stop_silent : Silent sameHash (Stop (F := F) d).
Proof. unfold Stop. silent. Qed.

Lemma pollFailure_silent env err :
  Silent sameHash (pollFailure (F := F) d env err).
Proof.
  pose proof Stop_silent as HStop.
  assert (forall s1 s2 s3, sameHash s1 s2 -> sameHash s2 s3 ->
                           sameHash s1 s3) as Htrans by solveR.
  unfold pollFailure.
  apply Silent_bind; [done | silent |]. intros st.
  destruct (fe_ctxDone env || stopClosed st); [silent|].
  apply Silent_bind; [done | silent |]. intros _.
  apply Silent_bind; [done | silent |]. intros st'.
  apply Silent_bind; [done | silent |]. intros after.
  destruct (pollFailures st' <? after); [silent|].
  apply Silent_bind; [done | silent |]. intros stopMonitor.
  apply Silent_bind_val; [done | silent |]. intros msg w Hmsg.
  assert (notifiedOf (EvNotify (dm_device d) msg None) = None) as Hquiet.
  { destruct stopMonitor; unfold bindM, derefM in Hmsg;
      repeat match type of Hmsg with
             | context [match ?x with _ => _ end] =>
                 destruct x; simpl in Hmsg
             end;
      try discriminate; injection Hmsg as <-; reflexivity. }
  apply Silent_bind; [done | silent |]. intros _.
  apply Silent_bind; [done | |].
  { destruct (dm_notifier d); [|silent].
    apply Silent_bind; [done | silent |]. intros notify.
    apply Silent_when; [solveR|]. apply Silent_emit; [solveR | done | done]. }
  intros _. apply Silent_bind; [done | silent |]. intros stopMonitor'.
  destruct stopMonitor'; [done|].
  apply Silent_bind; [done | silent |]. intros backoff.
  destruct (fe_wake env); [silent | done | silent].
Qed.
End MonitorFacts.

Lemma noRepeat_snoc (l : list string) (m : string) :
  noRepeat l -> (forall m', last l = Some m' -> m' <> m) ->
  noRepeat (l ++ [m]).
Proof.
  induction l as [|a [|b l] IH]; simpl; intros Hl Hlast.
  - done.
  - split; [by apply Hlast | done].
  - destruct Hl as [Hab Hl]. split; [done|]. by apply IH.
Qed.

Lemma hex_EncodeToString_nonempty (bs : list N) :
  bs <> [] -> hex_EncodeToString bs <> "".
Proof. destruct bs; [done | discriminate]. Qed.

Lemma bindM_returns {F A B : Type} (m : M F A) (k : A -> M F B) w a w' :
  m w = (Some a, w') -> bindM m k w = k a w'.
Proof. intros Hm. unfold bindM. by rewrite Hm. Qed.

Section AlertFacts.
Context `{GoLib} `{GoCodec} `{GoTime} {F : Type} `{AferoFs F}.
Variable d : DeviceMonitor.

Lemma alertHash_nonempty msg :
  (forall m, length (sha256_Sum256 m) = 32%nat) -> alertHash msg <> "".
Proof.
  intros Hlen. apply hex_EncodeToString_nonempty. intros E.
  specialize (Hlen msg). rewrite E in Hlen. discriminate.
Qed.

Lemma writeChangeReport_total now report dir w :
  OutputDir (dm_cfg d) = Some dir ->
  exists err, fst (writeChangeReport (F := F) d now report w) = Some err.
Proof.
  intros Hdir.
  unfold writeChangeReport, ensureDeviceFolder, bindM, derefM, onFs, retM.
  rewrite Hdir.
  destruct (fs_MkdirAll (w_fs w) dir baseFolderPerms) as [[e|] fs'];
    simpl; [eauto|].
  destruct (json_MarshalIndent_report report); simpl; [eauto|].
  destruct (afero_WriteFile _ _ _ _) as [[e|] fs'']; simpl; eauto.
Qed.

Lemma writeChangeReport_fs now report w1 w2 :
  w_fs w1 = w_fs w2 ->
  w_fs (snd (writeChangeReport (F := F) d now report w1)) =
  w_fs (snd (writeChangeReport (F := F) d now report w2)).
Proof.
  intros E.
  unfold writeChangeReport, ensureDeviceFolder, bindM, derefM, onFs, retM,
    panicM.
  destruct (OutputDir (dm_cfg d)) as [dir|]; simpl; [|done]. rewrite E.
  destruct (fs_MkdirAll (w_fs w2) dir baseFolderPerms) as [[e|] fs'];
    simpl; [done|].
  destruct (json_MarshalIndent_report report); simpl; [done|].
  destruct (afero_WriteFile _ _ _ _) as [[e|] fs'']; done.
Qed.

Lemma writeDeviceSnapshot_total snapshot filename dir w :
  OutputDir (dm_cfg d) = Some dir ->
  exists err,
    fst (writeDeviceSnapshot (F := F) d snapshot filename w) = Some err.
Proof.
  intros Hdir.
  unfold writeDeviceSnapshot, ensureDeviceFolder, bindM, derefM, onFs, retM.
  rewrite Hdir.
  destruct (fs_MkdirAll (w_fs w) dir baseFolderPerms) as [[e|] fs'];
    simpl; [eauto|].
  destruct (json_MarshalIndent_snapshot snapshot); simpl; [eauto|].
  destruct (afero_WriteFile _ _ _ _) as [[e|] fs'']; simpl; eauto.
Qed.

Lemma writeCurrentData_total now raw parsed dir w :
  OutputDir (dm_cfg d) = Some dir ->
  fst (writeCurrentData (F := F) d now raw parsed w) = Some tt.
Proof.
  intros Hdir. unfold writeCurrentData.
  set (s1 := {| ds_Device := dm_device d;
                ds_CapturedAt := time_FormatRFC3339 now; ds_Raw := raw |}).
  destruct (writeDeviceSnapshot_total s1 "current.json" dir w Hdir)
    as [err Herr].
  destruct (writeDeviceSnapshot d s1 "current.json" w) as [r wa] eqn:E1.
  simpl in Herr. subst r. rewrite (bindM_returns _ _ _ _ _ E1).
  assert (exists wb, match err with
                     | Some e => logM (LogSnapshotWriteError e)
                     | None => retM tt
                     end wa = (Some tt, wb)) as [wb E2]
    by (destruct err; eexists; reflexivity).
  rewrite (bindM_returns _ _ _ _ _ E2).
  destruct (json_MarshalIndent_results parsed) as [e|results];
    [reflexivity|].
  set (s2 := {| ds_Device := dm_device d;
                ds_CapturedAt := time_FormatRFC3339 now;
                ds_Raw := results |}).
  destruct (writeDeviceSnapshot_total s2 "current_parsed.json" dir wb Hdir)
    as [err' Herr'].
  destruct (writeDeviceSnapshot d s2 "current_parsed.json" wb)
    as [r wc] eqn:E3.
  simpl in Herr'. subst r. rewrite (bindM_returns _ _ _ _ _ E3).
  destruct err'; reflexivity.
Qed.

Lemma pollPrelude_silent env ret curr v n :
  Silent eq (pollPrelude (F := F) d env ret curr v n).
Proof.
  unfold pollPrelude. apply Silent_bind; [solveR | | silent].
  destruct (OutputDir (dm_cfg d)); [|silent].
  apply writeCurrentData_silent; solveR.
Qed.

Lemma pollPrelude_total env ret curr v n w :
  fst (pollPrelude (F := F) d env ret curr v n w) = Some tt.
Proof.
  unfold pollPrelude.
  assert (exists wa,
            match OutputDir (dm_cfg d) with
            | Some _ => writeCurrentData d (pe_capturedAt env) ret curr
            | None => retM tt
            end w = (Some tt, wa)) as [wa Ea].
  { destruct (OutputDir (dm_cfg d)) as [dir|] eqn:Edir;
      [|eexists; reflexivity].
    pose proof (writeCurrentData_total (pe_capturedAt env) ret curr dir w
                  Edir) as Ht.
    destruct (writeCurrentData d (pe_capturedAt env) ret curr w)
      as [r wa]. simpl in Ht. subst r. by eexists. }
  rewrite (bindM_returns _ _ _ _ _ Ea). destruct v; reflexivity.
Qed.

(** What [handleAlert] does. *)
Lemma handleAlert_effects now hash msg report w :
  exists w' evs,
    handleAlert (F := F) d now hash msg report w = (Some tt, w') /\
    w_events w' = w_events w ++ evs /\
    alertsOf evs = [msg] /\
    notifiedAlerts evs =
      match dm_notifier d with Some _ => [msg] | None => [] end /\
    w_state w' = setLastAlertHash hash (w_state w) /\
    w_fs w' =
      match OutputDir (dm_cfg d) with
      | Some _ => w_fs (snd (writeChangeReport d now report w))
      | None => w_fs w
      end.
Proof.
  unfold handleAlert.
  set (w1 := {| w_state := w_state w; w_fs := w_fs w;
                w_events := w_events w ++ [EvLog (LogAlert msg)] |}).
  rewrite (bindM_returns _ _ w tt w1) by reflexivity.
  set (notes := match dm_notifier d with
                | Some _ => [EvNotify (dm_device d) (MsgAlert msg)
                               (Some report)]
                | None => []
                end).
  set (w2 := {| w_state := w_state w; w_fs := w_fs w;
                w_events := w_events w1 ++ notes |}).
  rewrite (bindM_returns _ _ w1 tt w2)
    by (subst notes w2; destruct (dm_notifier d); simpl;
        [reflexivity | by rewrite app_nil_r]).
  destruct (OutputDir (dm_cfg d)) as [dir|] eqn:Edir.
  - destruct (writeChangeReport_total now report dir w2 Edir) as [err Herr].
    destruct (writeChangeReport_silent d eq now report
                ltac:(done) ltac:(intros; congruence) w2)
      as (Hst & evs & Hev & Ha & Hn).
    pose proof (writeChangeReport_fs now report w2 w eq_refl) as Hfs.
    destruct (writeChangeReport d now report w2) as [r w3] eqn:E3.
    simpl in Herr, Hst, Hev, Hfs. subst r.
    set (tail := match err with
                 | Some e => [EvLog (LogReportWriteError e)]
                 | None => []
                 end).
    rewrite (bindM_returns _ _ w2
               tt {| w_state := w_state w3; w_fs := w_fs w3;
                     w_events := w_events w3 ++ tail |}).
    2:{ rewrite (bindM_returns _ _ _ _ _ E3). subst tail.
        destruct err; simpl; [reflexivity|].
        rewrite app_nil_r. by destruct w3. }
    simpl. eexists _, ([EvLog (LogAlert msg)] ++ notes ++ evs ++ tail).
    split; [reflexivity|]. simpl.
    split.
    { rewrite Hev. subst w2 w1. simpl. by rewrite <- !app_assoc. }
    unfold alertsOf, notifiedAlerts in *.
    rewrite !omap_app, Ha, Hn. simpl.
    split; [|split; [|split; [by rewrite <- Hst | done]]].
    + subst notes tail. destruct (dm_notifier d), err; reflexivity.
    + subst notes tail. destruct (dm_notifier d), err; reflexivity.
  - simpl. eexists _, ([EvLog (LogAlert msg)] ++ notes).
    split; [reflexivity|]. simpl.
    split; [by rewrite <- !app_assoc|].
    unfold alertsOf, notifiedAlerts. simpl. subst notes.
    repeat split; destruct (dm_notifier d); reflexivity.
Qed.
End AlertFacts.

Section AlertInvariant.
Context `{GoLib} `{GoCodec} `{GoTime} {F : Type} `{AferoFs F}.
Variable d : DeviceMonitor.
Hypothesis digest_length : forall m, length (sha256_Sum256 m) = 32%nat.

(** A computation keeps the invariant of the alerts. *)
Let Preserves {A : Type} (m : M F A) : Prop :=
  forall w, alertInv d w -> alertInv d (snd (m w)).

Lemma Preserves_silent {A : Type} (m : M F A) :
  Silent sameHash m -> Preserves m.
Proof.
  intros Hm w (Hrep & Hnot & Hhash).
  destruct (Hm w) as (HR & evs & Hev & Ha & Hn).
  unfold alertInv. rewrite HR, Hev.
  unfold alertsOf, notifiedAlerts in *.
  rewrite !omap_app, Ha, Hn, !app_nil_r. done.
Qed.

Lemma Preserves_bind {A B : Type} (m : M F A) (k : A -> M F B) :
  Preserves m -> (forall a, Preserves (k a)) -> Preserves (bindM m k).
Proof.
  intros Hm Hk w Hinv. unfold bindM. specialize (Hm w Hinv).
  destruct (m w) as [[a|] w1]; simpl in *; [by apply Hk | done].
Qed.

Lemma Preserves_getState {B : Type} (k : deviceMonitorState -> M F B) :
  (forall w, alertInv d w -> alertInv d (snd (k (w_state w) w))) ->
  Preserves (bindM getState k).
Proof. intros Hk w Hinv. by apply Hk. Qed.

Lemma Preserves_defer {A : Type} (m : M F A) curr :
  Preserves m -> Preserves (deferM (withPrevious curr) m).
Proof.
  intros Hm w Hinv. unfold deferM. specialize (Hm w Hinv).
  by destruct (m w) as [r w1].
Qed.

Lemma handleAlert_preserves now msg report w :
  alertInv d w ->
  dispatches (lastAlertHash (w_state w)) (alertHash msg) = true ->
  alertInv d (snd (handleAlert d now (alertHash msg) msg report w)).
Proof.
  intros (Hrep & Hnot & Hhash) Hdisp.
  destruct (handleAlert_effects d now (alertHash msg) msg report w)
    as (w' & evs & -> & Hev & Ha & Hn & Hst & _).
  unfold alertInv. simpl. rewrite Hev, Hst.
  unfold alertsOf, notifiedAlerts in *.
  rewrite !omap_app, Ha, Hn, Hnot, last_snoc. simpl.
  split; [|split; [by destruct (dm_notifier d); rewrite ?app_nil_r|done]].
  apply noRepeat_snoc; [done|]. intros m' Hlast ->.
  rewrite Hlast in Hhash. unfold dispatches in Hdisp. rewrite Hhash in Hdisp.
  rewrite String.eqb_refl, orb_false_r in Hdisp.
  apply String.eqb_eq in Hdisp. by apply alertHash_nonempty in Hdisp.
Qed.

Lemma poll_preserves env : Preserves (poll d env).
Proof.
  assert (forall s1 s2 s3, sameHash s1 s2 -> sameHash s2 s3 ->
                           sameHash s1 s3) as Htrans by solveR.
  unfold poll.
  destruct (pe_fetch env) as [e|ret];
    [apply Preserves_silent; silent|].
  destruct (parseSES ret) as [curr|e|]; [|apply Preserves_silent; silent..].
  apply (Preserves_defer _ curr). apply Preserves_bind.
  { apply Preserves_silent. destruct (OutputDir (dm_cfg d)); [|silent].
    apply writeCurrentData_silent; solveR. }
  intros _. apply Preserves_getState. intros w Hinv.
  destruct (previousResults (w_state w)) as [prev|];
    [|apply Preserves_silent; [silent | done]].
  revert w Hinv. change (Preserves ?m) with (forall w, alertInv d w -> alertInv d (snd (m w))).
  apply Preserves_bind; [apply Preserves_silent; silent|]. intros v.
  apply Preserves_bind; [apply Preserves_silent; silent|]. intros _.
  destruct (length (rowsDiff prev curr) =? 0)%nat;
    [apply Preserves_silent; silent|].
  apply Preserves_bind; [apply Preserves_silent; silent|]. intros v'.
  apply Preserves_bind; [apply Preserves_silent; silent|]. intros _.
  apply Preserves_getState. intros w Hinv.
  destruct (negb (String.eqb (lastAlertHash (w_state w)) "")
            && String.eqb (lastAlertHash (w_state w))
                 (alertHash (buildMessage
                               (changesAsText (rowsDiff prev curr)))))
    eqn:Ecase.
  - apply Preserves_silent; [silent | done].
  - set (msg := buildMessage (changesAsText (rowsDiff prev curr))) in *.
    set (report := {| cr_Device := dm_device d;
                      cr_DetectedAt := time_FormatRFC3339 (pe_detectedAt env);
                      cr_Changes := sortChanges (rowsDiff prev curr) |}).
    assert (dispatches (lastAlertHash (w_state w)) (alertHash msg) = true)
      as Hdisp.
    { unfold dispatches.
      destruct (String.eqb (lastAlertHash (w_state w)) "");
        [done | simpl in *; by rewrite Ecase]. }
    pose proof (handleAlert_preserves (pe_reportAt env) msg report w Hinv
                  Hdisp) as Hafter.
    destruct (handleAlert_effects d (pe_reportAt env) (alertHash msg) msg
                report w) as (w' & evs & Hrun & _).
    rewrite Hrun in Hafter.
    by rewrite (bindM_returns _ _ _ _ _ Hrun).
Qed.

Lemma pollOnce_preserves env fenv : Preserves (pollOnce d env fenv).
Proof.
  unfold pollOnce. apply Preserves_bind; [apply poll_preserves|].
  intros [e|]; apply Preserves_silent;
    [apply pollFailure_silent | silent].
Qed.

Lemma tickerLoop_preserves inputs : Preserves (tickerLoop d inputs).
Proof.
  assert (forall s1 s2 s3, sameHash s1 s2 -> sameHash s2 s3 ->
                           sameHash s1 s3) as Htrans by solveR.
  induction inputs as [|[env fenv| | |] inputs IH]; simpl.
  - apply Preserves_silent; silent.
  - apply Preserves_bind; [apply pollOnce_preserves | done].
  - apply Preserves_silent; silent.
  - apply Preserves_getState. intros w Hinv.
    destruct (stopClosed (w_state w)); [done | by apply IH].
  - apply Preserves_bind;
      [apply Preserves_silent, Stop_silent | done].
Qed.

Lemma Start_preserves env fenv inputs w :
  alertInv d w -> alertInv d (Start d env fenv inputs w).
Proof.
  assert (forall s1 s2 s3, sameHash s1 s2 -> sameHash s2 s3 ->
                           sameHash s1 s3) as Htrans by solveR.
  intros Hinv. unfold Start.
  match goal with
  | |- context [match ?task w with _ => _ end] =>
      assert (alertInv d (snd (task w))) as Htask
  end.
  { revert w Hinv.
    apply Preserves_bind; [apply Preserves_silent; silent|]. intros _.
    apply Preserves_bind; [apply pollOnce_preserves|]. intros _.
    apply Preserves_bind; [apply Preserves_silent; silent|].
    intros interval.
    destruct (interval <=? 0);
      [apply Preserves_silent; silent | apply tickerLoop_preserves]. }
  match goal with
  | |- context [match ?task w with _ => _ end] =>
      destruct (task w) as [[[|]|] w1]
  end; simpl in Htask; [|done|].
  - revert w1 Htask. apply Preserves_bind;
      [apply Preserves_silent, Stop_silent|]. intros _.
    apply Preserves_silent. silent.
  - revert w1 Htask. apply Preserves_bind;
      [apply Preserves_silent, Stop_silent|]. intros _.
    apply Preserves_silent. silent.
Qed.
End AlertInvariant.

Section AlertTheorems.
Context `{GoLib} `{GoCodec} `{GoTime} {F : Type} `{AferoFs F}.
Variable d : DeviceMonitor.

(** One poll that finds changes, seen from outside. *)
Lemma poll_changes env w ret curr prev v :
  pe_fetch env = inr ret ->
  parseSES ret = Ok curr ->
  previousResults (w_state w) = Some prev ->
  Verbose (dm_cfg d) = Some v ->
  rowsDiff prev curr <> [] ->
  let changes := rowsDiff prev curr in
  let msg := buildMessage (changesAsText changes) in
  let hash := alertHash msg in
  let report := {| cr_Device := dm_device d;
                   cr_DetectedAt := time_FormatRFC3339 (pe_detectedAt env);
                   cr_Changes := sortChanges changes |} in
  let w1 := snd (pollPrelude d env ret curr v (length changes) w) in
  exists w' evs,
    poll d env w = (Some None, w') /\
    w_events w' = w_events w ++ evs /\
    previousResults (w_state w') = Some curr /\
    if dispatches (lastAlertHash (w_state w)) hash then
      alertsOf evs = [msg] /\
      notifiedAlerts evs =
        match dm_notifier d with Some _ => [msg] | None => [] end /\
      lastAlertHash (w_state w') = hash /\
      w_fs w' =
        match OutputDir (dm_cfg d) with
        | Some _ =>
            w_fs (snd (writeChangeReport d (pe_reportAt env) report w1))
        | None => w_fs w1
        end
    else
      alertsOf evs = [] /\ notifiedAlerts evs = [] /\
      EvLog LogAlertSkipped ∈ evs /\
      lastAlertHash (w_state w') = lastAlertHash (w_state w) /\
      w_fs w' = w_fs w1.
Proof.
  intros Hfetch Hparse Hprev Hverbose Hchanges changes msg hash report w1.
  destruct (pollPrelude_silent d env ret curr v (length changes) w)
    as (Hst1 & evs1 & Hev1 & Ha1 & Hn1).
  pose proof (pollPrelude_total d env ret curr v (length changes) w)
    as Htot1.
  fold w1 in Hst1, Hev1, Htot1.
  assert (poll d env w =
          deferM (withPrevious curr)
            (fun w0 =>
               if dispatches (lastAlertHash (w_state w0)) hash
               then (handleAlert d (pe_reportAt env) hash msg report ;;
                     retM None) w0
               else (logM LogAlertSkipped ;; retM None) w0) w1) as Hpoll.
  { unfold poll. rewrite Hfetch, Hparse. unfold deferM at 1.
    unfold pollPrelude in w1, Htot1.
    match goal with
    | |- context [bindM ?m0 _ w] =>
        destruct (m0 w) as [r0 wa] eqn:Ea
    end.
    assert (r0 = Some tt /\ w_state wa = w_state w) as [-> Hsta].
    { revert Htot1. subst w1. unfold bindM at 1 2. rewrite Ea.
      destruct r0 as [[]|]; [|discriminate]. intros _. split; [done|].
      destruct (OutputDir (dm_cfg d)).
      - destruct (writeCurrentData_silent d eq (pe_capturedAt env) ret curr
                    ltac:(done) ltac:(intros; congruence) w) as [Hs _].
        rewrite Ea in Hs. done.
      - by injection Ea as <-. }
    rewrite (bindM_returns _ _ _ _ _ Ea).
    unfold getState at 1. unfold bindM at 1. simpl.
    rewrite Hsta, Hprev, Hverbose. simpl.
    fold changes.
    assert ((length changes =? 0)%nat = false) as ->
      by (apply Nat.eqb_neq; intros E; apply Hchanges;
          by apply length_zero_iff_nil).
    assert (w1 = snd ((whenM v (logM (LogBatchElements (size curr))) ;;
                       whenM v (logM (LogChangesDetected (length changes))))
                        wa)) as ->
      by (subst w1; by rewrite (bindM_returns _ _ _ _ _ Ea)).
    fold msg. fold hash. fold report.
    destruct v;
      unfold deferM, bindM, whenM, logM, emit, retM, getState,
        withPrevious, dispatches;
      cbn [fst snd w_state w_events w_fs];
      destruct (String.eqb (lastAlertHash (w_state wa)) "");
      destruct (String.eqb (lastAlertHash (w_state wa)) hash);
      reflexivity. }
  rewrite Hpoll. unfold deferM. cbv beta. rewrite Hst1.
  destruct (dispatches (lastAlertHash (w_state w1)) hash) eqn:Edisp.
  - destruct (handleAlert_effects d (pe_reportAt env) hash msg report w1)
      as (w2 & evs2 & Hrun & Hev2 & Ha2 & Hn2 & Hst2 & Hfs2).
    rewrite (bindM_returns _ _ _ _ _ Hrun). simpl.
    eexists _, (evs1 ++ evs2). split; [reflexivity|]. simpl.
    split; [by rewrite Hev2, Hev1, app_assoc|]. split; [done|].
    unfold alertsOf, notifiedAlerts in *.
    rewrite !omap_app, Ha1, Hn1, Ha2, Hn2, Hst2. simpl.
    repeat split; try done.
  - simpl. eexists _, (evs1 ++ [EvLog LogAlertSkipped]).
    split; [reflexivity|]. simpl.
    split; [by rewrite Hev1, app_assoc|]. split; [done|].
    unfold alertsOf, notifiedAlerts in *.
    rewrite !omap_app, Ha1, Hn1. simpl.
    repeat split; try done.
    apply elem_of_app. right. by left.
Qed.

(** C4. When a poll produces a non-empty change set, [handleAlert] runs
    (the alert line is logged, the notifier task is started when there is
    a notifier, the change report is written when there is an output
    directory) exactly when [lastAlertHash] is empty or differs from the
    hex SHA-256 of the space-joined change lines; it then sets
    [lastAlertHash] to that hash, and otherwise leaves it unchanged and
    writes no report. Over a whole run of a monitor, [lastAlertHash] is
    the hash of the last alert, every alert goes to the notifier, and no
    alert has the message of the alert before it. *)
Theorem alert_dedup :
  (forall env w ret curr prev v,
     pe_fetch env = inr ret ->
     parseSES ret = Ok curr ->
     previousResults (w_state w) = Some prev ->
     Verbose (dm_cfg d) = Some v ->
     rowsDiff prev curr <> [] ->
     let changes := rowsDiff prev curr in
     let msg := buildMessage (changesAsText changes) in
     let hash := alertHash msg in
     let report := {| cr_Device := dm_device d;
                      cr_DetectedAt :=
                        time_FormatRFC3339 (pe_detectedAt env);
                      cr_Changes := sortChanges changes |} in
     let w1 := snd (pollPrelude d env ret curr v (length changes) w) in
     exists w' evs,
       poll d env w = (Some None, w') /\
       w_events w' = w_events w ++ evs /\
       previousResults (w_state w') = Some curr /\
       if dispatches (lastAlertHash (w_state w)) hash then
         alertsOf evs = [msg] /\
         notifiedAlerts evs =
           match dm_notifier d with Some _ => [msg] | None => [] end /\
         lastAlertHash (w_state w') = hash /\
         w_fs w' =
           match OutputDir (dm_cfg d) with
           | Some _ =>
               w_fs (snd (writeChangeReport d (pe_reportAt env) report w1))
           | None => w_fs w1
           end
       else
         alertsOf evs = [] /\ notifiedAlerts evs = [] /\
         EvLog LogAlertSkipped ∈ evs /\
         lastAlertHash (w_state w') = lastAlertHash (w_state w) /\
         w_fs w' = w_fs w1) /\
  ((forall m, length (sha256_Sum256 m) = 32%nat) ->
   forall env fenv inputs (fs : F),
     let w' := Start d env fenv inputs
                 {| w_state := newDeviceMonitorState; w_fs := fs;
                    w_events := [] |} in
     noRepeat (alertsOf (w_events w')) /\
     noRepeat (notifiedAlerts (w_events w')) /\
     notifiedAlerts (w_events w') =
       match dm_notifier d with
       | Some _ => alertsOf (w_events w')
       | None => []
       end /\
     lastAlertHash (w_state w') =
       match last (alertsOf (w_events w')) with
       | Some msg => alertHash msg
       | None => ""
       end).
Proof.
  split; [apply poll_changes|].
  intros Hlen env fenv inputs fs w'.
  assert (alertInv d w') as (Hrep & Hnot & Hhash).
  { apply Start_preserves; [done|]. unfold alertInv. simpl.
    by destruct (dm_notifier d). }
  split; [done|]. split; [|done].
  rewrite Hnot. by destruct (dm_notifier d).
Qed.

(** C10. If the context is cancelled or the stop channel is closed when
    [pollFailure] is entered, it returns at once: the state of the
    monitor is unchanged ([pollFailures] is not incremented, [Stop] has
    not run), nothing is logged, no notification is started, and the
    result does not depend on how a back-off wait would have ended. *)
Theorem pollFailure_cancelled_frame (env : FailEnv) (err : error)
    (w : World F) :
  fe_ctxDone env = true \/ stopClosed (w_state w) = true ->
  pollFailure d env err w = (Some tt, w).
Proof.
  intros Hdone. unfold pollFailure, bindM, getState. simpl.
  destruct Hdone as [-> | ->]; [reflexivity|].
  by rewrite orb_true_r.
Qed.
End AlertTheorems.

Lemma checksum32_length (m : string) : length (checksum32 m) = 32%nat.
Proof. unfold checksum32. by rewrite length_map, length_seq. Qed.

(** Scenarios S2 and S4 of the specification: the status goes from OK to
    Critical and the alert is raised; the same change set again raises
    none. *)
Lemma alert_dedup_witness :
  (pe_fetch envCritical = inr docCritical /\
   @parseSES asciiLib fixtureCodec docCritical
     = Ok {[ "15#0" := parsedCritical ]} /\
   previousResults (w_state worldAfterOK) = Some {[ "15#0" := parsedOK ]} /\
   Verbose (dm_cfg monitorSg0) = Some false /\
   @rowsDiff asciiLib {[ "15#0" := parsedOK ]} {[ "15#0" := parsedCritical ]}
     <> []) /\
  (exists w' evs,
     @poll asciiLib fixtureCodec utcTime MemFs memFs monitorSg0 envCritical
       worldAfterOK = (Some None, w') /\
     w_events w' = w_events worldAfterOK ++ evs /\
     length (alertsOf evs) = 1%nat /\
     notifiedAlerts evs = alertsOf evs /\
     lastAlertHash (w_state w') <> "") /\
  (forall m, length (@sha256_Sum256 asciiLib m) = 32%nat) /\
  noRepeat
    (notifiedAlerts
       (w_events
          (@Start asciiLib fixtureCodec utcTime MemFs memFs monitorSg0
             envOK ctxLive
             [InTick envCritical ctxLive; InTick envOK ctxLive;
              InTick envCritical ctxLive; InCtxDone]
             {| w_state := newDeviceMonitorState; w_fs := emptyFs;
                w_events := [] |}))).
Proof.
  assert (pe_fetch envCritical = inr docCritical) as H1 by reflexivity.
  assert (@parseSES asciiLib fixtureCodec docCritical
            = Ok {[ "15#0" := parsedCritical ]}) as H2
    by (vm_compute; reflexivity).
  assert (previousResults (w_state worldAfterOK)
            = Some {[ "15#0" := parsedOK ]}) as H3 by reflexivity.
  assert (Verbose (dm_cfg monitorSg0) = Some false) as H4 by reflexivity.
  assert (@rowsDiff asciiLib {[ "15#0" := parsedOK ]}
            {[ "15#0" := parsedCritical ]} <> []) as H5
    by (vm_compute; discriminate).
  split; [by repeat split|].
  pose proof (@alert_dedup asciiLib fixtureCodec utcTime MemFs memFs
                monitorSg0) as [Hstep Hrun].
  split; [|split; [exact checksum32_length|]].
  - destruct (Hstep envCritical worldAfterOK docCritical
                {[ "15#0" := parsedCritical ]} {[ "15#0" := parsedOK ]} false
                H1 H2 H3 H4 H5) as (w' & evs & Hpoll & Hev & _ & Hcase).
    match type of Hcase with
    | if ?c then _ else _ => change c with true in Hcase
    end.
    destruct Hcase as (Ha & Hn & Hhash & _).
    exists w', evs. split; [exact Hpoll|]. split; [exact Hev|].
    rewrite Ha, Hn, Hhash. split; [reflexivity|]. split; [reflexivity|].
    apply (@alertHash_nonempty asciiLib). exact checksum32_length.
  - apply (Hrun checksum32_length).
Defined.

(** A failed poll seen after the context was cancelled. *)
Lemma pollFailure_cancelled_frame_witness :
  (fe_ctxDone ctxCancelled = true \/
   stopClosed (w_state worldAfterOK) = true) /\
  pollFailure monitorSg0 ctxCancelled (errExternal "sg_ses: exit status 15")
    worldAfterOK = (Some tt, worldAfterOK).
Proof.
  assert (fe_ctxDone ctxCancelled = true \/
          stopClosed (w_state worldAfterOK) = true) as Hdone
    by (left; reflexivity).
  split; [exact Hdone|].
  exact (pollFailure_cancelled_frame monitorSg0 ctxCancelled
           (errExternal "sg_ses: exit status 15") worldAfterOK Hdone).
Defined.

(** ** Change-report writer *)

Lemma memFs_writeTruncates : @writeTruncates MemFs memFs.
Proof.
  intros fs fs' p data perm. simpl.
  destruct (bool_decide (p ∈ mem_dirs fs)); [discriminate|].
  intros [= <-]. simpl. by rewrite lookup_insert_eq.
Qed.

Lemma formatStamp_sameSecond (t1 t2 : Time) :
  sameSecond t1 t2 -> formatStamp t1 = formatStamp t2.
Proof.
  intros (Hy & Hmo & Hd & Hh & Hmi & Hs). unfold formatStamp. congruence.
Qed.

(** C6, as the code has it. [writeChangeReport] creates the output
    directory and hands the pretty-printed report to [afero.WriteFile] at
    [<outputDir>/change-YYYYMMDD-HHMMSS.json]; the name depends on the time
    only up to the second; there is no check for an existing file, and as
    [afero.WriteFile] truncates, after a successful call the file holds
    this report whatever it held before. *)
Theorem writeChangeReport_replaces `{GoLib} `{GoCodec} {F : Type} `{AferoFs F}
    (d : DeviceMonitor) (now : Time) (report : ChangeReport) (w : World F)
    (dir data : string) :
  OutputDir (dm_cfg d) = Some dir ->
  json_MarshalIndent_report report = inr data ->
  (forall fs1,
     fs_MkdirAll (w_fs w) dir baseFolderPerms = (None, fs1) ->
     writeChangeReport d now report w =
       (Some match fst (afero_WriteFile fs1 (reportPath dir now) data
                          baseFilePerms) with
             | Some e => Some (errWrap "failure writing to file" e)
             | None => None
             end,
        {| w_state := w_state w;
           w_fs := snd (afero_WriteFile fs1 (reportPath dir now) data
                          baseFilePerms);
           w_events := w_events w |})) /\
  (forall now', sameSecond now' now ->
                reportPath dir now' = reportPath dir now) /\
  (writeTruncates F ->
   fst (writeChangeReport d now report w) = Some None ->
   afero_ReadFile (w_fs (snd (writeChangeReport d now report w)))
     (reportPath dir now) = inr data).
Proof.
  intros Hdir Hdata.
  assert (forall fs1,
     fs_MkdirAll (w_fs w) dir baseFolderPerms = (None, fs1) ->
     writeChangeReport d now report w =
       (Some match fst (afero_WriteFile fs1 (reportPath dir now) data
                          baseFilePerms) with
             | Some e => Some (errWrap "failure writing to file" e)
             | None => None
             end,
        {| w_state := w_state w;
           w_fs := snd (afero_WriteFile fs1 (reportPath dir now) data
                          baseFilePerms);
           w_events := w_events w |})) as Hrun.
  { intros fs1 Hmk.
    unfold writeChangeReport, ensureDeviceFolder, bindM, derefM, onFs, retM,
      reportPath.
    rewrite Hdir. simpl. rewrite Hmk. simpl. rewrite Hdata. simpl.
    destruct (afero_WriteFile _ _ _ _) as [[e|] fs2]; reflexivity. }
  split; [exact Hrun|]. split.
  - intros now' Hsame. unfold reportPath.
    by rewrite (formatStamp_sameSecond now' now).
  - intros Htrunc Hok.
    destruct (fs_MkdirAll (w_fs w) dir baseFolderPerms) as [[e|] fs1] eqn:Hmk.
    + exfalso. revert Hok.
      unfold writeChangeReport, ensureDeviceFolder, bindM, derefM, onFs, retM.
      rewrite Hdir. simpl. rewrite Hmk. discriminate.
    + rewrite (Hrun fs1 eq_refl) in *. simpl in *.
      destruct (afero_WriteFile fs1 (reportPath dir now) data baseFilePerms)
        as [[e|] fs2] eqn:Hwrite; [discriminate|].
      simpl. by apply (Htrunc fs1 fs2 _ _ baseFilePerms).
Qed.

(** Two reports written within the same second: the second call succeeds
    and the file then holds the second report. *)
Lemma writeChangeReport_replaces_witness :
  (OutputDir (dm_cfg monitorSg0) = Some "/output" /\
   @json_MarshalIndent_report fixtureCodec reportSecond
     = inr "report 2025-01-01T12:00:00Z 23#1" /\
   @writeTruncates MemFs memFs /\
   fst (@writeChangeReport asciiLib fixtureCodec MemFs memFs monitorSg0
          noonAndHalf reportSecond
          (snd (@writeChangeReport asciiLib fixtureCodec MemFs memFs
                  monitorSg0 noon reportFirst freshWorld))) = Some None) /\
  @afero_ReadFile MemFs memFs
    (w_fs (snd (@writeChangeReport asciiLib fixtureCodec MemFs memFs
                  monitorSg0 noonAndHalf reportSecond
                  (snd (@writeChangeReport asciiLib fixtureCodec MemFs memFs
                          monitorSg0 noon reportFirst freshWorld)))))
    "/output/change-20250101-120000.json"
  = inr "report 2025-01-01T12:00:00Z 23#1".
Proof.
  assert (OutputDir (dm_cfg monitorSg0) = Some "/output") as H1
    by reflexivity.
  assert (@json_MarshalIndent_report fixtureCodec reportSecond
            = inr "report 2025-01-01T12:00:00Z 23#1") as H2 by reflexivity.
  assert (fst (@writeChangeReport asciiLib fixtureCodec MemFs memFs
                 monitorSg0 noonAndHalf reportSecond
                 (snd (@writeChangeReport asciiLib fixtureCodec MemFs memFs
                         monitorSg0 noon reportFirst freshWorld)))
          = Some None) as H3 by (vm_compute; reflexivity).
  split; [by repeat split; try apply memFs_writeTruncates|].
  exact (proj2 (proj2 (@writeChangeReport_replaces asciiLib fixtureCodec
                         MemFs memFs monitorSg0 noonAndHalf reportSecond _
                         "/output" _ H1 H2))
           memFs_writeTruncates H3).
Defined.

(** C6, as stated, fails: the second of two reports written within the
    same second does not return an error, and the file changes. *)
Lemma writeChangeReport_overwrites :
  ~ @refusesOverwrite asciiLib fixtureCodec MemFs memFs monitorSg0 "/output"
      noon noonAndHalf reportFirst reportSecond freshWorld.
Proof.
  unfold refusesOverwrite. intros Hclaim.
  destruct Hclaim as [[e He] _];
    [vm_compute; reflexivity | vm_compute; reflexivity |].
  vm_compute in He. discriminate He.
Qed.

(** ** Supervisor *)

Section SupervisorFacts.
Context `{GoLib} `{GoYAML} {F : Type} `{AferoFs F}.
Variable afero_NewOsFs : F.

Lemma setupDeviceMonitor_config (cfg cfg' : ConfigYAML) deviceCfg
    (fsys : F) r :
  DisableTimestamps cfg = DisableTimestamps cfg' ->
  setupDeviceMonitor cfg deviceCfg fsys r =
  setupDeviceMonitor cfg' deviceCfg fsys r.
Proof. intros E. unfold setupDeviceMonitor. by rewrite E. Qed.

Lemma setupDevices_config (cfg cfg' : ConfigYAML) (fsys : F) finder r
    i devs s :
  DisableTimestamps cfg = DisableTimestamps cfg' ->
  setupDevices cfg fsys finder r i devs s =
  setupDevices cfg' fsys finder r i devs s.
Proof.
  intros E. revert i s. induction devs as [|dev devs IH]; intros i s;
    simpl; [done|].
  destruct (negb (dy_Enabled dev)); [apply IH|].
  destruct (_ && _); [done|].
  destruct (match dy_MonitorConfig dev with Some _ => _ | None => _ end)
    as [e|seen]; [done|].
  destruct (lookupDevice dev finder) as [[[e|] dev'] lines]; [done|].
  simpl. destruct (su_monitors s !! dy_Device dev'); [done|].
  rewrite (setupDeviceMonitor_config cfg cfg') by done.
  destruct (setupDeviceMonitor cfg' dev' fsys r); [done | apply IH].
Qed.

Lemma setupDevices_skip (cfg : ConfigYAML) (fsys : F) finder r i dev devs s :
  dy_Enabled dev = false ->
  setupDevices cfg fsys finder r i (dev :: devs) s =
  setupDevices cfg fsys finder r (i + 1) devs s.
Proof. intros E. simpl. by rewrite E. Qed.

Lemma setupDevices_disabled_entry (cfg : ConfigYAML) (fsys : F) finder r
    pre post dis dis' i s :
  dy_Enabled dis = false -> dy_Enabled dis' = false ->
  setupDevices cfg fsys finder r i (pre ++ dis :: post) s =
  setupDevices cfg fsys finder r i (pre ++ dis' :: post) s.
Proof.
  intros E E'. revert i s. induction pre as [|dev pre IH]; intros i s.
  - simpl. by rewrite E, E'.
  - simpl. destruct (negb (dy_Enabled dev)); [apply IH|].
    destruct (_ && _); [done|].
    destruct (match dy_MonitorConfig dev with Some _ => _ | None => _ end)
      as [e|seen]; [done|].
    destruct (lookupDevice dev finder) as [[[e|] dev'] lines]; [done|].
    simpl. destruct (su_monitors s !! dy_Device dev'); [done|].
    destruct (setupDeviceMonitor cfg dev' fsys r); [done | apply IH].
Qed.

Lemma setupDevices_all_disabled (cfg : ConfigYAML) (fsys : F) finder r
    i devs s :
  Forall (fun dev => dy_Enabled dev = false) devs ->
  setupDevices cfg fsys finder r i devs s = (None, s).
Proof.
  intros Hall. revert i. induction Hall as [|dev devs E _ IH]; intros i;
    simpl; [done|]. rewrite E. apply IH.
Qed.

(** C9. A device entry whose [enabled] field is false (the value it has
    when the YAML entry does not give it) is skipped by [NewProgram]: the
    loop goes on to the next entry with its state unchanged, so none of
    the checks is applied to the entry and no monitor is made for it; the
    result of [NewProgram] (error or program, and the log) is the same
    whatever the entry contains; and a configuration whose entries are
    all disabled yields a program without monitors. *)
Theorem NewProgram_skips_disabled (f : option F) (d : option DeviceLookuper)
    (r : option CommandRunner) :
  (forall cfg fsys finder i dev devs s,
     dy_Enabled dev = false ->
     setupDevices cfg fsys finder r i (dev :: devs) s =
     setupDevices cfg fsys finder r (i + 1) devs s) /\
  (forall y y' cfg cfg' pre post dis dis',
     yaml_Decode y = inr cfg -> yaml_Decode y' = inr cfg' ->
     DisableTimestamps cfg = DisableTimestamps cfg' ->
     Devices cfg = pre ++ dis :: post ->
     Devices cfg' = pre ++ dis' :: post ->
     dy_Enabled dis = false -> dy_Enabled dis' = false ->
     NewProgram afero_NewOsFs y f d r = NewProgram afero_NewOsFs y' f d r) /\
  (forall y cfg,
     yaml_Decode y = inr cfg -> Devices cfg <> [] ->
     Forall (fun dev => dy_Enabled dev = false) (Devices cfg) ->
     exists logger lines,
       NewProgram afero_NewOsFs y f d r =
       (inr {| monitors := ∅; prog_logger := logger |}, lines)).
Proof.
  split; [intros; by apply setupDevices_skip|]. split.
  - intros y y' cfg cfg' pre post dis dis' Hy Hy' Hts Hdevs Hdevs' E E'.
    unfold NewProgram. rewrite Hy, Hy', Hdevs, Hdevs', !length_app. simpl.
    destruct (_ =? 0)%nat; [done|]. rewrite Hts.
    destruct (match d with Some _ => _ | None => _ end) as [finder lines].
    rewrite (setupDevices_config cfg cfg') by done.
    by rewrite (setupDevices_disabled_entry cfg' _ finder r pre post dis dis').
  - intros y cfg Hy Hne Hall. unfold NewProgram. rewrite Hy.
    destruct (length (Devices cfg) =? 0)%nat eqn:Elen.
    { apply Nat.eqb_eq, length_zero_iff_nil in Elen. contradiction. }
    destruct (match d with Some _ => _ | None => _ end) as [finder lines].
    rewrite setupDevices_all_disabled by done. by eexists _, _.
Qed.
End SupervisorFacts.

(** A disabled entry without device and address next to an enabled device,
    the same configuration with another disabled entry in its place, and a
    configuration of the disabled entry alone. *)
Lemma NewProgram_skips_disabled_witness :
  (@yaml_Decode fixtureYAML yamlSpare
     = inr {| DisableTimestamps := false;
              Devices := [entrySg0] ++ entrySpare :: [] |} /\
   @yaml_Decode fixtureYAML yamlRetired
     = inr {| DisableTimestamps := false;
              Devices := [entrySg0] ++ entryRetired :: [] |} /\
   dy_Enabled entrySpare = false /\ dy_Enabled entryRetired = false) /\
  @NewProgram asciiLib fixtureYAML MemFs memFs emptyFs yamlSpare
    (Some devFs) (Some noAddresses) (Some SuppliedRunner)
  = @NewProgram asciiLib fixtureYAML MemFs memFs emptyFs yamlRetired
      (Some devFs) (Some noAddresses) (Some SuppliedRunner) /\
  exists logger lines,
    @NewProgram asciiLib fixtureYAML MemFs memFs emptyFs yamlOnlySpare
      (Some devFs) (Some noAddresses) (Some SuppliedRunner)
    = (inr {| monitors := ∅; prog_logger := logger |}, lines).
Proof.
  pose proof (@NewProgram_skips_disabled asciiLib fixtureYAML MemFs memFs
                emptyFs (Some devFs) (Some noAddresses) (Some SuppliedRunner))
    as (_ & Hsame & Hnone).
  split; [by repeat split|]. split.
  - apply (Hsame yamlSpare yamlRetired
             {| DisableTimestamps := false;
                Devices := [entrySg0; entrySpare] |}
             {| DisableTimestamps := false;
                Devices := [entrySg0; entryRetired] |}
             [entrySg0] [] entrySpare entryRetired); reflexivity.
  - apply (Hnone yamlOnlySpare
             {| DisableTimestamps := false; Devices := [entrySpare] |});
      [reflexivity | discriminate | by repeat constructor].
Defined.

(** ** Further examples *)

(** The description of a status is compared without regard to case. *)
Example rowsEqual_ignores_case :
  @rowsEqual asciiLib parsedOK
    (setStatusDesc (Some "ok") parsedOK) = true /\
  @rowsEqual asciiLib parsedOK parsedCritical = false.
Proof. split; reflexivity. Qed.

(** Scenario S1 of the specification. *)
Example parseSES_scenario_S1 :
  @parseSES asciiLib fixtureCodec docOK = Ok {[ "15#0" := parsedOK ]}.
Proof. vm_compute. reflexivity. Qed.

(** Boundary B4 of the specification: one attempt at a failing
    operation. *)
Example withRetries_single_attempt :
  withRetries background (Some (failsBefore 2)) None 1 Second 0%nat =
    {| rt_attempt := 1; rt_err := Some (errExternal "busy");
       rt_world := 1%nat; rt_calls := [Some (errExternal "busy")] |}.
Proof. reflexivity. Qed.

(** Scenario S5 of the specification: the third failed poll in a row
    starts the back-off, notifies, and resets the counter when the wait
    ends. *)
Example pollFailure_backoff :
  let failing := errExternal "sg_ses: exit status 15" in
  let w3 := snd ((pollFailure monitorSg0 ctxLive failing ;;
                  pollFailure monitorSg0 ctxLive failing ;;
                  pollFailure monitorSg0 ctxLive failing) freshWorld) in
  pollFailures (w_state w3) = 0 /\
  w_events w3 =
    [ EvLog (LogPollError 1 3 failing); EvLog (LogPollError 2 3 failing);
      EvLog (LogMessage (MsgBackoff 3 3 (3 * Minute) failing));
      EvNotify (dm_device monitorSg0)
        (MsgBackoff 3 3 (3 * Minute) failing) None ].
Proof. split; reflexivity. Qed.

(** * Further properties of the code *)

(** ** Keys of results *)

Lemma lacksChar_app (c : ascii) (s t : string) :
  lacksChar c (s +:+ t) <-> lacksChar c s /\ lacksChar c t.
Proof. induction s as [|a s IH]; simpl; [tauto | rewrite IH; tauto]. Qed.

Lemma string_of_uint_lacks_hash (d : Decimal.uint) :
  lacksChar "#" (NilEmpty.string_of_uint d).
Proof. induction d; simpl; try done; split; (discriminate || done). Qed.

Lemma strconv_Itoa_lacks_hash (z : Z) : lacksChar "#" (strconv_Itoa z).
Proof.
  unfold strconv_Itoa.
  assert (forall d, lacksChar "#" (NilZero.string_of_uint d)) as Hu.
  { intros d. destruct d; try apply (string_of_uint_lacks_hash (_ d)).
    simpl. split; [discriminate | done]. }
  destruct (Z.to_int z) as [d|d]; simpl; [apply Hu|].
  split; [discriminate | apply Hu].
Qed.

Lemma strconv_Itoa_inj (z z' : Z) : strconv_Itoa z = strconv_Itoa z' -> z = z'.
Proof.
  unfold strconv_Itoa. intros E. apply DecimalZ.to_int_inj.
  assert (forall n, NilZero.int_of_string (NilZero.string_of_int (Z.to_int n))
                    = Some (Z.to_int n)) as Hisi.
  { intros n. apply NilZero.isi; destruct n; simpl; try discriminate;
      intros [= Hnil]; by apply Unsigned.to_uint_nonnil in Hnil. }
  pose proof (Hisi z) as H1. rewrite E, Hisi in H1. by injection H1.
Qed.

(** A text is split in one way only at the first occurrence of a
    character. *)
Lemma split_at_char (c : ascii) (s s' t t' : string) :
  lacksChar c s -> lacksChar c s' ->
  s +:+ String c t = s' +:+ String c t' -> s = s' /\ t = t'.
Proof.
  revert s'. induction s as [|a s IH]; intros [|a' s']; simpl.
  - intros _ _ [= ->]. done.
  - intros _ [Hne _] [= E _]. by destruct Hne.
  - intros [Hne _] _ [= E _]. by destruct Hne.
  - intros [_ Hs] [_ Hs'] [= -> E]. destruct (IH s' Hs Hs' E) as [-> ->]. done.
Qed.

Lemma keyFor_same_key (r1 r2 : Result) :
  keyFor r1 = keyFor r2 ->
  r_Type r1 = r_Type r2 /\ r_TypeNum r1 = r_TypeNum r2.
Proof.
  unfold keyFor. intros E.
  apply (split_at_char "#") in E as [E1 E2];
    try apply strconv_Itoa_lacks_hash.
  split; by apply strconv_Itoa_inj.
Qed.

Lemma keyFor_of_type_and_number (r1 r2 : Result) :
  r_Type r1 = r_Type r2 -> r_TypeNum r1 = r_TypeNum r2 ->
  keyFor r1 = keyFor r2.
Proof. unfold keyFor. by intros -> ->. Qed.

(** X1. [keyFor] gives two results the same key exactly when they have the
    same type and the same number. *)
Theorem keyFor_injective (r1 r2 : Result) :
  keyFor r1 = keyFor r2 <->
  r_Type r1 = r_Type r2 /\ r_TypeNum r1 = r_TypeNum r2.
Proof.
  split; [apply keyFor_same_key|].
  intros [Ht Hn]. by apply keyFor_of_type_and_number.
Qed.

Section ParserEntries.
Context `{GoLib} `{GoCodec}.

Lemma parseElements_lookup (els : list Element) (m0 m : gmap string Result) k :
  parseElements els m0 = Ok m ->
  m !! k = match last (filter (fun r => keyFor r = k) (keptResults els)) with
           | Some r => Some r
           | None => m0 !! k
           end.
Proof.
  revert m0. induction els as [|el els IH]; intros m0; simpl.
  - by intros [= ->].
  - unfold keptResults. simpl. fold (keptResults els).
    destruct (parseElement el) as [r| |]; [| apply IH | discriminate].
    intros Hrun. rewrite (IH _ Hrun), filter_cons.
    destruct (decide (keyFor r = k)) as [<-|Hne].
    + rewrite last_cons, lookup_insert_eq.
      by destruct (last (filter _ (keptResults els))).
    + by rewrite lookup_insert_ne.
Qed.

Lemma parseElements_size (els : list Element) (m0 m : gmap string Result) :
  parseElements els m0 = Ok m -> (size m <= size m0 + length els)%nat.
Proof.
  revert m0. induction els as [|el els IH]; intros m0; simpl.
  - intros [= ->]. lia.
  - destruct (parseElement el) as [r| |]; [| |discriminate].
    + intros Hrun. apply IH in Hrun. rewrite map_size_insert in Hrun.
      destruct (m0 !! keyFor r); simpl in Hrun; lia.
    + intros Hrun. apply IH in Hrun. lia.
Qed.

Lemma keptResults_from (els : list Element) r :
  r ∈ keptResults els <-> exists el, el ∈ els /\ parseElement el = Next r.
Proof.
  unfold keptResults. rewrite list_elem_of_omap. split.
  - intros (el & Hin & Hel). exists el. split; [done|].
    destruct (parseElement el); by simplify_eq.
  - intros (el & Hin & Hel). exists el. by rewrite Hel.
Qed.

(** X2. In the map returned by [parseSES], the entry of a key is the
    result of the last element of the list that has this key, and a key
    that no kept element has is absent; the map has at most as many
    entries as the list has elements (an empty list gives an empty
    map). *)
Theorem parseSES_last_wins (b : string) (root : Root)
    (m : gmap string Result) :
  json_Unmarshal b = inr root ->
  parseSES b = Ok m ->
  (forall k, m !! k =
             last (filter (fun r => keyFor r = k)
                     (keptResults (ElementList (Join root))))) /\
  (size m <= length (ElementList (Join root)))%nat.
Proof.
  intros Hroot. unfold parseSES. rewrite Hroot. intros Hrun. split.
  - intros k. rewrite (parseElements_lookup _ _ _ k Hrun), lookup_empty.
    by destruct (last _).
  - apply parseElements_size in Hrun. by rewrite map_size_empty in Hrun.
Qed.

(** X3. Every entry of the map returned by [parseSES] is stored under the
    key of its value and comes from an element of the list; two entries
    have the same key exactly when their results have the same type and
    number, so the map holds one result for each type and number. *)
Theorem parseSES_unique_keys (b : string) (root : Root)
    (m : gmap string Result) :
  json_Unmarshal b = inr root ->
  parseSES b = Ok m ->
  wellKeyed m /\
  (forall k r, m !! k = Some r ->
               exists el, el ∈ ElementList (Join root) /\
                          parseElement el = Next r) /\
  (forall k1 k2 r1 r2,
     m !! k1 = Some r1 -> m !! k2 = Some r2 ->
     (k1 = k2 <-> r_Type r1 = r_Type r2 /\ r_TypeNum r1 = r_TypeNum r2)).
Proof.
  intros Hroot. unfold parseSES. rewrite Hroot. intros Hrun.
  assert (forall k r, m !! k = Some r ->
                      keyFor r = k /\
                      r ∈ keptResults (ElementList (Join root))) as Hentry.
  { intros k r. rewrite (parseElements_lookup _ _ _ k Hrun), lookup_empty.
    destruct (last _) as [r'|] eqn:Hlast; [|discriminate].
    intros [= ->]. apply last_Some_elem_of, list_elem_of_filter in Hlast.
    done. }
  assert (wellKeyed m) as Hkeyed.
  { intros k r Hk. by destruct (Hentry k r Hk). }
  split; [done|]. split.
  - intros k r Hk. apply keptResults_from. by destruct (Hentry k r Hk).
  - intros k1 k2 r1 r2 H1 H2.
    rewrite (Hkeyed k1 r1 H1), (Hkeyed k2 r2 H2). split.
    + apply keyFor_same_key.
    + intros [Ht Hn]. by apply keyFor_of_type_and_number.
Qed.
End ParserEntries.

(** A document that lists the enclosure twice, OK and then Critical:
    both elements are kept under the key ["15#0"], and the entry of the
    map is the result of the second. *)
Lemma parseSES_last_wins_witness :
  (@json_Unmarshal codecTwice docTwice
   = inr (rootOf [enclosureElement 1 "OK"; enclosureElement 2 "Critical"])
   /\ @parseSES asciiLib codecTwice docTwice
      = Ok {[ "15#0" := parsedCritical ]}) /\
  @keptResults asciiLib [enclosureElement 1 "OK"; enclosureElement 2 "Critical"]
  = [parsedOK; parsedCritical] /\
  keyFor parsedOK = "15#0" /\ keyFor parsedCritical = "15#0" /\
  ({[ "15#0" := parsedCritical ]} : gmap string Result) !! "15#0" =
    last (filter (fun r => keyFor r = "15#0")
            (@keptResults asciiLib
               [enclosureElement 1 "OK"; enclosureElement 2 "Critical"])) /\
  (size ({[ "15#0" := parsedCritical ]} : gmap string Result) <= 2)%nat.
Proof.
  assert (@json_Unmarshal codecTwice docTwice
          = inr (rootOf [enclosureElement 1 "OK";
                         enclosureElement 2 "Critical"])) as H1
    by reflexivity.
  assert (@parseSES asciiLib codecTwice docTwice
            = Ok {[ "15#0" := parsedCritical ]}) as H2
    by (vm_compute; reflexivity).
  split; [done|]. split; [reflexivity|].
  split; [reflexivity|]. split; [reflexivity|].
  destruct (@parseSES_last_wins asciiLib codecTwice docTwice _ _ H1 H2)
    as [Hlast Hsize].
  split; [apply (Hlast "15#0") | exact Hsize].
Defined.

Lemma parseSES_unique_keys_witness :
  (@json_Unmarshal fixtureCodec docOK = inr (rootOf [enclosureElement 1 "OK"])
   /\ @parseSES asciiLib fixtureCodec docOK = Ok {[ "15#0" := parsedOK ]}) /\
  wellKeyed {[ "15#0" := parsedOK ]}.
Proof.
  assert (@json_Unmarshal fixtureCodec docOK
            = inr (rootOf [enclosureElement 1 "OK"])) as H1 by reflexivity.
  assert (@parseSES asciiLib fixtureCodec docOK
            = Ok {[ "15#0" := parsedOK ]}) as H2 by (vm_compute; reflexivity).
  split; [done|].
  exact (proj1 (@parseSES_unique_keys asciiLib fixtureCodec docOK _ _ H1 H2)).
Defined.

Section ParserFields.
Context `{GoLib}.

(** X4. The result built from an element that is not skipped takes each
    field from the place of the element that the parser reads: type and
    number from [element_type.i] and [element_number] (type 0 without an
    [element_type] object), the flags and the status code unchanged, and
    every text field as [strings.TrimSpace] of its source, each absent
    exactly when its source is absent. *)
Theorem parseElement_fields (el : Element) (r : Result) :
  parseElement el = Next r ->
  let sd := el_StatusDescriptor el in
  r_Type r = default 0 (field (el_ElementType el) et_I) /\
  el_ElementNumber el = Some (r_TypeNum r) /\
  r_TypeDesc r =
    option_map strings_TrimSpace (field (el_ElementType el) et_Meaning) /\
  r_Status r = field (field sd sd_Status) cm_I /\
  r_StatusDesc r =
    option_map strings_TrimSpace (field (field sd sd_Status) cm_Meaning) /\
  r_PrdFail r = field sd sd_PrdFail /\
  r_Disabled r = field sd sd_Disabled /\
  r_Swap r = field sd sd_Swap /\
  r_Temperature r =
    option_map strings_TrimSpace (field (field sd sd_Temperature) cm_Meaning) /\
  r_Voltage r =
    option_map strings_TrimSpace (field (field sd sd_Voltage) vo_ValueInVolts) /\
  r_Amperage r =
    option_map strings_TrimSpace (field (field sd sd_Current) cu_ValueInAmps).
Proof.
  unfold parseElement. destruct el as [et n sd]; simpl.
  destruct et as [[[i|] m]|], n as [n|]; simpl; try discriminate;
    try (destruct m; discriminate).
  all: destruct sd as [[st pf di sw t v c]|]; simpl;
    [|try destruct m; intros [= <-]; by repeat split].
  all: destruct t as [[ti [tm|]]|]; simpl; try (intros; discriminate).
  all: destruct v as [[vr [vv|]]|]; simpl; try (intros; discriminate).
  all: destruct c as [[cr [cv|]]|]; simpl; try (intros; discriminate).
  all: try destruct m; destruct st as [[[si|] [sm|]]|], pf, di, sw;
    intros [= <-]; by repeat split.
Qed.
End ParserFields.

Lemma parseElement_fields_witness :
  @parseElement asciiLib (enclosureElement 1 " OK ") = Next parsedOK /\
  r_StatusDesc parsedOK = Some (asciiTrimSpace " OK ").
Proof.
  assert (@parseElement asciiLib (enclosureElement 1 " OK ") = Next parsedOK)
    as Hrun by (vm_compute; reflexivity).
  split; [exact Hrun|].
  destruct (@parseElement_fields asciiLib _ _ Hrun)
    as (_ & _ & _ & _ & Hdesc & _).
  exact Hdesc.
Defined.

(** ** Changes of a diff *)

Lemma asciiEqualFold_sym (s t : string) :
  asciiEqualFold s t = asciiEqualFold t s.
Proof.
  revert t. induction s as [|a s IH]; intros [|b t]; simpl; try done.
  rewrite IH, (N.eqb_sym (N_of_ascii b) (N_of_ascii a)).
  destruct (N.eqb_spec (N_of_ascii a) (N_of_ascii b)) as [E|Hne]; [done|].
  destruct (N.ltb_spec (N_of_ascii b) (N_of_ascii a)),
           (N.ltb_spec (N_of_ascii a) (N_of_ascii b)); try done; lia.
Qed.

Section DiffChanges.
Context `{GoLib}.

Lemma diffStep_change (prev curr : gmap string Result) k ch :
  ch ∈ diffStep prev curr [] k ->
  ch_ID ch = k /\ ch_Before ch = prev !! k /\ ch_After ch = curr !! k /\
  ch_Type ch = fnz (r_Type (default zeroResult (curr !! k)))
                   (r_Type (default zeroResult (prev !! k))) /\
  ch_TypeNum ch = fnz (r_TypeNum (default zeroResult (curr !! k)))
                      (r_TypeNum (default zeroResult (prev !! k))).
Proof.
  unfold diffStep, commaOk.
  destruct (prev !! k) as [p|], (curr !! k) as [c|]; simpl;
    try destruct (rowsEqual p c); simpl;
    intros Hin; try (by apply not_elem_of_nil in Hin);
    apply list_elem_of_singleton in Hin; by subst ch.
Qed.

Lemma elem_of_concat_map {A B} (f : A -> list B) (ks : list A) (x : B) :
  x ∈ concat (map f ks) <-> exists k, k ∈ ks /\ x ∈ f k.
Proof.
  induction ks as [|k ks IH]; simpl.
  - split; [intros Hin; by apply not_elem_of_nil in Hin|].
    intros (k & Hk & _). by apply not_elem_of_nil in Hk.
  - rewrite elem_of_app, IH. split.
    + intros [Hx|(k' & Hk' & Hx)].
      * exists k. split; [by left | done].
      * exists k'. split; [by right | done].
    + intros (k' & Hk' & Hx). apply elem_of_cons in Hk' as [->|Hk'].
      * by left.
      * right. by exists k'.
Qed.

Lemma rowsDiff_elem (prev curr : gmap string Result) ch :
  ch ∈ rowsDiff prev curr <->
  ch_ID ch ∈ dom prev ∪ dom curr /\ ch ∈ diffStep prev curr [] (ch_ID ch).
Proof.
  unfold rowsDiff. rewrite rowsDiff_foldl. simpl.
  rewrite elem_of_concat_map. split.
  - intros (k & Hk & Hch). apply elem_of_elements in Hk.
    pose proof (diffStep_ids _ _ _ _ Hch) as ->. done.
  - intros [Hk Hch]. exists (ch_ID ch).
    split; [by apply elem_of_elements | done].
Qed.

Lemma rowsDiff_ids_sublist (prev curr : gmap string Result) ks :
  ch_ID <$> concat (map (diffStep prev curr []) ks) `sublist_of` ks.
Proof.
  induction ks as [|k ks IH]; simpl; [constructor|].
  rewrite fmap_app.
  destruct (diffStep_cases prev curr k) as [->|(ch & -> & <-)]; simpl.
  - by apply sublist_cons.
  - by apply sublist_skip.
Qed.

(** X5. Every change in [rowsDiff prev curr] carries a key of one of the
    maps, its [Before] is what [prev] holds under that key and its [After]
    what [curr] holds, not both absent; and no two changes of the diff
    carry the same id. *)
Theorem rowsDiff_changes (prev curr : gmap string Result) :
  (forall ch,
     ch ∈ rowsDiff prev curr ->
     ch_ID ch ∈ dom prev ∪ dom curr /\
     ch_Before ch = prev !! ch_ID ch /\
     ch_After ch = curr !! ch_ID ch /\
     (is_Some (ch_Before ch) \/ is_Some (ch_After ch))) /\
  NoDup (ch_ID <$> rowsDiff prev curr).
Proof.
  split.
  - intros ch Hch. apply rowsDiff_elem in Hch as [Hk Hch].
    destruct (diffStep_change _ _ _ _ Hch) as (_ & Hb & Ha & _).
    split; [done|]. split; [done|]. split; [done|].
    rewrite Hb, Ha. apply elem_of_union in Hk as [Hk|Hk];
      apply elem_of_dom in Hk; tauto.
  - unfold rowsDiff. rewrite rowsDiff_foldl. simpl.
    eapply sublist_NoDup; [|apply rowsDiff_ids_sublist].
    apply NoDup_elements.
Qed.

Lemma rowsEqual_sym (a b : Result) :
  (forall s t, strings_EqualFold s t = strings_EqualFold t s) ->
  rowsEqual a b = rowsEqual b a.
Proof.
  intros Hsym. unfold rowsEqual.
  assert (forall x y, ptrIntEqual x y = ptrIntEqual y x) as Hint.
  { intros [x|] [y|]; simpl; try done. apply Z.eqb_sym. }
  assert (ptrStrEqualFold (r_StatusDesc a) (r_StatusDesc b)
          = ptrStrEqualFold (r_StatusDesc b) (r_StatusDesc a)) as ->
    by (destruct (r_StatusDesc a) as [x|], (r_StatusDesc b) as [y|]; simpl;
        [apply Hsym | done..]).
  by rewrite (Hint (r_Status a)), (Hint (r_PrdFail a)), (Hint (r_Disabled a)),
       (Hint (r_Swap a)).
Qed.

(** X6. As [strings.EqualFold] does not depend on the order of its
    arguments, the diffs in the two directions have the same number of
    changes, with the same ids, and every change of one is in the other
    with [Before] and [After] exchanged. *)
Theorem rowsDiff_symmetric (a b : gmap string Result) :
  (forall s t, strings_EqualFold s t = strings_EqualFold t s) ->
  length (rowsDiff a b) = length (rowsDiff b a) /\
  (forall k, changesWithID k (rowsDiff a b) = changesWithID k (rowsDiff b a)) /\
  (forall ch, ch ∈ rowsDiff a b ->
              exists ch', ch' ∈ rowsDiff b a /\ swapped ch ch').
Proof.
  intros Hsym.
  assert (forall k, length (diffStep a b [] k) = length (diffStep b a [] k))
    as Hstep.
  { intros k. rewrite !diffStep_length.
    destruct (a !! k) as [p|], (b !! k) as [c|]; try done.
    by rewrite (rowsEqual_sym p c). }
  split; [|split].
  - unfold rowsDiff. rewrite !rowsDiff_foldl. simpl.
    rewrite (union_comm_L (dom b) (dom a)).
    induction (elements (dom a ∪ dom b)) as [|k ks IH]; simpl; [done|].
    by rewrite !length_app, IH, Hstep.
  - intros k. rewrite !changesWithID_rowsDiff.
    by rewrite (union_comm_L (dom b) (dom a)), Hstep.
  - intros ch Hch. apply rowsDiff_elem in Hch as [Hk Hch].
    destruct (diffStep_change _ _ _ _ Hch) as (_ & Hb & Ha & _).
    assert (diffStep b a [] (ch_ID ch) <> []) as Hne.
    { intros E. apply (f_equal length) in E. rewrite <- Hstep in E.
      destruct (diffStep a b [] (ch_ID ch)); [|discriminate].
      by apply not_elem_of_nil in Hch. }
    destruct (diffStep_cases b a (ch_ID ch)) as [E|(ch' & E & Hid)]; [done|].
    assert (ch' ∈ diffStep b a [] (ch_ID ch)) as Hch'
      by (rewrite E; by left).
    exists ch'. split.
    + apply rowsDiff_elem. rewrite Hid.
      split; [by rewrite (union_comm_L (dom b) (dom a)) | done].
    + destruct (diffStep_change _ _ _ _ Hch') as (_ & Hb' & Ha' & _).
      unfold swapped. by rewrite Hid, Hb', Ha', Hb, Ha.
Qed.

(** X7. For maps whose entries are stored under the key of their value,
    as those of [parseSES] are, a change carries the type and the number
    of its element, whichever side it is present on: its id is the key
    made of its type and number. *)
Theorem rowsDiff_carries_type (prev curr : gmap string Result) (ch : Change) :
  wellKeyed prev -> wellKeyed curr ->
  ch ∈ rowsDiff prev curr ->
  ch_ID ch = strconv_Itoa (ch_Type ch) +:+ "#" +:+ strconv_Itoa (ch_TypeNum ch)
  /\ (forall r, ch_Before ch = Some r ->
                r_Type r = ch_Type ch /\ r_TypeNum r = ch_TypeNum ch) /\
  (forall r, ch_After ch = Some r ->
             r_Type r = ch_Type ch /\ r_TypeNum r = ch_TypeNum ch).
Proof.
  intros Hprev Hcurr Hch. apply rowsDiff_elem in Hch as [Hk Hch].
  destruct (diffStep_change _ _ _ _ Hch) as (_ & Hb & Ha & Ht & Hn).
  assert (forall x, fnz x x = x) as Hsame
    by (intros x; unfold fnz; by destruct (x =? 0)).
  assert (forall x, fnz x 0 = x) as Hzero.
  { intros x. unfold fnz. destruct (Z.eqb_spec x 0); simpl; congruence. }
  rewrite Hb, Ha, Ht, Hn.
  destruct (prev !! ch_ID ch) as [p|] eqn:Ep,
           (curr !! ch_ID ch) as [c|] eqn:Ec; simpl.
  - pose proof (Hprev _ _ Ep) as Hp. pose proof (Hcurr _ _ Ec) as Hc.
    assert (keyFor c = keyFor p) as Hkey by congruence.
    apply keyFor_same_key in Hkey as [-> ->]. rewrite !Hsame.
    split; [exact Hp|]. split; intros r [= <-]; split; try done;
      by apply keyFor_same_key; congruence.
  - pose proof (Hprev _ _ Ep) as Hp. unfold fnz. simpl.
    split; [exact Hp|]. split; [by intros r [= <-] | discriminate].
  - pose proof (Hcurr _ _ Ec) as Hc. rewrite !Hzero.
    split; [exact Hc|]. split; [discriminate | by intros r [= <-]].
  - apply elem_of_union in Hk as [Hk|Hk]; apply elem_of_dom in Hk as [? ?];
      congruence.
Qed.

(** X8. The order by which [changesAsText] sorts is a strict order on
    changes by type and then number: no change comes before itself, the
    order is transitive, and of two changes that differ in type or number
    exactly one comes before the other. *)
Theorem changeLess_strict_order (a b c : Change) :
  changeLess a a = false /\
  (changeLess a b = true -> changeLess b c = true -> changeLess a c = true) /\
  (changeLess a b = true -> changeLess b a = false) /\
  (ch_Type a <> ch_Type b \/ ch_TypeNum a <> ch_TypeNum b ->
   changeLess a b = true \/ changeLess b a = true).
Proof.
  unfold changeLess.
  repeat match goal with
         | |- context [?x =? ?y] => destruct (Z.eqb_spec x y)
         | |- context [?x <? ?y] => destruct (Z.ltb_spec x y)
         end; repeat split; intros; try done; try lia.
Qed.
End DiffChanges.

(** Scenario S2 of the specification, read in both directions. *)
Lemma rowsDiff_symmetric_witness :
  (forall s t, asciiEqualFold s t = asciiEqualFold t s) /\
  length (@rowsDiff asciiLib {[ "15#0" := parsedOK ]}
            {[ "15#0" := parsedCritical ]}) =
  length (@rowsDiff asciiLib {[ "15#0" := parsedCritical ]}
            {[ "15#0" := parsedOK ]}).
Proof.
  split; [exact asciiEqualFold_sym|].
  exact (proj1 (@rowsDiff_symmetric asciiLib _ _ asciiEqualFold_sym)).
Defined.

Lemma wellKeyed_singleton (k : string) (r : Result) :
  k = keyFor r -> wellKeyed {[ k := r ]}.
Proof.
  intros -> k' r' Hk. apply lookup_singleton_Some in Hk as [<- <-]. done.
Qed.

Lemma rowsDiff_carries_type_witness :
  (wellKeyed {[ "15#0" := parsedOK ]} /\
   wellKeyed {[ "15#0" := parsedCritical ]} /\
   changeS2 ∈ @rowsDiff asciiLib {[ "15#0" := parsedOK ]}
                {[ "15#0" := parsedCritical ]}) /\
  ch_ID changeS2 =
    strconv_Itoa (ch_Type changeS2) +:+ "#" +:+
    strconv_Itoa (ch_TypeNum changeS2).
Proof.
  assert (wellKeyed {[ "15#0" := parsedOK ]}) as H1
    by (by apply wellKeyed_singleton).
  assert (wellKeyed {[ "15#0" := parsedCritical ]}) as H2
    by (by apply wellKeyed_singleton).
  assert (changeS2 ∈ @rowsDiff asciiLib {[ "15#0" := parsedOK ]}
                       {[ "15#0" := parsedCritical ]}) as H3.
  { assert (@rowsDiff asciiLib {[ "15#0" := parsedOK ]}
              {[ "15#0" := parsedCritical ]} = [changeS2]) as ->
      by (vm_compute; reflexivity).
    by left. }
  split; [done|].
  exact (proj1 (@rowsDiff_carries_type asciiLib _ _ _ H1 H2 H3)).
Defined.

(** ** Configuration and constructors *)

Lemma orDefault_filled {A : Type} (user dflt : option A) :
  is_Some dflt -> is_Some (orDefault user dflt).
Proof. intros Hd. by destruct user. Qed.

Lemma orDefault_kept {A : Type} (user dflt : option A) :
  kept user (orDefault user dflt).
Proof. unfold kept. destruct user; simpl; intros; congruence. Qed.

Ltac filled :=
  first [ done
        | by eexists
        | by apply orDefault_filled; eexists
        | by apply orDefault_kept
        | by unfold kept; intros; congruence ].


Section ConfigFacts.
Context `{GoLib}.

Lemma mergeDeviceMonitorConfig_inr (userCfg : option DeviceMonitorConfig) m :
  mergeDeviceMonitorConfig userCfg = inr m ->
  completeConfig m /\
  (exists n, PollAttempts m = Some n /\ 0 < n) /\
  (forall u, userCfg = Some u -> keepsUserValues u m) /\
  (forall u, userCfg = Some u ->
     OutputDir m =
       match OutputDir u with
       | Some o => if String.eqb o "" then None else Some (filepath_Clean o)
       | None => None
       end) /\
  (userCfg = None -> m = DefaultDeviceMonitorConfig).
Proof.
  unfold mergeDeviceMonitorConfig.
  destruct userCfg as [u|]; [|intros [= <-]].
  - destruct (PollAttempts u) as [n|] eqn:En;
      [destruct (Z.leb_spec n 0); [discriminate|]|]; intros [= <-];
      (split; [|split; [|split; [|split; [|done]]]]).
    + unfold completeConfig; simpl; rewrite ?En.
      repeat split; filled.
    + exists n. simpl. by rewrite ?En.
    + intros ? [= <-]. unfold keepsUserValues; simpl; rewrite ?En.
      repeat split; filled.
    + intros ? [= <-]. simpl. destruct (OutputDir u) as [o|]; [|done].
      by destruct (String.eqb o "").
    + unfold completeConfig; simpl.
      repeat split; filled.
    + exists 3. by simpl.
    + intros ? [= <-]. unfold keepsUserValues; simpl; rewrite ?En.
      repeat split; filled.
    + intros ? [= <-]. simpl. destruct (OutputDir u) as [o|]; [|done].
      by destruct (String.eqb o "").
  - split; [|split; [|done]].
    + unfold completeConfig; simpl. repeat split; by eexists.
    + exists 3. by simpl.
Qed.

Lemma mergeDeviceMonitorConfig_inl (userCfg : option DeviceMonitorConfig) e :
  mergeDeviceMonitorConfig userCfg = inl e ->
  e = errWrap "poll_attempts must be > 0" errInvalidArgument /\
  exists u n, userCfg = Some u /\ PollAttempts u = Some n /\ n <= 0.
Proof.
  unfold mergeDeviceMonitorConfig.
  destruct userCfg as [u|]; [|discriminate].
  destruct (PollAttempts u) as [n|] eqn:En; [|discriminate].
  destruct (Z.leb_spec n 0); [|discriminate]. intros [= <-].
  split; [done|]. by exists u, n.
Qed.

(** X9. [mergeDeviceMonitorConfig] fails only for a user configuration
    whose [poll_attempts] is set and not positive, with
    [errInvalidArgument]. Otherwise the merged configuration has no nil
    field but possibly the output directory, a positive number of
    attempts, every value that the user has set, and an output directory
    only when the user has set one that is not empty (the cleaned
    path). *)
Theorem mergeDeviceMonitorConfig_complete
    (userCfg : option DeviceMonitorConfig) :
  match mergeDeviceMonitorConfig userCfg with
  | inl e =>
      errorsIs e errInvalidArgument /\
      exists u n, userCfg = Some u /\ PollAttempts u = Some n /\ n <= 0
  | inr m =>
      completeConfig m /\
      (exists n, PollAttempts m = Some n /\ 0 < n) /\
      (forall u, userCfg = Some u ->
         keepsUserValues u m /\
         (forall n, PollAttempts u = Some n -> 0 < n) /\
         OutputDir m =
           match OutputDir u with
           | Some o =>
               if String.eqb o "" then None else Some (filepath_Clean o)
           | None => None
           end) /\
      (userCfg = None -> m = DefaultDeviceMonitorConfig)
  end.
Proof.
  destruct (mergeDeviceMonitorConfig userCfg) as [e|m] eqn:E.
  - apply mergeDeviceMonitorConfig_inl in E as [-> Hu].
    split; [|done]. simpl. right. by left.
  - apply mergeDeviceMonitorConfig_inr in E
      as (Hc & (n & Hn & Hpos) & Hkeep & Hout & Hdef).
    split; [done|]. split; [by exists n|]. split; [|done].
    intros u ->. split; [by apply Hkeep|]. split; [|by apply Hout].
    intros n' Hn'.
    destruct (Hkeep u eq_refl) as (_ & Hat & _).
    rewrite (Hat n' Hn') in Hn. by injection Hn as ->.
Qed.
End ConfigFacts.

Section ConstructorFacts.
Context `{GoLib} `{GoCodec} `{GoTime} {F : Type} `{AferoFs F}.

Lemma NewDeviceMonitor_inr device cfg (fsys : option F) runner logger
    notifier d :
  NewDeviceMonitor device cfg fsys runner logger notifier = inr d ->
  dm_device d = device /\ dm_notifier d = notifier /\
  runner = Some (dm_runner d) /\ logger = Some (dm_logger d) /\
  mergeDeviceMonitorConfig cfg = inr (dm_cfg d) /\
  dev_Path device <> "" /\
  exists f mode, fsys = Some f /\ fs_Stat f (dev_Path device) = inr mode.
Proof.
  unfold NewDeviceMonitor.
  destruct fsys as [f|], runner as [r|], logger as [l|]; try discriminate.
  destruct (String.eqb_spec (dev_Path device) ""); [discriminate|].
  destruct (fs_Stat f (dev_Path device)) as [e|mode] eqn:Est;
    [discriminate|].
  destruct (mergeDeviceMonitorConfig cfg) as [e|m]; [discriminate|].
  intros [= <-]. simpl. repeat split; try done. by exists f, mode.
Qed.

(** X10. [NewDeviceMonitor] fails exactly when a dependency is nil, the
    device path is empty, the path cannot be stat'ed, or the
    configuration has a number of poll attempts that is not positive; the
    error is always an [errInvalidArgument]. On success the monitor has
    the device, the notifier, the runner and the logger that were passed,
    and the merged configuration, which has no nil field that the monitor
    dereferences. *)
Theorem NewDeviceMonitor_outcome device cfg (fsys : option F) runner logger
    notifier :
  match NewDeviceMonitor device cfg fsys runner logger notifier with
  | inl e =>
      errorsIs e errInvalidArgument /\
      (fsys = None \/ runner = None \/ logger = None \/
       dev_Path device = "" \/
       (exists f e', fsys = Some f /\ fs_Stat f (dev_Path device) = inl e') \/
       (exists u n, cfg = Some u /\ PollAttempts u = Some n /\ n <= 0))
  | inr d =>
      dm_device d = device /\ dm_notifier d = notifier /\
      runner = Some (dm_runner d) /\ logger = Some (dm_logger d) /\
      mergeDeviceMonitorConfig cfg = inr (dm_cfg d) /\
      completeConfig (dm_cfg d) /\
      dev_Path device <> "" /\
      (exists f mode, fsys = Some f /\ fs_Stat f (dev_Path device) = inr mode) /\
      (forall u n, cfg = Some u -> PollAttempts u = Some n -> 0 < n)
  end.
Proof.
  destruct (NewDeviceMonitor device cfg fsys runner logger notifier)
    as [e|d] eqn:E.
  - revert E. unfold NewDeviceMonitor.
    destruct fsys as [f|]; [|intros [= <-]; split; [simpl; tauto | tauto]].
    destruct runner as [r|]; [|intros [= <-]; split; [simpl; tauto | tauto]].
    destruct logger as [l|]; [|intros [= <-]; split; [simpl; tauto | tauto]].
    destruct (String.eqb_spec (dev_Path device) "");
      [intros [= <-]; split; [simpl; tauto | tauto]|].
    destruct (fs_Stat f (dev_Path device)) as [e'|mode] eqn:Est.
    { intros [= <-]. split; [simpl; tauto|].
      do 4 right. left. by exists f, e'. }
    destruct (mergeDeviceMonitorConfig cfg) as [e'|m] eqn:Em; [|discriminate].
    intros [= <-]. apply mergeDeviceMonitorConfig_inl in Em as [-> Hu].
    split; [simpl; tauto|]. by do 5 right.
  - apply NewDeviceMonitor_inr in E
      as (Hdev & Hnot & Hrun & Hlog & Hcfg & Hpath & Hstat).
    pose proof (mergeDeviceMonitorConfig_inr _ _ Hcfg)
      as (Hc & (n & Hn & Hpos) & Hkeep & _).
    repeat (split; [done|]).
    intros u n' -> Hn'. destruct (Hkeep u eq_refl) as (_ & Hat & _).
    rewrite (Hat n' Hn') in Hn. by injection Hn as ->.
Qed.

End ConstructorFacts.

(** ** Panics and results of a monitor *)

Section YieldFacts.
Context {F : Type}.

Lemma yields_ret {A : Type} (a : A) (Q : A -> Prop) :
  Q a -> yields (retM (F := F) a) Q.
Proof. intros Ha w. by exists a. Qed.

Lemma yields_bind {A B : Type} (m : M F A) (k : A -> M F B) (Q : B -> Prop) :
  returns m -> (forall a, yields (k a) Q) -> yields (bindM m k) Q.
Proof.
  intros Hm Hk w. unfold bindM. destruct (Hm w) as (a & Ha & _).
  destruct (m w) as [r w1]. simpl in Ha. subst r. apply Hk.
Qed.

Lemma returns_ret {A : Type} (a : A) : returns (retM (F := F) a).
Proof. by apply yields_ret. Qed.

Lemma returns_bind {A B : Type} (m : M F A) (k : A -> M F B) :
  returns m -> (forall a, returns (k a)) -> returns (bindM m k).
Proof. apply yields_bind. Qed.

Lemma returns_getState : returns (getState (F := F)).
Proof. intros w. by eexists. Qed.

Lemma returns_modify f : returns (modifyState (F := F) f).
Proof. intros w. by eexists. Qed.

Lemma returns_emit e : returns (emit (F := F) e).
Proof. intros w. by eexists. Qed.

Lemma returns_onFs {A : Type} (f : F -> A * F) : returns (onFs f).
Proof. intros w. unfold onFs. destruct (f (w_fs w)). by eexists. Qed.

Lemma returns_deref {A : Type} (p : option A) :
  is_Some p -> returns (derefM (F := F) p).
Proof. intros [v ->] w. by eexists. Qed.

Lemma returns_when (b : bool) (m : M F unit) :
  returns m -> returns (whenM b m).
Proof. destruct b; [done | intros _; apply returns_ret]. Qed.

Lemma returns_fst {A : Type} (m : M F A) :
  returns m <-> forall w, fst (m w) <> None.
Proof.
  split.
  - intros Hm w. destruct (Hm w) as (a & -> & _). done.
  - intros Hm w. specialize (Hm w). destruct (fst (m w)) as [a|]; [|done].
    by exists a.
Qed.

Lemma returns_unit (m : M F unit) :
  returns m -> forall w, fst (m w) = Some tt.
Proof. intros Hm w. by destruct (Hm w) as ([] & -> & _). Qed.
End YieldFacts.

Ltac total :=
  repeat (intros;
          first
            [ done
            | assumption
            | apply returns_ret
            | apply returns_getState
            | apply returns_modify
            | apply returns_emit
            | apply returns_onFs
            | apply returns_when
            | apply returns_deref; first [ assumption | by eexists ]
            | apply returns_bind
            | apply yields_ret; reflexivity
            | apply yields_bind
            | match goal with
              | |- yields (match ?x with _ => _ end) _ => destruct x
              | |- yields (if ?x then _ else _) _ => destruct x
              | |- returns (match ?x with _ => _ end) => destruct x
              | |- returns (if ?x then _ else _) => destruct x
              end ]).

Section MonitorTotal.
Context `{GoLib} `{GoCodec} `{GoTime} {F : Type} `{AferoFs F}.
Variable d : DeviceMonitor.

Lemma Stop_returns : returns (Stop (F := F) d).
Proof. unfold Stop. total. Qed.

Lemma handleAlert_returns now hash msg report :
  returns (handleAlert (F := F) d now hash msg report).
Proof.
  intros w.
  destruct (handleAlert_effects d now hash msg report w)
    as (w' & evs & -> & _).
  by exists tt.
Qed.

Lemma writeCurrentData_returns now raw parsed :
  is_Some (OutputDir (dm_cfg d)) ->
  returns (writeCurrentData (F := F) d now raw parsed).
Proof.
  intros [dir Hdir] w. exists tt. split; [|done].
  by eapply writeCurrentData_total.
Qed.

Lemma pollFailure_returns env err :
  completeConfig (dm_cfg d) -> returns (pollFailure (F := F) d env err).
Proof.
  intros (_ & _ & _ & _ & Hafter & Htime & Hnotify & Hstop & _).
  pose proof Stop_returns. unfold pollFailure. total.
Qed.

(** The part of [poll] that runs once the dump is parsed. *)
Lemma poll_body_yields env ret curr :
  is_Some (Verbose (dm_cfg d)) ->
  yields
    (match OutputDir (dm_cfg d) with
     | Some _ => writeCurrentData (F := F) d (pe_capturedAt env) ret curr
     | None => retM tt
     end ;;
     do st <- getState;
     match previousResults st with
     | None => logM (LogInitialElements (size curr)) ;; retM None
     | Some previous =>
         do verbose <- derefM (Verbose (dm_cfg d));
         whenM verbose (logM (LogBatchElements (size curr))) ;;
         let changes := rowsDiff previous curr in
         if (length changes =? 0)%nat then
           do verbose <- derefM (Verbose (dm_cfg d));
           whenM verbose (logM LogNoChanges) ;;
           retM None
         else
           do verbose <- derefM (Verbose (dm_cfg d));
           whenM verbose (logM (LogChangesDetected (length changes))) ;;
           let report :=
             {| cr_Device := dm_device d;
                cr_DetectedAt := time_FormatRFC3339 (pe_detectedAt env);
                cr_Changes := sortChanges changes |} in
           let msg := buildMessage (changesAsText changes) in
           let hash := alertHash msg in
           do st <- getState;
           if negb (String.eqb (lastAlertHash st) "")
              && String.eqb (lastAlertHash st) hash
           then logM LogAlertSkipped ;; retM None
           else handleAlert d (pe_reportAt env) hash msg report ;; retM None
     end)
    (fun r : option error => r = None).
Proof.
  intros Hverbose. apply yields_bind.
  { destruct (OutputDir (dm_cfg d)) as [dir|] eqn:Edir; [|total].
    apply writeCurrentData_returns. by rewrite Edir. }
  intros _. pose proof handleAlert_returns. cbv zeta. total.
Qed.

Lemma poll_ok env ret curr w :
  is_Some (Verbose (dm_cfg d)) ->
  pe_fetch env = inr ret -> parseSES ret = Ok curr ->
  fst (poll d env w) = Some None /\
  previousResults (w_state (snd (poll d env w))) = Some curr.
Proof.
  intros Hverbose Hfetch Hparse. unfold poll. rewrite Hfetch, Hparse.
  unfold deferM.
  destruct (poll_body_yields env ret curr Hverbose w) as (r & Hr & ->).
  match goal with
  | |- context [let '(_, _) := ?body w in _] => destruct (body w) as [r w1]
  end.
  simpl in *. by subst r.
Qed.

(** X12. A monitor returned by [NewDeviceMonitor] dereferences no nil
    field of its configuration: [pollFailure] never panics, and [poll]
    panics only when [parseSES] does on the dump that was fetched. *)
Theorem NewDeviceMonitor_no_nil_dereference device cfg (fsys : option F)
    runner logger notifier :
  NewDeviceMonitor device cfg fsys runner logger notifier = inr d ->
  (forall env err (w : World F), fst (pollFailure d env err w) = Some tt) /\
  (forall env (w : World F),
     fst (poll d env w) = None <->
     exists ret, pe_fetch env = inr ret /\ parseSES ret = Panicked).
Proof.
  intros Hnew. apply NewDeviceMonitor_inr in Hnew as (_ & _ & _ & _ & Hcfg & _).
  apply mergeDeviceMonitorConfig_inr in Hcfg as [Hc _].
  split.
  - intros env err. apply returns_unit. by apply pollFailure_returns.
  - intros env w.
    assert (is_Some (Verbose (dm_cfg d))) as Hverbose by apply Hc.
    destruct (pe_fetch env) as [e|ret] eqn:Hfetch.
    { unfold poll. rewrite Hfetch. simpl.
      split; [done | by intros (? & ? & _)]. }
    destruct (parseSES ret) as [curr|e|] eqn:Hparse.
    + rewrite (proj1 (poll_ok env ret curr w Hverbose Hfetch Hparse)).
      split; [done|]. intros (ret' & [= <-] & Hp). congruence.
    + unfold poll. rewrite Hfetch, Hparse. simpl.
      split; [done|]. intros (ret' & [= <-] & Hp). congruence.
    + unfold poll. rewrite Hfetch, Hparse. simpl.
      split; [by exists ret | done].
Qed.

(** X13. What a poll makes of the result of the fetch: an error exactly
    when the fetch or the parser returns one, and then the state of the
    monitor, with the previous results, and the filesystem are as they
    were; no error when the dump is parsed, and then the parsed results
    are the previous results of the next poll; a panic only from the
    parser. (The lines that the fetch itself logs on its failed attempts
    are not the subject here.) *)
Theorem poll_outcome (env : PollEnv) (w : World F) :
  is_Some (Verbose (dm_cfg d)) ->
  let after := snd (poll d env w) in
  match pe_fetch env with
  | inl e =>
      fst (poll d env w) =
        Some (Some (errWrap "failure fetching from device" e)) /\
      w_state after = w_state w /\ w_fs after = w_fs w
  | inr ret =>
      match parseSES ret with
      | Err e =>
          fst (poll d env w) =
            Some (Some (errWrap "failure parsing fetched data" e)) /\
          w_state after = w_state w /\ w_fs after = w_fs w
      | Panicked =>
          fst (poll d env w) = None /\
          w_state after = w_state w /\ w_fs after = w_fs w
      | Ok curr =>
          fst (poll d env w) = Some None /\
          previousResults (w_state after) = Some curr
      end
  end.
Proof.
  intros Hverbose after. subst after.
  destruct (pe_fetch env) as [e|ret] eqn:Hfetch.
  { unfold poll. by rewrite Hfetch. }
  destruct (parseSES ret) as [curr|e|] eqn:Hparse.
  - by apply poll_ok with ret.
  - unfold poll. by rewrite Hfetch, Hparse.
  - unfold poll. by rewrite Hfetch, Hparse.
Qed.
End MonitorTotal.

(** The monitor of the examples is the one that [NewDeviceMonitor]
    returns for its device and configuration. *)
Lemma NewDeviceMonitor_monitorSg0 :
  @NewDeviceMonitor asciiLib MemFs memFs (dm_device monitorSg0)
    (Some (dm_cfg monitorSg0)) (Some devFs) (Some SuppliedRunner)
    (Some (dm_logger monitorSg0)) (dm_notifier monitorSg0) = inr monitorSg0.
Proof. vm_compute. reflexivity. Qed.

Lemma NewDeviceMonitor_no_nil_dereference_witness :
  @NewDeviceMonitor asciiLib MemFs memFs (dm_device monitorSg0)
    (Some (dm_cfg monitorSg0)) (Some devFs) (Some SuppliedRunner)
    (Some (dm_logger monitorSg0)) (dm_notifier monitorSg0) = inr monitorSg0 /\
  fst (pollFailure monitorSg0 ctxLive (errExternal "sg_ses: exit status 15")
         freshWorld) = Some tt.
Proof.
  split; [exact NewDeviceMonitor_monitorSg0|].
  exact (proj1 (@NewDeviceMonitor_no_nil_dereference asciiLib fixtureCodec
                  utcTime MemFs memFs monitorSg0 _ _ _ _ _ _
                  NewDeviceMonitor_monitorSg0)
           ctxLive (errExternal "sg_ses: exit status 15") freshWorld).
Defined.

(** The first poll of scenario S1, and a later poll whose fetch fails:
    the results of the first are kept. *)
Lemma poll_outcome_witness :
  is_Some (Verbose (dm_cfg monitorSg0)) /\
  (fst (@poll asciiLib fixtureCodec utcTime MemFs memFs monitorSg0 envOK
          freshWorld) = Some None /\
   previousResults
     (w_state (snd (@poll asciiLib fixtureCodec utcTime MemFs memFs
                      monitorSg0 envOK freshWorld)))
   = Some {[ "15#0" := parsedOK ]}) /\
  (fst (@poll asciiLib fixtureCodec utcTime MemFs memFs monitorSg0
          envFetchFailed worldAfterOK)
   = Some (Some (errWrap "failure fetching from device"
                   (errExternal "sg_ses: exit status 15"))) /\
   w_state (snd (@poll asciiLib fixtureCodec utcTime MemFs memFs monitorSg0
                   envFetchFailed worldAfterOK)) = w_state worldAfterOK /\
   w_fs (snd (@poll asciiLib fixtureCodec utcTime MemFs memFs monitorSg0
                envFetchFailed worldAfterOK)) = w_fs worldAfterOK).
Proof.
  assert (is_Some (Verbose (dm_cfg monitorSg0))) as Hv by (by eexists).
  split; [exact Hv|]. split.
  - pose proof (@poll_outcome asciiLib fixtureCodec utcTime MemFs memFs
                  monitorSg0 envOK freshWorld Hv) as Hp.
    cbv zeta in Hp.
    change (pe_fetch envOK) with (@inr error string docOK) in Hp.
    cbv iota beta in Hp.
    assert (@parseSES asciiLib fixtureCodec docOK
              = Ok {[ "15#0" := parsedOK ]}) as Hparse
      by (vm_compute; reflexivity).
    rewrite Hparse in Hp. exact Hp.
  - exact (@poll_outcome asciiLib fixtureCodec utcTime MemFs memFs
             monitorSg0 envFetchFailed worldAfterOK Hv).
Defined.

(** ** What a monitor keeps *)

Lemma shutdowns_app (a b : list Event) :
  shutdowns (a ++ b) = (shutdowns a + shutdowns b)%nat.
Proof.
  induction a as [|[[]|] a IH]; simpl; try done. by rewrite IH.
Qed.

Lemma shutdowns_quiet (evs : list Event) (e : Event) :
  e <> EvLog LogShuttingDown -> shutdowns (evs ++ [e]) = shutdowns evs.
Proof.
  intros He. rewrite shutdowns_app.
  destruct e as [[]|]; simpl; try lia. done.
Qed.

Section KeepsFacts.
Context {F : Type}.
Variable P : deviceMonitorState -> list Event -> Prop.

Lemma Keeps_here {A : Type} (m : M F A) :
  (forall w, snd (m w) = w) -> Keeps P m.
Proof. intros Hm w. by rewrite Hm. Qed.

Lemma Keeps_ret {A : Type} (a : A) : Keeps P (retM (F := F) a).
Proof. by apply Keeps_here. Qed.

Lemma Keeps_panic {A : Type} : Keeps P (panicM (F := F) (A := A)).
Proof. by apply Keeps_here. Qed.

Lemma Keeps_getState : Keeps P (getState (F := F)).
Proof. by apply Keeps_here. Qed.

Lemma Keeps_deref {A : Type} (p : option A) : Keeps P (derefM (F := F) p).
Proof. destruct p; [apply Keeps_ret | apply Keeps_panic]. Qed.

Lemma Keeps_bind {A B : Type} (m : M F A) (k : A -> M F B) :
  Keeps P m -> (forall a, Keeps P (k a)) -> Keeps P (bindM m k).
Proof.
  intros Hm Hk w Hw. unfold bindM. specialize (Hm w Hw).
  destruct (m w) as [[a|] w1]; simpl in *; [by apply Hk | done].
Qed.

Lemma Keeps_onFs {A : Type} (f : F -> A * F) : Keeps P (onFs f).
Proof. intros w Hw. unfold onFs. by destruct (f (w_fs w)). Qed.

Lemma Keeps_when (b : bool) (m : M F unit) :
  Keeps P m -> Keeps P (whenM b m).
Proof. destruct b; [done | intros _; apply Keeps_ret]. Qed.

Lemma Keeps_emit (e : Event) :
  (forall s evs, P s evs -> P s (evs ++ [e])) -> Keeps P (emit (F := F) e).
Proof. intros He w Hw. by apply He. Qed.

Lemma Keeps_modify (f : deviceMonitorState -> deviceMonitorState) :
  (forall s evs, P s evs -> P (f s) evs) -> Keeps P (modifyState (F := F) f).
Proof. intros Hf w Hw. by apply Hf. Qed.

Lemma Keeps_defer {A : Type} (f : World F -> World F) (m : M F A) :
  (forall w, P (w_state w) (w_events w) ->
             P (w_state (f w)) (w_events (f w))) ->
  Keeps P m -> Keeps P (deferM f m).
Proof.
  intros Hf Hm w Hw. unfold deferM. specialize (Hm w Hw).
  destruct (m w) as [r w1]. by apply Hf.
Qed.
End KeepsFacts.

Ltac keeps_with leaf :=
  repeat (intros;
          first
            [ done
            | solve [ eauto ]
            | leaf
            | progress cbv zeta
            | apply Keeps_ret
            | apply Keeps_panic
            | apply Keeps_getState
            | apply Keeps_deref
            | apply Keeps_onFs
            | apply Keeps_when
            | apply Keeps_modify; solve [ eauto ]
            | apply Keeps_defer; [ solve [ simpl; eauto ] | ]
            | apply Keeps_bind
            | match goal with
              | |- Keeps _ (match ?x with _ => _ end) => destruct x
              | |- Keeps _ (if ?x then _ else _) => destruct x
              end ]).

Section MonitorKeeps.
Context `{GoLib} `{GoCodec} `{GoTime} {F : Type} `{AferoFs F}.
Variable d : DeviceMonitor.
Variable P : deviceMonitorState -> list Event -> Prop.
Hypothesis P_emit :
  forall s evs e, e <> EvLog LogShuttingDown -> P s evs -> P s (evs ++ [e]).
Hypothesis P_hash : forall s evs h, P s evs -> P (setLastAlertHash h s) evs.
Hypothesis P_previous :
  forall s evs r, P s evs -> P (setPreviousResults r s) evs.

Lemma Keeps_quiet (e : Event) :
  e <> EvLog LogShuttingDown -> Keeps P (emit (F := F) e).
Proof. intros He. apply Keeps_emit. intros s evs. by apply P_emit. Qed.

Lemma Keeps_log (l : LogLine) :
  l <> LogShuttingDown -> Keeps P (logM (F := F) l).
Proof. intros Hl. apply Keeps_quiet. congruence. Qed.

Ltac quiet :=
  first [ apply Keeps_log; discriminate | apply Keeps_quiet; discriminate ].

Lemma ensureDeviceFolder_keeps : Keeps P (ensureDeviceFolder (F := F) d).
Proof. unfold ensureDeviceFolder. keeps_with quiet. Qed.

Lemma writeDeviceSnapshot_keeps snapshot filename :
  Keeps P (writeDeviceSnapshot (F := F) d snapshot filename).
Proof.
  pose proof ensureDeviceFolder_keeps. unfold writeDeviceSnapshot.
  keeps_with quiet.
Qed.

Lemma writeChangeReport_keeps now report :
  Keeps P (writeChangeReport (F := F) d now report).
Proof.
  pose proof ensureDeviceFolder_keeps. unfold writeChangeReport.
  keeps_with quiet.
Qed.

Lemma writeCurrentData_keeps now raw parsed :
  Keeps P (writeCurrentData (F := F) d now raw parsed).
Proof.
  pose proof writeDeviceSnapshot_keeps. unfold writeCurrentData.
  keeps_with quiet.
Qed.

Lemma handleAlert_keeps now hash msg report :
  Keeps P (handleAlert (F := F) d now hash msg report).
Proof.
  pose proof writeChangeReport_keeps. unfold handleAlert. keeps_with quiet.
Qed.

Lemma poll_keeps env : Keeps P (poll (F := F) d env).
Proof.
  pose proof writeCurrentData_keeps. pose proof handleAlert_keeps.
  unfold poll. keeps_with quiet.
Qed.

Hypothesis P_failures :
  forall s evs n, P s evs -> P (setPollFailures n s) evs.
Hypothesis P_stop : Keeps P (Stop (F := F) d).

Lemma pollFailure_keeps env err : Keeps P (pollFailure (F := F) d env err).
Proof. unfold pollFailure. keeps_with quiet. Qed.

Lemma pollOnce_keeps env fenv : Keeps P (pollOnce (F := F) d env fenv).
Proof.
  unfold pollOnce. apply Keeps_bind; [apply poll_keeps|].
  intros [e|]; [apply pollFailure_keeps | apply Keeps_ret].
Qed.

Lemma tickerLoop_keeps inputs : Keeps P (tickerLoop (F := F) d inputs).
Proof.
  induction inputs as [|[env fenv| | |] inputs IH]; simpl.
  - apply Keeps_ret.
  - apply Keeps_bind; [apply pollOnce_keeps | done].
  - apply Keeps_ret.
  - apply Keeps_bind; [apply Keeps_getState|]. intros st.
    destruct (stopClosed st); [apply Keeps_ret | done].
  - apply Keeps_bind; [apply P_stop | done].
Qed.

Lemma task_keeps env fenv inputs :
  Keeps P (logM (F := F) (LogMonitoring (bool_decide (dm_notifier d <> None))) ;;
           pollOnce d env fenv ;;
           do interval <- derefM (PollInterval (dm_cfg d));
           if interval <=? 0 then panicM else tickerLoop d inputs).
Proof.
  apply Keeps_bind; [apply Keeps_log; discriminate|]. intros _.
  apply Keeps_bind; [apply pollOnce_keeps|]. intros _.
  apply Keeps_bind; [apply Keeps_deref|]. intros interval.
  destruct (interval <=? 0); [apply Keeps_panic | apply tickerLoop_keeps].
Qed.
End MonitorKeeps.

Lemma bindM_never {F A B : Type} (m : M F A) (k : A -> M F B) (b : B) w :
  (forall a w', fst (k a w') <> Some b) -> fst (bindM m k w) <> Some b.
Proof.
  intros Hk. unfold bindM. destruct (m w) as [[a|] w1]; [apply Hk | done].
Qed.

Section ShutdownFacts.
Context `{GoLib} `{GoCodec} `{GoTime} {F : Type} `{AferoFs F}.
Variable d : DeviceMonitor.

Lemma Stop_shutdown (w : World F) :
  shutdownInv (w_state w) (w_events w) ->
  shutdownInv (w_state (snd (Stop d w))) (w_events (snd (Stop d w))) /\
  stopClosed (w_state (snd (Stop d w))) = true.
Proof.
  intros Hw. pose proof Hw as (Honce & Hdone & Hcount).
  unfold Stop, bindM, getState, logM, emit, modifyState, retM. simpl.
  destruct (onceDone (w_state w)) eqn:Eonce; simpl.
  - split; [exact Hw | by symmetry].
  - split; [|done]. unfold shutdownInv. simpl.
    rewrite shutdowns_app, Hcount, <- Honce. simpl. done.
Qed.

Lemma shutdownInv_quiet s evs e :
  e <> EvLog LogShuttingDown -> shutdownInv s evs -> shutdownInv s (evs ++ [e]).
Proof.
  intros He (Honce & Hdone & Hcount). unfold shutdownInv.
  by rewrite shutdowns_quiet.
Qed.

Lemma task_shutdown env fenv inputs :
  Keeps shutdownInv
    (logM (F := F) (LogMonitoring (bool_decide (dm_notifier d <> None))) ;;
     pollOnce d env fenv ;;
     do interval <- derefM (PollInterval (dm_cfg d));
     if interval <=? 0 then panicM else tickerLoop d inputs).
Proof.
  apply task_keeps; try done.
  - apply shutdownInv_quiet.
  - intros w Hw. by apply Stop_shutdown.
Qed.

Lemma deferred_shutdown (w : World F) (tail : M F unit) :
  (forall w1, w_state (snd (tail w1)) = w_state w1 /\
              shutdowns (w_events (snd (tail w1))) = shutdowns (w_events w1)) ->
  shutdownInv (w_state w) (w_events w) ->
  let w' := snd ((Stop d ;; modifyState closeDone ;; tail) w) in
  shutdownInv (w_state w') (w_events w') /\
  doneClosed (w_state w') = true /\ stopClosed (w_state w') = true.
Proof.
  intros Htail Hw. destruct (Stop_shutdown w Hw) as [(Honce & Hdone & Hcount) Hstop].
  destruct (Stop_returns d w) as ([] & Hret & _).
  unfold bindM at 1. destruct (Stop d w) as [r w1]. simpl in *. subst r.
  unfold bindM, modifyState. simpl.
  match goal with
  | |- context [tail ?w2] => destruct (Htail w2) as [Hst Hev]
  end.
  simpl in *. unfold shutdownInv. rewrite Hst, Hev. simpl.
  by rewrite Hstop in *.
Qed.

Lemma tickerLoop_cancelled inputs (w : World F) :
  InCtxDone ∈ inputs -> fst (tickerLoop d inputs w) <> Some false.
Proof.
  revert w. induction inputs as [|i inputs IH]; intros w Hin.
  - by apply not_elem_of_nil in Hin.
  - destruct i as [env fenv| | |]; simpl.
    + apply bindM_never. intros _ w'. apply IH.
      apply elem_of_cons in Hin as [?|?]; [done | done].
    + done.
    + unfold bindM, getState. simpl.
      destruct (stopClosed (w_state w)); [done|]. apply IH.
      apply elem_of_cons in Hin as [?|?]; [done | done].
    + apply bindM_never. intros _ w'. apply IH.
      apply elem_of_cons in Hin as [?|?]; [done | done].
Qed.

(** X14. A poll changes neither the count of failures nor the state of
    [once] and of the channels [stop] and [done]: a poll that succeeds
    does not reset the failures counted so far. *)
Theorem poll_keeps_control (env : PollEnv) (w : World F) :
  control (w_state (snd (poll d env w))) = control (w_state w).
Proof.
  by apply (poll_keeps d (fun s _ => control s = control (w_state w))).
Qed.

(** X15. [Stop] is idempotent: a second call returns without logging
    and without touching the state. *)
Theorem Stop_idempotent (w : World F) :
  Stop d (snd (Stop d w)) = (Some tt, snd (Stop d w)).
Proof.
  unfold Stop, bindM, getState, logM, emit, modifyState, retM. simpl.
  destruct (onceDone (w_state w)) eqn:Eonce; simpl; by rewrite ?Eonce.
Qed.

(** X16. Over a run of a monitor task, whatever it meets, [once] has
    run exactly when [stop] is closed, [done] is closed only when [stop]
    is, and the line of [Stop] is logged once when [stop] is closed and
    never before; so a task that has ended has logged it exactly once. *)
Theorem Start_shuts_down_once (env : PollEnv) (fenv : FailEnv)
    (inputs : list LoopInput) (w : World F) :
  shutdownInv (w_state w) (w_events w) ->
  let w' := Start d env fenv inputs w in
  shutdownInv (w_state w') (w_events w') /\
  (doneClosed (w_state w') = true ->
   stopClosed (w_state w') = true /\ shutdowns (w_events w') = 1%nat).
Proof.
  intros Hw w'.
  assert (shutdownInv (w_state w') (w_events w')) as Hinv.
  { subst w'. unfold Start.
    pose proof (task_shutdown env fenv inputs w Hw) as Htask.
    match goal with
    | |- context [match ?task w with _ => _ end] =>
        destruct (task w) as [[[|]|] w1]
    end; simpl in Htask; [|done|].
    - by apply (deferred_shutdown w1 (retM tt)).
    - apply (deferred_shutdown w1 (logM (LogPanicRecovered "monitor")));
        [|done].
      intros w2. simpl. split; [done|]. by apply shutdowns_quiet. }
  split; [done|]. intros Hdone. destruct Hinv as (_ & Hstop & Hcount).
  specialize (Hstop Hdone). by rewrite Hstop in Hcount.
Qed.

(** X17. Once the context is cancelled the task of a monitor ends, also
    when a poll before it has panicked: [stop] and [done] are closed and
    the line of [Stop] has been logged exactly once. *)
Theorem Start_ends_when_cancelled (env : PollEnv) (fenv : FailEnv)
    (inputs : list LoopInput) (w : World F) :
  InCtxDone ∈ inputs ->
  shutdownInv (w_state w) (w_events w) ->
  let w' := Start d env fenv inputs w in
  doneClosed (w_state w') = true /\ stopClosed (w_state w') = true /\
  shutdowns (w_events w') = 1%nat.
Proof.
  intros Hin Hw w'.
  assert (doneClosed (w_state w') = true /\ stopClosed (w_state w') = true /\
          shutdownInv (w_state w') (w_events w')) as (Hdone & Hstop & Hinv).
  { subst w'. unfold Start.
    pose proof (task_shutdown env fenv inputs w Hw) as Htask.
    assert (fst ((logM (LogMonitoring (bool_decide (dm_notifier d <> None))) ;;
                  pollOnce d env fenv ;;
                  do interval <- derefM (PollInterval (dm_cfg d));
                  if interval <=? 0 then panicM else tickerLoop d inputs) w)
            <> Some false) as Hrun.
    { apply bindM_never. intros _ w1. apply bindM_never. intros _ w2.
      apply bindM_never. intros interval w3.
      destruct (interval <=? 0); [done | by apply tickerLoop_cancelled]. }
    match goal with
    | |- context [match ?task w with _ => _ end] =>
        destruct (task w) as [[[|]|] w1]
    end; simpl in Htask, Hrun; [|done|].
    - destruct (deferred_shutdown w1 (retM tt)) as (? & ? & ?); done.
    - destruct (deferred_shutdown w1 (logM (LogPanicRecovered "monitor")))
        as (? & ? & ?); [|done|done].
      intros w2. simpl. split; [done|]. by apply shutdowns_quiet. }
  split; [done|]. split; [done|].
  destruct Hinv as (_ & _ & Hcount). by rewrite Hstop in Hcount.
Qed.

End ShutdownFacts.

Lemma shutdownInv_fresh : shutdownInv (w_state freshWorld) (w_events freshWorld).
Proof. split; [done|]. split; [discriminate | done]. Qed.

(** A task that another task stops after the first poll. *)
Lemma Start_shuts_down_once_witness :
  shutdownInv (w_state freshWorld) (w_events freshWorld) /\
  shutdownInv
    (w_state (@Start asciiLib fixtureCodec utcTime MemFs memFs monitorSg0
                envOK ctxLive [InExternalStop; InStopSeen] freshWorld))
    (w_events (@Start asciiLib fixtureCodec utcTime MemFs memFs monitorSg0
                 envOK ctxLive [InExternalStop; InStopSeen] freshWorld)).
Proof.
  split; [exact shutdownInv_fresh|].
  exact (proj1 (@Start_shuts_down_once asciiLib fixtureCodec utcTime MemFs
                  memFs monitorSg0 envOK ctxLive [InExternalStop; InStopSeen]
                  freshWorld shutdownInv_fresh)).
Defined.

(** A task whose context is cancelled after the second poll. *)
Lemma Start_ends_when_cancelled_witness :
  (InCtxDone ∈ [InTick envCritical ctxLive; InCtxDone] /\
   shutdownInv (w_state freshWorld) (w_events freshWorld)) /\
  doneClosed
    (w_state (@Start asciiLib fixtureCodec utcTime MemFs memFs monitorSg0
                envOK ctxLive [InTick envCritical ctxLive; InCtxDone]
                freshWorld)) = true.
Proof.
  assert (InCtxDone ∈ [InTick envCritical ctxLive; InCtxDone]) as Hin
    by (right; left).
  split; [split; [exact Hin | exact shutdownInv_fresh]|].
  exact (proj1 (@Start_ends_when_cancelled asciiLib fixtureCodec utcTime MemFs
                  memFs monitorSg0 envOK ctxLive _ freshWorld Hin
                  shutdownInv_fresh)).
Defined.



(** ** Back-off *)

Lemma incr64_small (n : Z) : 0 <= n < 2 ^ 63 - 1 -> incr64 n = n + 1.
Proof. intros Hn. unfold incr64. rewrite Z.mod_small; lia. Qed.

Section BackoffFacts.
Context {F : Type}.
Variable d : DeviceMonitor.
Variables (after backoff : Z) (notify : bool).
Hypothesis Hafter : PollBackoffAfter (dm_cfg d) = Some after.
Hypothesis Htime : PollBackoffTime (dm_cfg d) = Some backoff.
Hypothesis Hnotify : PollBackoffNotify (dm_cfg d) = Some notify.
Hypothesis Hstay : PollBackoffStopMonitor (dm_cfg d) = Some false.
Hypothesis Hsmall : after < 2 ^ 63.
Variable env : FailEnv.
Hypothesis Hlive : fe_ctxDone env = false.
Hypothesis Hwake : fe_wake env = WakeTimer.
Variable err : error.

Lemma pollFailure_below (w : World F) :
  stopClosed (w_state w) = false ->
  0 <= pollFailures (w_state w) ->
  pollFailures (w_state w) + 1 < after ->
  pollFailure d env err w =
  (Some tt,
   {| w_state := setPollFailures (pollFailures (w_state w) + 1) (w_state w);
      w_fs := w_fs w;
      w_events := w_events w ++
        [EvLog (LogPollError (pollFailures (w_state w) + 1) after err)] |}).
Proof.
  intros Hstop Hpos Hlt.
  unfold pollFailure, bindM, getState, modifyState, derefM, logM, emit, retM.
  cbn [fst snd w_state w_fs w_events]. rewrite Hlive, Hstop, Hafter.
  cbn [orb setPollFailures pollFailures].
  rewrite incr64_small by lia.
  destruct (Z.ltb_spec (pollFailures (w_state w) + 1) after); [done | lia].
Qed.

Lemma pollFailure_threshold (w : World F) :
  stopClosed (w_state w) = false ->
  0 <= pollFailures (w_state w) ->
  pollFailures (w_state w) + 1 = after ->
  pollFailure d env err w =
  (Some tt,
   {| w_state := setPollFailures 0 (w_state w);
      w_fs := w_fs w;
      w_events := w_events w ++
        [EvLog (LogMessage (MsgBackoff after after backoff err))] ++
        backoffNotes d notify (MsgBackoff after after backoff err) |}).
Proof.
  intros Hstop Hpos Heq.
  unfold pollFailure, bindM, getState, modifyState, derefM, logM, emit, retM,
    whenM, backoffNotes.
  cbn [fst snd w_state w_fs w_events]. rewrite Hlive, Hstop, Hafter.
  cbn [orb setPollFailures pollFailures].
  rewrite incr64_small by lia. rewrite Heq.
  destruct (Z.ltb_spec after after); [lia|].
  rewrite Hstay, Htime, Hnotify, Hwake.
  destruct (dm_notifier d); [destruct notify|];
    cbn [fst snd w_state w_fs w_events setPollFailures pollFailures
         lastAlertHash previousResults onceDone stopClosed doneClosed];
    rewrite <- ?app_assoc, ?app_nil_r; reflexivity.
Qed.

Lemma failures_cycle (n : nat) (w : World F) :
  stopClosed (w_state w) = false ->
  0 <= pollFailures (w_state w) ->
  pollFailures (w_state w) + Z.of_nat n + 1 = after ->
  failures (S n) d env err w =
  (Some tt,
   {| w_state := setPollFailures 0 (w_state w);
      w_fs := w_fs w;
      w_events := w_events w ++
        pollErrorLines n (pollFailures (w_state w)) after err ++
        [EvLog (LogMessage (MsgBackoff after after backoff err))] ++
        backoffNotes d notify (MsgBackoff after after backoff err) |}).
Proof.
  revert w. induction n as [|n IH]; intros w Hstop Hpos Heq.
  - cbn [failures pollErrorLines].
    rewrite (bindM_returns _ _ _ _ _ (pollFailure_threshold w Hstop Hpos
                                        ltac:(lia))).
    reflexivity.
  - change (failures (S (S n)) d env err)
      with (pollFailure (F := F) d env err ;; failures (S n) d env err).
    rewrite (bindM_returns _ _ _ _ _ (pollFailure_below w Hstop Hpos
                                        ltac:(lia))).
    rewrite IH; cbn [w_state w_fs w_events setPollFailures pollFailures
                     stopClosed]; [|done|lia|lia].
    cbn [pollErrorLines]. by rewrite <- app_assoc.
Qed.
End BackoffFacts.

(** X19. With [PollBackoffAfter] = [after] > 0 and a monitor that is
    not configured to stop, [after] failed polls in a row from a count of
    zero log [after - 1] error lines numbered from 1, then the back-off
    message, start one notification when there is a notifier and
    [PollBackoffNotify] is set, and, the back-off time having passed,
    leave the count at zero again: the state of the monitor and the
    filesystem are as before. *)
Theorem pollFailure_backoff_cycle {F : Type} (d : DeviceMonitor)
    (after backoff : Z) (notify : bool) (env : FailEnv) (err : error)
    (w : World F) :
  PollBackoffAfter (dm_cfg d) = Some after ->
  PollBackoffTime (dm_cfg d) = Some backoff ->
  PollBackoffNotify (dm_cfg d) = Some notify ->
  PollBackoffStopMonitor (dm_cfg d) = Some false ->
  0 < after < 2 ^ 63 ->
  fe_ctxDone env = false -> fe_wake env = WakeTimer ->
  stopClosed (w_state w) = false -> pollFailures (w_state w) = 0 ->
  let msg := MsgBackoff after after backoff err in
  let w' := snd (failures (Z.to_nat after) d env err w) in
  fst (failures (Z.to_nat after) d env err w) = Some tt /\
  w_state w' = w_state w /\ w_fs w' = w_fs w /\
  w_events w' =
    w_events w ++ pollErrorLines (Z.to_nat after - 1) 0 after err ++
    [EvLog (LogMessage msg)] ++ backoffNotes d notify msg.
Proof.
  intros Hafter Htime Hnotify Hstay Hrange Hlive Hwake Hstop Hzero msg w'.
  subst w' msg.
  replace (Z.to_nat after) with (S (Z.to_nat after - 1)) by lia.
  rewrite (failures_cycle d after backoff notify Hafter Htime Hnotify Hstay
             ltac:(lia) env Hlive Hwake err (Z.to_nat after - 1) w Hstop)
    by lia.
  cbn [fst snd w_state w_fs w_events]. rewrite Hzero.
  replace (S (Z.to_nat after - 1) - 1)%nat with (Z.to_nat after - 1)%nat
    by lia.
  repeat split; try done.
  destruct (w_state w); simpl in *. by subst.
Qed.

(** Three failures of the monitor of the examples, as in scenario S6. *)
Lemma pollFailure_backoff_cycle_witness :
  (PollBackoffAfter (dm_cfg monitorSg0) = Some 3 /\
   PollBackoffTime (dm_cfg monitorSg0) = Some (3 * Minute) /\
   PollBackoffNotify (dm_cfg monitorSg0) = Some true /\
   PollBackoffStopMonitor (dm_cfg monitorSg0) = Some false /\
   0 < 3 < 2 ^ 63 /\
   fe_ctxDone ctxLive = false /\ fe_wake ctxLive = WakeTimer /\
   stopClosed (w_state freshWorld) = false /\
   pollFailures (w_state freshWorld) = 0) /\
  w_state (snd (failures (Z.to_nat 3) monitorSg0 ctxLive
                  (errExternal "sg_ses: exit status 15") freshWorld))
  = w_state freshWorld.
Proof.
  assert (0 < 3 < 2 ^ 63) as Hrange by lia.
  split; [by repeat split|].
  exact (proj1 (proj2 (pollFailure_backoff_cycle monitorSg0 3 (3 * Minute) true
                         ctxLive (errExternal "sg_ses: exit status 15")
                         freshWorld eq_refl eq_refl eq_refl eq_refl Hrange
                         eq_refl eq_refl eq_refl eq_refl))).
Defined.

(** ** Resolver and supervisor *)

(** X20. The two directions of the resolver agree: an address that
    [FindAddress] returns for a device path resolves to that path with
    [FindDevice], and [FindAddress] reports a path as not found, with the
    empty address, only when no address resolves to it. *)
Theorem FindAddress_FindDevice (f : DeviceFinder) (devicePath : string) :
  match FindAddress f devicePath with
  | (a, true) => FindDevice f a = (devicePath, true)
  | (a, false) =>
      a = "" /\ forall a', FindDevice f a' <> (devicePath, true)
  end.
Proof.
  unfold FindAddress, FindDevice.
  destruct (List.find _ _) as [[k v]|] eqn:Efind.
  - apply find_some in Efind as [Hin Heq]. simpl in Heq.
    apply String.eqb_eq in Heq. subst v.
    apply list_elem_of_In, elem_of_map_to_list in Hin. by rewrite Hin.
  - split; [done|]. intros a'.
    destruct (devices f !! a') as [v|] eqn:Ea; [|done].
    intros [= ->].
    apply elem_of_map_to_list, list_elem_of_In in Ea.
    apply (find_none _ _ Efind) in Ea. simpl in Ea.
    by rewrite String.eqb_refl in Ea.
Qed.

(** X21. [lookupDevice] fails, with [errDeviceLookupFailed], exactly
    for an entry that has an address and no device path when the address
    cannot be resolved (no resolver, or the resolver does not know it);
    the entry is then unchanged and nothing is logged. Otherwise only the
    device path and the address of the entry may change: an address that
    resolves replaces the device path; one that does not is dropped in
    favour of the path given; and without an address the path is kept
    and the address is the one the resolver knows for it, if any. *)
Theorem lookupDevice_outcome (deviceCfg : DeviceYAML)
    (finder : option DeviceLookuper) :
  let unresolved :=
    forall f, finder = Some f ->
              snd (lk_FindDevice f (dy_Address deviceCfg)) = false in
  match lookupDevice deviceCfg finder with
  | (Some e, c, lines) =>
      errorsIs e errDeviceLookupFailed /\ c = deviceCfg /\ lines = [] /\
      dy_Address deviceCfg <> "" /\ dy_Device deviceCfg = "" /\ unresolved
  | (None, c, lines) =>
      sameEntry deviceCfg c /\
      ~ (dy_Address deviceCfg <> "" /\ dy_Device deviceCfg = "" /\ unresolved)
      /\
      if String.eqb (dy_Address deviceCfg) "" then
        dy_Device c = dy_Device deviceCfg /\
        match finder with
        | Some f =>
            if String.eqb (dy_Device deviceCfg) "" then dy_Address c = ""
            else if snd (lk_FindAddress f (dy_Device deviceCfg))
            then dy_Address c = fst (lk_FindAddress f (dy_Device deviceCfg))
            else dy_Address c = ""
        | None => dy_Address c = ""
        end
      else
        match finder with
        | Some f =>
            if snd (lk_FindDevice f (dy_Address deviceCfg))
            then dy_Device c = fst (lk_FindDevice f (dy_Address deviceCfg)) /\
                 dy_Address c = dy_Address deviceCfg
            else dy_Device c = dy_Device deviceCfg /\ dy_Address c = ""
        | None => dy_Device c = dy_Device deviceCfg /\ dy_Address c = ""
        end
  end.
Proof.
  intros unresolved. subst unresolved. unfold lookupDevice, sameEntry.
  destruct (String.eqb_spec (dy_Address deviceCfg) "") as [Ha|Ha]; simpl.
  - destruct (String.eqb_spec (dy_Device deviceCfg) "") as [Hd|Hd]; simpl.
    + split; [done|]. split; [tauto|]. split; [done|]. by destruct finder.
    + destruct finder as [f|]; simpl.
      * destruct (lk_FindAddress f (dy_Device deviceCfg)) as [addr [|]];
          simpl; (split; [done|]); (split; [tauto | done]).
      * split; [done|]. split; [tauto | done].
  - destruct finder as [f|].
    + destruct (lk_FindDevice f (dy_Address deviceCfg)) as [dev [|]] eqn:Ef;
        simpl.
      * split; [done|]. split; [|done].
        intros (_ & _ & Hun). specialize (Hun f eq_refl).
        rewrite Ef in Hun. done.
      * destruct (String.eqb_spec (dy_Device deviceCfg) "") as [Hd|Hd].
        -- split; [simpl; tauto|]. repeat split; try done.
           intros f' [= <-]. by rewrite Ef.
        -- simpl. split; [done|]. split; [tauto | done].
    + destruct (String.eqb_spec (dy_Device deviceCfg) "") as [Hd|Hd].
      * split; [simpl; tauto|]. repeat split; done.
      * simpl. split; [done|]. split; [tauto | done].
Qed.

Section ProgramFacts.
Context `{GoLib} `{GoYAML} {F : Type} `{AferoFs F}.
Variable afero_NewOsFs : F.

Lemma setupDeviceMonitor_inr cfg deviceCfg (fsys : F) r m :
  setupDeviceMonitor cfg deviceCfg fsys r = inr m ->
  dev_Path (dm_device m) = dy_Device deviceCfg /\
  dy_Device deviceCfg <> "" /\ completeConfig (dm_cfg m).
Proof.
  unfold setupDeviceMonitor.
  destruct (dy_ScriptNotifier deviceCfg) as [sn|];
    [destruct (NewScriptNotifier _ _ _ _ _); [discriminate|]|];
    (destruct (NewDeviceMonitor _ _ _ _ _ _) as [e|m'] eqn:Enew;
     [discriminate|]);
    intros [= <-];
    apply NewDeviceMonitor_inr in Enew
      as (-> & _ & _ & _ & Hcfg & Hpath & _);
    apply mergeDeviceMonitorConfig_inr in Hcfg as [Hc _]; done.
Qed.

Lemma setupDevices_monitors cfg (fsys : F) finder r i devs s s' :
  setupDevices cfg fsys finder r i devs s = (None, s') ->
  keyedByPath (su_monitors s) ->
  keyedByPath (su_monitors s') /\
  size (su_monitors s') =
    (size (su_monitors s) + length (enabledEntries devs))%nat.
Proof.
  revert i s. induction devs as [|dev devs IH]; intros i s; simpl.
  - intros [= <-] Hs. split; [done | lia].
  - destruct (dy_Enabled dev) eqn:Een; simpl; [|apply IH].
    destruct (String.eqb (dy_Device dev) "" && String.eqb (dy_Address dev) "");
      [discriminate|].
    match goal with
    | |- context [match ?c with inl _ => _ | inr _ => _ end] =>
        destruct c as [e|seen]
    end; [discriminate|].
    destruct (lookupDevice dev finder) as [[[e|] dev'] lines]; [discriminate|].
    simpl.
    destruct (su_monitors s !! dy_Device dev') as [m0|] eqn:Em0;
      [discriminate|].
    destruct (setupDeviceMonitor cfg dev' fsys r) as [e|m] eqn:Esetup;
      [discriminate|].
    intros Hrun Hs. apply IH in Hrun as [Hkeys Hsize]; simpl in *.
    + split; [done|]. rewrite Hsize, map_size_insert_None by done. lia.
    + intros k m' Hk. apply lookup_insert_Some in Hk as [[<- <-]|[_ Hk]].
      * by apply setupDeviceMonitor_inr in Esetup.
      * by apply Hs.
Qed.

Lemma setupDevices_wrapped cfg (fsys : F) finder r i devs s e s' :
  setupDevices cfg fsys finder r i devs s = (Some e, s') ->
  exists msg e', e = errWrap msg e'.
Proof.
  revert i s. induction devs as [|dev devs IH]; intros i s; simpl;
    [discriminate|].
  destruct (dy_Enabled dev); simpl; [|apply IH].
  destruct (String.eqb (dy_Device dev) "" && String.eqb (dy_Address dev) "");
    [intros [= <- <-]; by eexists _, _|].
  match goal with
  | |- context [match ?c with inl _ => _ | inr _ => _ end] =>
      destruct c as [e0|seen] eqn:Echeck
  end.
  { intros [= <- <-].
    destruct (dy_MonitorConfig dev) as [mc|]; [|discriminate].
    destruct (OutputDir mc) as [dir|]; [|discriminate].
    destruct (default false _); [|discriminate].
    injection Echeck as <-. by eexists _, _. }
  destruct (lookupDevice dev finder) as [[[e0|] dev'] lines];
    [intros [= <- <-]; by eexists _, _|].
  simpl.
  destruct (su_monitors s !! dy_Device dev');
    [intros [= <- <-]; by eexists _, _|].
  destruct (setupDeviceMonitor cfg dev' fsys r);
    [intros [= <- <-]; by eexists _, _ | apply IH].
Qed.

(** X22. When [NewProgram] succeeds, every monitor of the program is
    stored under the path of its device, which is not empty, and has a
    configuration without nil fields; and there is one monitor for each
    entry of the configuration that is enabled. *)
Theorem NewProgram_monitors (yamlConfig : string) (f : option F)
    (d : option DeviceLookuper) (r : option CommandRunner)
    (p : Program) (lines : list LogLine) :
  NewProgram afero_NewOsFs yamlConfig f d r = (inr p, lines) ->
  keyedByPath (monitors p) /\
  exists config,
    yaml_Decode yamlConfig = inr config /\ Devices config <> [] /\
    size (monitors p) = length (enabledEntries (Devices config)).
Proof.
  unfold NewProgram.
  destruct (yaml_Decode yamlConfig) as [e|config]; [discriminate|].
  destruct (length (Devices config) =? 0)%nat eqn:Elen; [discriminate|].
  destruct (match d with Some _ => _ | None => _ end) as [finder lines0].
  destruct (setupDevices _ _ _ _ _ _ _) as [[e|] s] eqn:Erun; [discriminate|].
  intros [= <- <-]. simpl.
  apply setupDevices_monitors in Erun as [Hkeys Hsize]; simpl in *.
  - split; [done|]. exists config. split; [done|].
    split; [|by rewrite Hsize, map_size_empty].
    intros E. by rewrite E in Elen.
  - intros k m Hk. by rewrite lookup_empty in Hk.
Qed.

(** X23. [NewProgram] returns the bare error [errNoDevices] exactly
    when the YAML decodes to a configuration without any device entry;
    every other error it returns is a wrapped one. *)
Theorem NewProgram_no_devices (yamlConfig : string) (f : option F)
    (d : option DeviceLookuper) (r : option CommandRunner) :
  (fst (NewProgram afero_NewOsFs yamlConfig f d r) = inl errNoDevices <->
   exists config,
     yaml_Decode yamlConfig = inr config /\ Devices config = []) /\
  (forall e,
     fst (NewProgram afero_NewOsFs yamlConfig f d r) = inl e ->
     e = errNoDevices \/ exists msg e', e = errWrap msg e').
Proof.
  unfold NewProgram.
  destruct (yaml_Decode yamlConfig) as [e0|config]; simpl.
  { split; [split; [discriminate | by intros (? & ? & _)]|].
    intros e [= <-]. right. by eexists _, _. }
  destruct (length (Devices config) =? 0)%nat eqn:Elen; simpl.
  { apply Nat.eqb_eq, length_zero_iff_nil in Elen.
    split; [split; [by exists config | done]|]. intros e [= <-]. by left. }
  assert (Devices config <> []) as Hne by (intros E; by rewrite E in Elen).
  destruct (match d with Some _ => _ | None => _ end) as [finder lines0].
  destruct (setupDevices _ _ _ _ _ _ _) as [[e0|] s] eqn:Erun; simpl.
  - apply setupDevices_wrapped in Erun as (msg & e' & ->).
    split; [split; [discriminate | by intros (? & [= <-] & ?)]|].
    intros e [= <-]. right. by eexists _, _.
  - split; [split; [discriminate | by intros (? & [= <-] & ?)] | discriminate].
Qed.
End ProgramFacts.

(** The configuration of the examples with one enabled device. *)
Lemma NewProgram_monitors_witness :
  @NewProgram asciiLib fixtureYAML MemFs memFs emptyFs yamlSpare
    (Some devFs) (Some noAddresses) (Some SuppliedRunner)
  = (inr programSg0, []) /\
  keyedByPath (monitors programSg0).
Proof.
  assert (@NewProgram asciiLib fixtureYAML MemFs memFs emptyFs yamlSpare
            (Some devFs) (Some noAddresses) (Some SuppliedRunner)
          = (inr programSg0, [])) as Hnew by (vm_compute; reflexivity).
  split; [exact Hnew|].
  exact (proj1 (@NewProgram_monitors asciiLib fixtureYAML MemFs memFs emptyFs
                  yamlSpare (Some devFs) (Some noAddresses)
                  (Some SuppliedRunner) programSg0 [] Hnew)).
Defined.

(** ** Order of the change lines *)

Lemma changeLess_neither (a b : Change) :
  changeLess a b = false -> changeLess b a = false ->
  ch_Type a = ch_Type b /\ ch_TypeNum a = ch_TypeNum b.
Proof.
  unfold changeLess.
  repeat match goal with
         | |- context [?x =? ?y] => destruct (Z.eqb_spec x y)
         | |- context [?x <? ?y] => destruct (Z.ltb_spec x y)
         end; intros; try done; lia.
Qed.

Lemma changeLess_asym (a b : Change) :
  changeLess a b = true -> changeLess b a = false.
Proof.
  unfold changeLess.
  repeat match goal with
         | |- context [?x =? ?y] => destruct (Z.eqb_spec x y)
         | |- context [?x <? ?y] => destruct (Z.ltb_spec x y)
         end; intros; try done; lia.
Qed.

Lemma changeLess_neg_trans (a b c : Change) :
  changeLess a b = false -> changeLess b c = false -> changeLess a c = false.
Proof.
  unfold changeLess.
  repeat match goal with
         | |- context [?x =? ?y] => destruct (Z.eqb_spec x y)
         | |- context [?x <? ?y] => destruct (Z.ltb_spec x y)
         end; intros; try done; lia.
Qed.

Lemma ordered_unique (l1 l2 : list Change) :
  l1 ≡ₚ l2 -> ordered l1 -> ordered l2 ->
  (forall a b, a ∈ l1 -> b ∈ l1 ->
               changeLess a b = false -> changeLess b a = false -> a = b) ->
  l1 = l2.
Proof.
  revert l2. induction l1 as [|a l1 IH]; intros l2 Hperm H1 H2 Hanti.
  - by apply Permutation_nil in Hperm.
  - destruct l2 as [|b l2]; [by apply Permutation_nil_r in Hperm|].
    destruct H1 as [Ha H1], H2 as [Hb H2].
    assert (a = b) as <-.
    { assert (a ∈ b :: l2) as Hin2 by (rewrite <- Hperm; by left).
      assert (b ∈ a :: l1) as Hin1 by (rewrite Hperm; by left).
      apply elem_of_cons in Hin2 as [?|Hin2]; [done|].
      apply elem_of_cons in Hin1 as [?|Hin1]; [done|].
      rewrite Forall_forall in Ha, Hb.
      apply Hanti; [by left | by right | by apply Hb | by apply Ha]. }
    f_equal. apply IH; try done.
    + by apply Permutation_cons_inv in Hperm.
    + intros x y Hx Hy. apply Hanti; by right.
Qed.

Lemma insertBy_perm (x : Change) (l : list Change) :
  insertBy changeLess x l ≡ₚ x :: l.
Proof.
  induction l as [|y l IH]; simpl; [done|].
  destruct (changeLess y x); [|done]. rewrite IH. apply Permutation_swap.
Qed.

Lemma insertBy_ordered (x : Change) (l : list Change) :
  ordered l -> ordered (insertBy changeLess x l).
Proof.
  induction l as [|y l IH]; simpl; [done|]. intros [Hy Hl].
  destruct (changeLess y x) eqn:Eyx; simpl.
  - split; [|by apply IH]. rewrite insertBy_perm.
    constructor; [by apply changeLess_asym | done].
  - split; [|done]. constructor; [done|].
    eapply Forall_impl; [exact Hy|]. simpl. intros b Hb.
    by apply changeLess_neg_trans with y.
Qed.

Lemma insertionSort_sortsChanges : @sortsChanges asciiLib.
Proof.
  intros cs. unfold sortChanges. simpl. unfold insertionSort.
  induction cs as [|c cs [IHp IHo]]; simpl; [done|]. split.
  - by rewrite insertBy_perm, IHp.
  - by apply insertBy_ordered.
Qed.

Section OrderFacts.
Context `{GoLib}.

Lemma rowsDiff_same_id (prev curr : gmap string Result) (a b : Change) :
  a ∈ rowsDiff prev curr -> b ∈ rowsDiff prev curr ->
  ch_ID a = ch_ID b -> a = b.
Proof.
  intros Ha Hb Hid. apply rowsDiff_elem in Ha as [_ Ha].
  apply rowsDiff_elem in Hb as [_ Hb]. rewrite <- Hid in Hb.
  destruct (diffStep_cases prev curr (ch_ID a)) as [E|(ch & E & _)];
    rewrite E in Ha, Hb.
  - by apply not_elem_of_nil in Ha.
  - apply list_elem_of_singleton in Ha, Hb. congruence.
Qed.

Lemma rowsDiff_id_text (prev curr : gmap string Result) (ch : Change) :
  wellKeyed prev -> wellKeyed curr -> ch ∈ rowsDiff prev curr ->
  ch_ID ch = strconv_Itoa (ch_Type ch) +:+ "#" +:+ strconv_Itoa (ch_TypeNum ch).
Proof.
  intros Hprev Hcurr Hch. apply rowsDiff_elem in Hch as [Hk Hch].
  destruct (diffStep_change _ _ _ _ Hch) as (_ & Hb & Ha & Ht & Hn).
  rewrite Ht, Hn.
  destruct (prev !! ch_ID ch) as [p|] eqn:Ep,
           (curr !! ch_ID ch) as [c|] eqn:Ec; simpl.
  - pose proof (Hprev _ _ Ep) as Hp. pose proof (Hcurr _ _ Ec) as Hc.
    assert (keyFor c = keyFor p) as Hkey by congruence.
    apply keyFor_same_key in Hkey as [-> ->].
    assert (forall x, fnz x x = x) as Hsame
      by (intros x; unfold fnz; by destruct (x =? 0)).
    rewrite !Hsame. exact Hp.
  - exact (Hprev _ _ Ep).
  - pose proof (Hcurr _ _ Ec) as Hc.
    assert (forall x, fnz x 0 = x) as Hzero.
    { intros x. unfold fnz. destruct (Z.eqb_spec x 0); simpl; congruence. }
    rewrite !Hzero. exact Hc.
  - apply elem_of_union in Hk as [Hk|Hk]; apply elem_of_dom in Hk as [? ?];
      congruence.
Qed.

(** X24. The text of an alert does not depend on the order in which the
    changes were found. For result maps keyed as [parseSES] keys them,
    when [sort.Slice] orders the slice, any rearrangement of the changes
    of a diff is sorted to the same slice, gives the same change lines
    and so the same message and the same hash for the suppression of
    repeated alerts. *)
Theorem changesAsText_order_independent (prev curr : gmap string Result)
    (l : list Change) :
  sortsChanges -> wellKeyed prev -> wellKeyed curr ->
  l ≡ₚ rowsDiff prev curr ->
  sortChanges l = sortChanges (rowsDiff prev curr) /\
  changesAsText l = changesAsText (rowsDiff prev curr) /\
  alertHash (buildMessage (changesAsText l)) =
    alertHash (buildMessage (changesAsText (rowsDiff prev curr))).
Proof.
  intros Hsort Hprev Hcurr Hperm.
  assert (sortChanges l = sortChanges (rowsDiff prev curr)) as Hsame.
  { destruct (Hsort l) as [Hp1 Ho1].
    destruct (Hsort (rowsDiff prev curr)) as [Hp2 Ho2].
    apply ordered_unique; try done.
    - by rewrite Hp1, Hp2.
    - intros a b Ha Hb Hab Hba. rewrite Hp1, Hperm in Ha, Hb.
      destruct (changeLess_neither a b Hab Hba) as [Ht Hn].
      apply (rowsDiff_same_id prev curr); try done.
      rewrite (rowsDiff_id_text prev curr a), (rowsDiff_id_text prev curr b)
        by done.
      by rewrite Ht, Hn. }
  split; [done|]. unfold changesAsText. by rewrite Hsame.
Qed.
End OrderFacts.

Lemma wellKeyed_insert (k : string) (r : Result) (m : gmap string Result) :
  k = keyFor r -> wellKeyed m -> wellKeyed (<[ k := r ]> m).
Proof.
  intros -> Hm k' r' Hk.
  apply lookup_insert_Some in Hk as [[<- <-]|[_ Hk]]; [done | by apply Hm].
Qed.

(** Two elements change between two polls. The diff lists the fan before
    the enclosure; the same two changes found in the other order give the
    same lines, those of the sorted slice. *)
Lemma changesAsText_order_independent_witness :
  (@sortsChanges asciiLib /\
   wellKeyed resultsBefore /\ wellKeyed resultsAfter /\
   [changeS2; changeFan] ≡ₚ @rowsDiff asciiLib resultsBefore resultsAfter) /\
  @rowsDiff asciiLib resultsBefore resultsAfter = [changeFan; changeS2] /\
  [changeS2; changeFan] <> [changeFan; changeS2] /\
  @sortChanges asciiLib [changeS2; changeFan] = [changeFan; changeS2] /\
  @changesAsText asciiLib [changeS2; changeFan] =
  @changesAsText asciiLib [changeFan; changeS2].
Proof.
  assert (wellKeyed resultsBefore) as H1
    by (apply wellKeyed_insert; [done | by apply wellKeyed_singleton]).
  assert (wellKeyed resultsAfter) as H2
    by (apply wellKeyed_insert; [done | by apply wellKeyed_singleton]).
  assert (@rowsDiff asciiLib resultsBefore resultsAfter
          = [changeFan; changeS2]) as Hdiff by (vm_compute; reflexivity).
  assert ([changeS2; changeFan]
            ≡ₚ @rowsDiff asciiLib resultsBefore resultsAfter) as H3
    by (rewrite Hdiff; apply Permutation_swap).
  split; [by repeat split; try apply insertionSort_sortsChanges|].
  split; [exact Hdiff|]. split; [discriminate|].
  destruct (@changesAsText_order_independent asciiLib resultsBefore
              resultsAfter [changeS2; changeFan]
              insertionSort_sortsChanges H1 H2 H3) as (Hsort & Htext & _).
  rewrite Hdiff in Hsort, Htext. split; [|exact Htext].
  rewrite Hsort. vm_compute. reflexivity.
Defined.

(** ** Commands and fetching *)

Section RetryRule.
Context {W : Type}.
Variables (ctx : Context W) (f : W -> option error * W)
          (onAttemptErr : option (Z -> error -> W -> W))
          (attempts interval : Z).
Variable I : W -> list (option error) -> Prop.
Hypothesis I_success :
  forall w calls w', I w calls -> f w = (None, w') -> I w' (calls ++ [None]).
Hypothesis I_failure :
  forall w calls e w',
    I w calls -> f w = (Some e, w') ->
    I (match onAttemptErr with
       | Some cb => cb (Z.of_nat (length calls) + 1) e w'
       | None => w'
       end) (calls ++ [Some e]).
Hypothesis I_wait :
  forall w calls e,
    I w (calls ++ [Some e]) ->
    I (snd (ctx_DoneOrAfter ctx interval w)) (calls ++ [Some e]).

Lemma retryLoop_rule n e w calls :
  I w calls ->
  let r := retryLoop n ctx f onAttemptErr attempts interval
             (Z.of_nat (length calls)) e w calls in
  I (rt_world r) (rt_calls r).
Proof.
  revert e w calls. induction n as [|n IH]; intros e w calls Hw; simpl;
    [done|].
  destruct (ctx_Err ctx w); [done|].
  destruct (f w) as [[ee|] w'] eqn:Ef; [|by eapply I_success].
  pose proof (I_failure w calls ee w' Hw Ef) as Hcb.
  assert (Z.of_nat (length calls) + 1
          = Z.of_nat (length (calls ++ [Some ee]))) as Hcount
    by (rewrite length_app; simpl; lia).
  destruct (Z.of_nat (length calls) + 1 <? attempts).
  - pose proof (I_wait _ _ _ Hcb) as Hwait.
    destruct (ctx_DoneOrAfter ctx interval _) as [[cerr|] w'']; [done|].
    pose proof (IH (Some ee) w'' _ Hwait) as Hnext.
    rewrite <- Hcount in Hnext. exact Hnext.
  - pose proof (IH (Some ee) _ _ Hcb) as Hnext.
    rewrite <- Hcount in Hnext. exact Hnext.
Qed.

Lemma withRetries_rule w :
  I w [] ->
  let r := withRetries ctx (Some f) onAttemptErr attempts interval w in
  I (rt_world r) (rt_calls r).
Proof. intros Hw. exact (retryLoop_rule _ None w [] Hw). Qed.

Lemma withRetries_ends w :
  retryEnds attempts
    (withRetries ctx (Some f) onAttemptErr attempts interval w).
Proof.
  by apply (retryLoop_ends ctx f onAttemptErr attempts interval
              (Z.to_nat attempts) [] w).
Qed.

Lemma withRetries_nil_error w :
  let r := withRetries ctx (Some f) onAttemptErr attempts interval w in
  rt_err r = None ->
  (attempts <= 0 /\ rt_calls r = []) \/
  (0 < attempts /\ last (rt_calls r) = Some None).
Proof.
  intros r Herr. destruct (withRetries_ends w) as (_ & Hlen & Hcase).
  fold r in Hlen, Hcase.
  destruct Hcase as [(errs & Hcalls & _)|[(errs & cerr & _ & _ & Herr')|
                                          (errs & Hcalls & Hlen' & Hlast)]].
  - right. rewrite Hcalls, last_snoc. split; [|done].
    rewrite Hcalls, length_app in Hlen. simpl in Hlen. lia.
  - congruence.
  - rewrite Herr in Hlast. destruct errs as [|e errs _] using rev_ind.
    + left. simpl in Hlen'. split; [lia | done].
    + by rewrite last_snoc in Hlast.
Qed.
End RetryRule.

Section RunnerFacts.
Context `{GoJSON} {Hst : Type} `{GoExec Hst}.

Lemma runAttempt_world (cfg : RunCommandConfig) w e w' :
  runAttempt cfg w = (e, w') -> fr_log w' = fr_log w.
Proof.
  unfold runAttempt. destruct (cmd_Run _ _ _ _) as [[[out serr] e0] h].
  by intros [= _ <-].
Qed.

Lemma runAttempt_success (cfg : RunCommandConfig) w w' :
  runAttempt cfg w = (None, w') ->
  (exists h,
     cmd_Run h (rc_Command cfg) (rc_Args cfg) (rc_AttemptTimeout cfg)
     = ((fst (fr_vars w'), snd (fr_vars w'), None), fr_host w')) /\
  (rc_ExpectJSON cfg = true -> json_Valid (fst (fr_vars w')) = true).
Proof.
  unfold runAttempt.
  destruct (cmd_Run _ _ _ _) as [[[out serr] e] h] eqn:Ecmd.
  destruct e as [e|]; [discriminate|].
  destruct (rc_ExpectJSON cfg && negb (json_Valid out)) eqn:Ejson;
    [discriminate|].
  intros [= <-]. simpl. split; [by eexists|].
  intros Hexp. rewrite Hexp in Ejson. simpl in Ejson.
  by apply negb_false_iff in Ejson.
Qed.

Lemma Run_last (ctx : Context Hst) (cfg : RunCommandConfig) init :
  let r := withRetries (hostContext ctx) (Some (runAttempt cfg))
             (Some (runAttemptErr cfg)) (rc_Attempts cfg)
             (rc_AttemptInterval cfg) init in
  match last (rt_calls r) with
  | None => rt_world r = init
  | Some None =>
      (exists h,
         cmd_Run h (rc_Command cfg) (rc_Args cfg) (rc_AttemptTimeout cfg)
         = ((fst (fr_vars (rt_world r)), snd (fr_vars (rt_world r)), None),
            fr_host (rt_world r))) /\
      (rc_ExpectJSON cfg = true ->
       json_Valid (fst (fr_vars (rt_world r))) = true)
  | Some (Some _) => True
  end.
Proof.
  apply (withRetries_rule (hostContext ctx) (runAttempt cfg)
           (Some (runAttemptErr cfg)) (rc_Attempts cfg)
           (rc_AttemptInterval cfg)
           (fun w calls =>
              match last calls with
              | None => w = init
              | Some None =>
                  (exists h,
                     cmd_Run h (rc_Command cfg) (rc_Args cfg)
                       (rc_AttemptTimeout cfg)
                     = ((fst (fr_vars w), snd (fr_vars w), None),
                        fr_host w)) /\
                  (rc_ExpectJSON cfg = true ->
                   json_Valid (fst (fr_vars w)) = true)
              | Some (Some _) => True
              end)).
  - intros w calls w' _ Hf. rewrite last_snoc.
    exact (runAttempt_success cfg w w' Hf).
  - intros w calls e w' _ _. by rewrite last_snoc.
  - intros w calls e _. by rewrite last_snoc.
  - done.
Qed.

Lemma Run_quiet (ctx : Context Hst) (cfg : RunCommandConfig) init :
  rc_PrintErrors cfg = false -> fr_log init = [] ->
  fr_log (rt_world (withRetries (hostContext ctx) (Some (runAttempt cfg))
                      (Some (runAttemptErr cfg)) (rc_Attempts cfg)
                      (rc_AttemptInterval cfg) init)) = [].
Proof.
  intros Hquiet Hinit.
  apply (withRetries_rule (hostContext ctx) (runAttempt cfg)
           (Some (runAttemptErr cfg)) (rc_Attempts cfg)
           (rc_AttemptInterval cfg) (fun w _ => fr_log w = [])).
  - intros w calls w' Hw Hf. by rewrite (runAttempt_world _ _ _ _ Hf).
  - intros w calls e w' Hw Hf. unfold runAttemptErr. rewrite Hquiet.
    by rewrite (runAttempt_world _ _ _ _ Hf).
  - intros w calls e Hw. simpl. by destruct (ctx_DoneOrAfter ctx _ _).
  - done.
Qed.

(** X25. When [Run] returns without error, either the configuration
    asks for no attempt, and then nothing was executed, nothing logged and
    both outputs are empty; or the outputs are those of the last
    execution, which ended without error and, when JSON is expected,
    printed valid JSON, and the host is as that execution left it. When
    errors are not to be printed, nothing is logged. *)
Theorem Run_success (ctx : Context Hst) (cfg : RunCommandConfig) (host : Hst)
    (stdout stderr : string) (h' : Hst) (lines : list RunLine) :
  Run ctx cfg host = ((stdout, stderr, None), h', lines) ->
  ((rc_Attempts cfg <= 0 /\ stdout = "" /\ stderr = "" /\ h' = host /\
    lines = []) \/
   (0 < rc_Attempts cfg /\
    (exists h,
       cmd_Run h (rc_Command cfg) (rc_Args cfg) (rc_AttemptTimeout cfg)
       = ((stdout, stderr, None), h')) /\
    (rc_ExpectJSON cfg = true -> json_Valid stdout = true))) /\
  (rc_PrintErrors cfg = false -> lines = []).
Proof.
  unfold Run.
  set (init := {| fr_host := host; fr_vars := ("", ""); fr_log := [] |}).
  pose proof (Run_last ctx cfg init) as Hlast.
  pose proof (Run_quiet ctx cfg init) as Hquiet.
  pose proof (withRetries_nil_error (hostContext ctx) (runAttempt cfg)
                (Some (runAttemptErr cfg)) (rc_Attempts cfg)
                (rc_AttemptInterval cfg) init) as Hnil.
  cbv zeta in Hlast, Hnil.
  destruct (withRetries _ _ _ _ _ init) as [attempt err w calls].
  simpl in *. destruct (fr_vars w) as [out serr] eqn:Evars.
  destruct err as [err|]; [discriminate|].
  intros [= -> -> <- <-]. split; [|by auto].
  destruct (Hnil eq_refl) as [[Hle ->]|[Hlt Hcalls]].
  - left. simpl in Hlast. subst w. simpl in Evars.
    by injection Evars as <- <-.
  - right. rewrite Hcalls in Hlast. done.
Qed.
End RunnerFacts.

Section RunnerSuccess.
Context `{GoJSON} {Hst : Type} `{GoExec Hst}.

Lemma Run_positive (ctx : Context Hst) (cfg : RunCommandConfig) (host : Hst)
    (stdout stderr : string) (h' : Hst) (lines : list RunLine) :
  Run ctx cfg host = ((stdout, stderr, None), h', lines) ->
  0 < rc_Attempts cfg ->
  (exists h,
     cmd_Run h (rc_Command cfg) (rc_Args cfg) (rc_AttemptTimeout cfg)
     = ((stdout, stderr, None), h')) /\
  (rc_ExpectJSON cfg = true -> json_Valid stdout = true).
Proof.
  unfold Run.
  set (init := {| fr_host := host; fr_vars := ("", ""); fr_log := [] |}).
  pose proof (Run_last ctx cfg init) as Hlast.
  pose proof (withRetries_nil_error (hostContext ctx) (runAttempt cfg)
                (Some (runAttemptErr cfg)) (rc_Attempts cfg)
                (rc_AttemptInterval cfg) init) as Hnil.
  cbv zeta in Hlast, Hnil.
  destruct (withRetries _ _ _ _ _ init) as [attempt err w calls].
  simpl in *. destruct (fr_vars w) as [out serr] eqn:Evars.
  destruct err as [err|]; [discriminate|].
  intros [= -> -> <- <-] Hpos.
  destruct (Hnil eq_refl) as [[Hle _]|[_ Hcalls]]; [lia|].
  by rewrite Hcalls in Hlast.
Qed.
End RunnerSuccess.

(** The command of a poll on a host where [sg_ses] fails once. *)
Lemma Run_success_witness :
  @Run fixtureJSON ScriptedHost scriptedExec liveContext sgSesCommand hostSg0
  = ((docOK, "", None), {| sh_fs := devFs; sh_runs := [] |},
     [RunFailure "sg_ses" 1 3 (errExternal "exit status 15") ""
        "sg_ses: device busy"]) /\
  (0 < rc_Attempts sgSesCommand /\
   (exists h,
      @cmd_Run ScriptedHost scriptedExec h "sg_ses"
        ["--all"; "--json"; "/dev/sg0"] (15 * Second)
      = ((docOK, "", None), {| sh_fs := devFs; sh_runs := [] |})) /\
   (rc_ExpectJSON sgSesCommand = true -> @json_Valid fixtureJSON docOK = true)).
Proof.
  assert (@Run fixtureJSON ScriptedHost scriptedExec liveContext sgSesCommand
            hostSg0
          = ((docOK, "", None), {| sh_fs := devFs; sh_runs := [] |},
             [RunFailure "sg_ses" 1 3 (errExternal "exit status 15") ""
                "sg_ses: device busy"])) as Hrun by (vm_compute; reflexivity).
  split; [exact Hrun|].
  destruct (proj1 (@Run_success fixtureJSON ScriptedHost scriptedExec
                     liveContext sgSesCommand hostSg0 _ _ _ _ Hrun))
    as [(Hle & _)|Hpos]; [|exact Hpos].
  vm_compute in Hle. by destruct Hle.
Defined.

Section FetchFacts.
Context `{GoLib} `{GoJSON} {Hst : Type} `{AferoFs Hst} `{GoExec Hst}.
Variable supplied_Run :
  Context Hst -> RunCommandConfig -> Hst
  -> (string * string * option error) * Hst * list RunLine.

Lemma readAttempt_success (d : DeviceMonitor) w w' :
  readAttempt d w = (None, w') ->
  afero_ReadFile (fr_host w') (dev_Path (dm_device d)) = inr (fr_vars w') /\
  json_Valid (fr_vars w') = true.
Proof.
  unfold readAttempt.
  destruct (afero_ReadFile _ _) as [e|b] eqn:Eread; [discriminate|].
  destruct (json_Valid b) eqn:Evalid; [|discriminate].
  intros [= <-]. by simpl.
Qed.

Lemma fetch_last (d : DeviceMonitor) (ctx : Context Hst) cb attempts interval
    init :
  let r := withRetries (hostContext ctx) (Some (readAttempt d)) cb
             attempts interval init in
  last (rt_calls r) = Some None ->
  afero_ReadFile (fr_host (rt_world r)) (dev_Path (dm_device d))
  = inr (fr_vars (rt_world r)) /\
  json_Valid (fr_vars (rt_world r)) = true.
Proof.
  apply (withRetries_rule (hostContext ctx) (readAttempt d) cb attempts
           interval
           (fun w calls =>
              last calls = Some None ->
              afero_ReadFile (fr_host w) (dev_Path (dm_device d))
              = inr (fr_vars w) /\
              json_Valid (fr_vars w) = true)).
  - intros w calls w' _ Hf _. exact (readAttempt_success d w w' Hf).
  - intros w calls e w' _ _. by rewrite last_snoc.
  - intros w calls e _. by rewrite last_snoc.
  - done.
Qed.

(** X26. A monitor returned by [NewDeviceMonitor] fetches without
    dereferencing nil, and what a fetch returns without error is valid
    JSON: for a device of type file, the content that the file has on the
    host when the fetch returns; for another device whose runner is the
    [RetryCommandRunner], the standard output of the last execution of
    [sg_ses --all --json <path>], which ended without error. *)
Theorem fetchFromDevice_valid_JSON device cfg (fsys : option Hst) runner
    logger notifier (d : DeviceMonitor) (ctx : Context Hst) (host : Hst) :
  NewDeviceMonitor device cfg fsys runner logger notifier = inr d ->
  exists res h' lines,
    fetchFromDevice supplied_Run d ctx host = Some (res, h', lines) /\
    forall ret,
      res = inr ret ->
      if dev_Type (dm_device d) =? DeviceTypeFile then
        json_Valid ret = true /\
        afero_ReadFile h' (dev_Path (dm_device d)) = inr ret
      else
        forall lg,
          dm_runner d = RetryCommandRunner lg ->
          json_Valid ret = true /\
          exists h timeout serr,
            PollAttemptTimeout (dm_cfg d) = Some timeout /\
            cmd_Run h "sg_ses" ["--all"; "--json"; dev_Path (dm_device d)]
              timeout
            = ((ret, serr, None), h').
Proof.
  intros Hnew.
  apply NewDeviceMonitor_inr in Hnew as (_ & _ & _ & _ & Hcfg & _).
  apply mergeDeviceMonitorConfig_inr in Hcfg
    as (Hc & (n & Hn & Hpos) & _).
  destruct Hc as (_ & _ & [timeout Ht] & [interval Hi] & _).
  unfold fetchFromDevice. rewrite Hn, Ht, Hi. cbn [mbind option_bind].
  destruct (dev_Type (dm_device d) =? DeviceTypeFile).
  - match goal with
    | |- context [withRetries ?c ?f ?cb n interval ?init] =>
        pose proof (fetch_last d ctx cb n interval init) as Hlast;
        pose proof (withRetries_nil_error c (readAttempt d) cb n interval
                      init) as Hnil;
        cbv zeta in Hlast, Hnil;
        destruct (withRetries c f cb n interval init)
          as [attempt err w calls]
    end.
    simpl in *. destruct err as [err|].
    + eexists _, _, _. split; [reflexivity | discriminate].
    + eexists _, _, _. split; [reflexivity|]. intros ret [= <-].
      destruct (Hnil eq_refl) as [[Hle _]|[_ Hcalls]]; [lia|].
      destruct (Hlast Hcalls) as [Hread Hvalid]. done.
  - destruct (runner_Run supplied_Run (dm_runner d) ctx _ host)
      as [[[[out serr] err] h'] lines] eqn:Erun.
    destruct err as [err|].
    + eexists _, _, _. split; [reflexivity | discriminate].
    + eexists _, _, _. split; [reflexivity|]. intros ret [= <-] lg Hlg.
      rewrite Hlg in Erun. simpl in Erun.
      apply Run_positive in Erun as [[h Hcmd] Hvalid]; [|done].
      split; [by apply Hvalid|]. by exists h, timeout, serr.
Qed.
End FetchFacts.

(** The monitor of a file that holds the document of scenario S1. *)
Lemma fetchFromDevice_valid_JSON_witness :
  @NewDeviceMonitor asciiLib ScriptedHost scriptedFs (dm_device monitorFile)
    None (Some hostFile) (Some SuppliedRunner) (Some (dm_logger monitorFile))
    None = inr monitorFile /\
  exists res h' lines,
    @fetchFromDevice asciiLib fixtureJSON ScriptedHost scriptedFs scriptedExec
      idleRun monitorFile liveContext hostFile = Some (res, h', lines) /\
    res = inr docOK.
Proof.
  assert (@NewDeviceMonitor asciiLib ScriptedHost scriptedFs
            (dm_device monitorFile) None (Some hostFile)
            (Some SuppliedRunner) (Some (dm_logger monitorFile)) None
          = inr monitorFile) as Hnew by (vm_compute; reflexivity).
  split; [exact Hnew|].
  destruct (@fetchFromDevice_valid_JSON asciiLib fixtureJSON ScriptedHost
              scriptedFs scriptedExec idleRun _ _ _ _ _ _ monitorFile
              liveContext hostFile Hnew) as (res & h' & lines & Hfetch & _).
  exists res, h', lines. split; [exact Hfetch|].
  vm_compute in Hfetch. by injection Hfetch as <- _ _.
Defined.

Section NotifyFacts.
Context `{GoLib} `{GoJSON} {Hst : Type} `{AferoFs Hst} `{GoExec Hst}.
Variable supplied_Run :
  Context Hst -> RunCommandConfig -> Hst
  -> (string * string * option error) * Hst * list RunLine.

Lemma NewScriptNotifier_inr script cfg (fsys : option Hst) runner logger n :
  NewScriptNotifier script cfg fsys runner logger = inr n ->
  sn_script n = script /\
  (exists a, NotifyAttempts (sn_cfg n) = Some a /\ 0 < a) /\
  is_Some (NotifyAttemptTimeout (sn_cfg n)) /\
  is_Some (NotifyAttemptInterval (sn_cfg n)).
Proof.
  unfold NewScriptNotifier.
  destruct fsys as [f|], runner as [r|], logger as [l|]; try discriminate.
  destruct (String.eqb script ""); [discriminate|].
  destruct (fs_Stat f script) as [e|mode]; [discriminate|].
  destruct (Z.land mode executableModeMask =? 0); [discriminate|].
  unfold mergeScriptNotifierConfig.
  destruct cfg as [u|]; simpl.
  - destruct (NotifyAttempts u) as [a|] eqn:Ea.
    + destruct (Z.leb_spec a 0); [discriminate|]. intros [= <-]. simpl.
      split; [done|]. split; [by exists a|]. split; filled.
    + intros [= <-]. simpl.
      split; [done|]. split; [by exists 3|]. split; filled.
  - intros [= <-]. simpl.
    split; [done|]. split; [by exists 3|]. split; filled.
Qed.

(** X27. A notifier returned by [NewScriptNotifier] notifies without
    dereferencing nil. When the report cannot be marshalled, [Notify]
    returns an error and runs nothing. When it returns no error and the
    runner is the [RetryCommandRunner], the script was executed and ended
    without error, with the device path, the address, the description and
    the message as arguments, followed by the JSON of the report when
    there is one. *)
Theorem Notify_outcome script cfg (fsys : option Hst) runner logger
    (n : ScriptNotifier) (ctx : Context Hst) (device : Device)
    (message : string) (extra : option ChangeReport) (host : Hst) :
  NewScriptNotifier script cfg fsys runner logger = inr n ->
  let args := [dev_Path device; dev_Address device; dev_Description device;
               message] in
  exists res h' lines,
    Notify supplied_Run n ctx device message extra host
    = Some (res, h', lines) /\
    (forall report e,
       extra = Some report -> json_Marshal_report report = inl e ->
       is_Some res /\ h' = host /\ lines = []) /\
    (forall lg,
       res = None -> sn_runner n = RetryCommandRunner lg ->
       exists h timeout out serr given,
         NotifyAttemptTimeout (sn_cfg n) = Some timeout /\
         cmd_Run h script given timeout = ((out, serr, None), h') /\
         match extra with
         | Some report =>
             exists b, json_Marshal_report report = inr b /\
                       given = args ++ [b]
         | None => given = args
         end).
Proof.
  intros Hnew args.
  destruct (NewScriptNotifier_inr script cfg fsys runner logger n Hnew)
    as (Hscript & (a & Ha & Hpos) & [timeout Ht] & [interval Hi]).
  unfold Notify. fold args. rewrite Ha, Ht, Hi, Hscript.
  cbn [mbind option_bind].
  destruct extra as [report|].
  - destruct (json_Marshal_report report) as [e|b] eqn:Eb.
    + eexists _, _, _. split; [reflexivity|]. split; [|discriminate].
      intros ? ? _ _. by repeat split.
    + destruct (runner_Run supplied_Run (sn_runner n) ctx _ host)
        as [[[[out serr] err] h'] lines] eqn:Erun.
      destruct err as [err|].
      * eexists _, _, _. split; [reflexivity|].
        split; [intros ? ? [= <-]; congruence | discriminate].
      * eexists _, _, _. split; [reflexivity|].
        split; [intros ? ? [= <-]; congruence|]. intros lg _ Hlg.
        rewrite Hlg in Erun. simpl in Erun.
        apply Run_positive in Erun as [[h Hcmd] _]; [|done].
        simpl in Hcmd. exists h, timeout, out, serr, (args ++ [b]).
        split; [done|]. split; [done|]. by exists b.
  - destruct (runner_Run supplied_Run (sn_runner n) ctx _ host)
      as [[[[out serr] err] h'] lines] eqn:Erun.
    destruct err as [err|].
    + eexists _, _, _. split; [reflexivity|].
      split; [discriminate | discriminate].
    + eexists _, _, _. split; [reflexivity|]. split; [discriminate|].
      intros lg _ Hlg. rewrite Hlg in Erun. simpl in Erun.
      apply Run_positive in Erun as [[h Hcmd] _]; [|done].
      simpl in Hcmd. by exists h, timeout, out, serr, args.
Qed.
End NotifyFacts.

(** The notifier of the examples, told of a back-off. *)
Lemma Notify_outcome_witness :
  @NewScriptNotifier ScriptedHost scriptedFs "/usr/local/bin/notify" None
    (Some hostNotify) (Some (sn_runner notifierScript))
    (Some (sn_logger notifierScript)) = inr notifierScript /\
  exists res h' lines,
    @Notify asciiLib fixtureJSON ScriptedHost scriptedExec idleRun
      notifierScript liveContext (dm_device monitorSg0) "back-off" None
      hostNotify = Some (res, h', lines) /\
    res = None.
Proof.
  assert (@NewScriptNotifier ScriptedHost scriptedFs "/usr/local/bin/notify"
            None (Some hostNotify) (Some (sn_runner notifierScript))
            (Some (sn_logger notifierScript)) = inr notifierScript) as Hnew
    by (vm_compute; reflexivity).
  split; [exact Hnew|].
  destruct (@Notify_outcome asciiLib fixtureJSON ScriptedHost scriptedFs
              scriptedExec idleRun _ _ _ _ _ notifierScript liveContext
              (dm_device monitorSg0) "back-off" None hostNotify Hnew)
    as (res & h' & lines & Hrun & _).
  exists res, h', lines. split; [exact Hrun|].
  vm_compute in Hrun. by injection Hrun as <- _ _.
Defined.

(** ** Snapshot files *)

Section SnapshotFacts.
Context `{GoLib} `{GoCodec} `{GoTime} {F : Type} `{AferoFs F}.
Variable d : DeviceMonitor.

(** X28. [writeDeviceSnapshot] changes neither the state of the monitor
    nor its log. It returns an error exactly when [MkdirAll], the
    marshalling or [WriteFile] fails, in this order: the directory is
    made before the snapshot is marshalled, and nothing is written when
    one of the first two fails. When it succeeds and [afero.WriteFile]
    truncates, the file [<outputDir>/<filename>] holds the JSON of the
    snapshot. *)
Theorem writeDeviceSnapshot_outcome (snapshot : DeviceSnapshot)
    (filename dir : string) (w : World F) :
  OutputDir (dm_cfg d) = Some dir ->
  let made := fs_MkdirAll (w_fs w) dir baseFolderPerms in
  let path := filepath_Join dir filename in
  let after := snd (writeDeviceSnapshot d snapshot filename w) in
  w_state after = w_state w /\ w_events after = w_events w /\
  match fst made with
  | Some e =>
      fst (writeDeviceSnapshot d snapshot filename w) =
        Some (Some (errWrap "failure ensuring folder"
                      (errWrap "failure creating directory" e))) /\
      w_fs after = snd made
  | None =>
      match json_MarshalIndent_snapshot snapshot with
      | inl e =>
          fst (writeDeviceSnapshot d snapshot filename w) =
            Some (Some (errWrap "failure marshalling to JSON" e)) /\
          w_fs after = snd made
      | inr data =>
          let written := afero_WriteFile (snd made) path data baseFilePerms in
          w_fs after = snd written /\
          match fst written with
          | Some e =>
              fst (writeDeviceSnapshot d snapshot filename w) =
                Some (Some (errWrap "failure writing to file" e))
          | None =>
              fst (writeDeviceSnapshot d snapshot filename w) = Some None /\
              (writeTruncates F -> afero_ReadFile (w_fs after) path = inr data)
          end
      end
  end.
Proof.
  intros Hdir made path after. subst made path after.
  unfold writeDeviceSnapshot, ensureDeviceFolder, bindM, derefM, onFs, retM.
  rewrite Hdir. cbn [fst snd w_fs].
  destruct (fs_MkdirAll (w_fs w) dir baseFolderPerms) as [[e|] fs1];
    cbn [fst snd w_fs w_state w_events]; [done|].
  destruct (json_MarshalIndent_snapshot snapshot) as [e|data];
    cbn [fst snd w_fs w_state w_events]; [done|].
  destruct (afero_WriteFile fs1 (filepath_Join dir filename) data
              baseFilePerms) as [[e|] fs2] eqn:Ewrite;
    cbn [fst snd w_fs w_state w_events]; [done|].
  repeat split. intros Htrunc. by apply (Htrunc fs1 fs2 _ _ baseFilePerms).
Qed.
End SnapshotFacts.

(** The raw snapshot of scenario S1 in the output directory of the
    monitor of the examples. *)
Lemma writeDeviceSnapshot_outcome_witness :
  OutputDir (dm_cfg monitorSg0) = Some "/output" /\
  w_state (snd (@writeDeviceSnapshot asciiLib fixtureCodec MemFs memFs
                  monitorSg0
                  {| ds_Device := dm_device monitorSg0;
                     ds_CapturedAt := "2025-01-01T12:00:00Z";
                     ds_Raw := docOK |} "current.json" freshWorld))
  = w_state freshWorld.
Proof.
  split; [reflexivity|].
  exact (proj1 (@writeDeviceSnapshot_outcome asciiLib fixtureCodec MemFs memFs
                  monitorSg0
                  {| ds_Device := dm_device monitorSg0;
                     ds_CapturedAt := "2025-01-01T12:00:00Z";
                     ds_Raw := docOK |} "current.json" "/output" freshWorld
                  eq_refl)).
Defined.

(** ** Entries that collide *)

Section CollisionFacts.
Context `{GoLib} `{GoYAML} {F : Type} `{AferoFs F}.
Variable afero_NewOsFs : F.
Variables (cfg : ConfigYAML) (fsys : F) (finder : option DeviceLookuper)
          (r : option CommandRunner).

(** One round of the loop of [NewProgram]: it ends the loop with an
    error, or goes on with a state in which the output directory and the
    device of the entry, if it is enabled, are taken. *)
Lemma setupDevices_step i x rest s :
  (exists e s', setupDevices cfg fsys finder r i (x :: rest) s = (Some e, s'))
  \/
  (exists s1,
     setupDevices cfg fsys finder r i (x :: rest) s =
     setupDevices cfg fsys finder r (i + 1) rest s1 /\
     (forall dir, su_seenOutputDirs s !! dir = Some true ->
                  su_seenOutputDirs s1 !! dir = Some true) /\
     (forall k, is_Some (su_monitors s !! k) -> is_Some (su_monitors s1 !! k))
     /\
     (dy_Enabled x = true ->
      (forall mc dir,
         dy_MonitorConfig x = Some mc -> OutputDir mc = Some dir ->
         su_seenOutputDirs s1 !! dir = Some true) /\
      is_Some (su_monitors s1 !! dy_Device (snd (fst (lookupDevice x finder)))))).
Proof.
  simpl. destruct (dy_Enabled x) eqn:Een; simpl.
  2:{ right. exists s. by repeat split. }
  destruct (String.eqb (dy_Device x) "" && String.eqb (dy_Address x) "");
    [left; by eexists _, _|].
  match goal with
  | |- context [match ?c with inl _ => _ | inr _ => _ end] =>
      destruct c as [e|seen] eqn:Echeck
  end; [left; by eexists _, _|].
  assert ((forall dir, su_seenOutputDirs s !! dir = Some true ->
                       seen !! dir = Some true) /\
          (forall mc dir, dy_MonitorConfig x = Some mc ->
                          OutputDir mc = Some dir -> seen !! dir = Some true))
    as [Hmono Htaken].
  { destruct (dy_MonitorConfig x) as [mc|];
      [destruct (OutputDir mc) as [dir0|] eqn:Edir|].
    - destruct (default false (su_seenOutputDirs s !! dir0)); [discriminate|].
      injection Echeck as <-. split.
      + intros dir Hdir. destruct (decide (dir0 = dir)) as [->|Hne].
        * by rewrite lookup_insert_eq.
        * by rewrite lookup_insert_ne.
      + intros mc' dir [= <-] Hd. rewrite Edir in Hd. injection Hd as ->.
        by rewrite lookup_insert_eq.
    - injection Echeck as <-. split; [done|]. congruence.
    - injection Echeck as <-. split; [done | discriminate]. }
  destruct (lookupDevice x finder) as [[[e|] x'] lines];
    [left; by eexists _, _|].
  simpl.
  destruct (su_monitors s !! dy_Device x') as [m0|] eqn:Em0;
    [left; by eexists _, _|].
  destruct (setupDeviceMonitor cfg x' fsys r) as [e|m];
    [left; by eexists _, _|].
  right. eexists. split; [reflexivity|]. simpl.
  split; [done|]. split.
  - intros k Hk. destruct (decide (dy_Device x' = k)) as [->|Hne].
    + rewrite lookup_insert_eq. by eexists.
    + by rewrite lookup_insert_ne.
  - intros _. split; [done|]. rewrite lookup_insert_eq. by eexists.
Qed.

(** An entry that collides with what is taken ends the loop, wherever
    it comes in the rest of the list. *)
Lemma setupDevices_collides (taken : Setup -> Prop) (b : DeviceYAML) :
  (forall s s1,
     taken s ->
     (forall dir, su_seenOutputDirs s !! dir = Some true ->
                  su_seenOutputDirs s1 !! dir = Some true) ->
     (forall k, is_Some (su_monitors s !! k) -> is_Some (su_monitors s1 !! k))
     -> taken s1) ->
  (forall i rest s,
     taken s ->
     exists e s', setupDevices cfg fsys finder r i (b :: rest) s = (Some e, s'))
  ->
  forall devs i s,
    taken s -> b ∈ devs ->
    exists e s', setupDevices cfg fsys finder r i devs s = (Some e, s').
Proof.
  intros Hmono Hfails devs.
  induction devs as [|x devs IH]; intros i s Hs Hin.
  - by apply not_elem_of_nil in Hin.
  - apply elem_of_cons in Hin as [<-|Hin]; [by apply Hfails|].
    destruct (setupDevices_step i x devs s)
      as [Herr|(s1 & -> & Hseen & Hmons & _)]; [done|].
    apply IH; [|done]. by apply (Hmono s s1).
Qed.

Lemma setupDevices_second (taken : DeviceYAML -> Setup -> Prop)
    (a b : DeviceYAML) :
  (forall s s1,
     taken a s ->
     (forall dir, su_seenOutputDirs s !! dir = Some true ->
                  su_seenOutputDirs s1 !! dir = Some true) ->
     (forall k, is_Some (su_monitors s !! k) -> is_Some (su_monitors s1 !! k))
     -> taken a s1) ->
  (forall i rest s,
     taken a s ->
     exists e s', setupDevices cfg fsys finder r i (b :: rest) s = (Some e, s'))
  ->
  (forall i rest s,
     (exists e s',
        setupDevices cfg fsys finder r i (a :: rest) s = (Some e, s')) \/
     (exists s1,
        setupDevices cfg fsys finder r i (a :: rest) s =
        setupDevices cfg fsys finder r (i + 1) rest s1 /\ taken a s1)) ->
  forall pre mid post i s,
    exists e s',
      setupDevices cfg fsys finder r i (pre ++ a :: mid ++ b :: post) s
      = (Some e, s').
Proof.
  intros Hmono Hfails Htakes pre mid post.
  induction pre as [|x pre IH]; intros i s.
  - simpl app. destruct (Htakes i (mid ++ b :: post) s)
      as [Herr|(s1 & -> & Hs1)]; [done|].
    apply (setupDevices_collides (taken a) b); try done.
    apply elem_of_app. right. by left.
  - change ((x :: pre) ++ a :: mid ++ b :: post)
      with (x :: (pre ++ a :: mid ++ b :: post)).
    destruct (setupDevices_step i x (pre ++ a :: mid ++ b :: post) s)
      as [Herr|(s1 & -> & _)]; [done|]. apply IH.
Qed.

Lemma lookupDevice_no_address (x : DeviceYAML) :
  dy_Address x = "" ->
  exists c lines,
    lookupDevice x finder = (None, c, lines) /\ dy_Device c = dy_Device x.
Proof.
  intros Ha. unfold lookupDevice. rewrite Ha. simpl.
  destruct (negb (String.eqb (dy_Device x) "") && bool_decide (finder <> None));
    [|by eexists _, _].
  destruct finder as [fd|]; [|by eexists _, _].
  destruct (lk_FindAddress fd (dy_Device x)) as [addr [|]]; by eexists _, _.
Qed.

Lemma setupDevices_same_dir (b : DeviceYAML) mb dir i rest s :
  dy_Enabled b = true -> dy_MonitorConfig b = Some mb ->
  OutputDir mb = Some dir -> su_seenOutputDirs s !! dir = Some true ->
  exists e s', setupDevices cfg fsys finder r i (b :: rest) s = (Some e, s').
Proof.
  intros Eb Hmb Hdir Hseen. simpl. rewrite Eb, Hmb, Hdir, Hseen. simpl.
  destruct (String.eqb (dy_Device b) "" && String.eqb (dy_Address b) "");
    by eexists _, _.
Qed.

Lemma setupDevices_same_device (b : DeviceYAML) i rest s :
  dy_Enabled b = true -> dy_Device b <> "" -> dy_Address b = "" ->
  is_Some (su_monitors s !! dy_Device b) ->
  exists e s', setupDevices cfg fsys finder r i (b :: rest) s = (Some e, s').
Proof.
  intros Eb Hdev Haddr [m0 Hm0]. simpl. rewrite Eb. simpl.
  destruct (String.eqb (dy_Device b) "" && String.eqb (dy_Address b) "");
    [by eexists _, _|].
  match goal with
  | |- context [match ?c with inl _ => _ | inr _ => _ end] =>
      destruct c as [e|seen]
  end; [by eexists _, _|].
  destruct (lookupDevice_no_address b Haddr) as (c & lines & -> & Hc).
  simpl. rewrite Hc, Hm0. by eexists _, _.
Qed.
End CollisionFacts.

Section CollisionTheorems.
Context `{GoLib} `{GoYAML} {F : Type} `{AferoFs F}.
Variable afero_NewOsFs : F.

(** X29. [NewProgram] makes no program of a configuration in which two
    enabled entries give the same text as [output_dir], or give the same
    text as device path and no address: it returns an error. The texts
    are compared as they are written, before [filepath.Clean]: two
    spellings of one directory are not caught (see
    [NewProgram_accepts_two_spellings]). *)
Theorem NewProgram_rejects_collisions (yamlConfig : string) (f : option F)
    (d : option DeviceLookuper) (r : option CommandRunner)
    (config : ConfigYAML) (pre mid post : list DeviceYAML)
    (a b : DeviceYAML) :
  yaml_Decode yamlConfig = inr config ->
  Devices config = pre ++ a :: mid ++ b :: post ->
  dy_Enabled a = true -> dy_Enabled b = true ->
  (exists ma mb dir,
     dy_MonitorConfig a = Some ma /\ dy_MonitorConfig b = Some mb /\
     OutputDir ma = Some dir /\ OutputDir mb = Some dir) \/
  (dy_Device a = dy_Device b /\ dy_Device a <> "" /\
   dy_Address a = "" /\ dy_Address b = "") ->
  exists e, fst (NewProgram afero_NewOsFs yamlConfig f d r) = inl e.
Proof.
  intros Hyaml Hdevs Ea Eb Hcollide. unfold NewProgram. rewrite Hyaml, Hdevs.
  destruct (length _ =? 0)%nat; [by eexists|].
  set (fsys := match f with Some f0 => f0 | None => afero_NewOsFs end).
  destruct (match d with Some _ => _ | None => _ end) as [finder lines].
  match goal with
  | |- context [setupDevices ?c ?fs ?fd r 0 ?devs ?s] =>
      assert (exists e s', setupDevices c fs fd r 0 devs s = (Some e, s'))
        as (e & s' & ->); [|by eexists]
  end.
  destruct Hcollide as [(ma & mb & dir & Hma & Hmb & Hda & Hdb)|
                        (Hsame & Hne & Haa & Hab)].
  - apply (setupDevices_second config fsys finder r
             (fun _ s => su_seenOutputDirs s !! dir = Some true) a b).
    + intros s s1 Hs Hseen _. by apply Hseen.
    + intros i rest s Hs. by apply (setupDevices_same_dir config fsys finder r b mb dir).
    + intros i rest s.
      destruct (setupDevices_step config fsys finder r i a rest s)
        as [Herr|(s1 & Hrun & _ & _ & Htaken)]; [by left|].
      right. exists s1. split; [done|].
      by apply (proj1 (Htaken Ea) ma dir).
  - apply (setupDevices_second config fsys finder r
             (fun x s => is_Some (su_monitors s !! dy_Device x)) a b).
    + intros s s1 Hs _ Hmons. by apply Hmons.
    + intros i rest s Hs. apply setupDevices_same_device; try done.
      * by rewrite <- Hsame.
      * by rewrite <- Hsame.
    + intros i rest s.
      destruct (setupDevices_step config fsys finder r i a rest s)
        as [Herr|(s1 & Hrun & _ & _ & Htaken)]; [by left|].
      right. exists s1. split; [done|].
      destruct (Htaken Ea) as [_ Hkey].
      destruct (lookupDevice_no_address finder a Haa) as (c & ls & Hl & Hc).
      rewrite Hl in Hkey. simpl in Hkey. by rewrite Hc in Hkey.
Qed.
End CollisionTheorems.

(** A configuration with the same device in two entries, and one with
    the same output directory text for two devices. *)
Lemma NewProgram_rejects_collisions_witness :
  (@yaml_Decode yamlOfOutputDirs yamlTwice = inr configTwice /\
   Devices configTwice = [] ++ entrySg0 :: [] ++ entrySg0 :: [] /\
   dy_Enabled entrySg0 = true /\
   dy_Device entrySg0 <> "" /\ dy_Address entrySg0 = "") /\
  (exists e,
     fst (@NewProgram asciiLib yamlOfOutputDirs MemFs memFs emptyFs yamlTwice
            (Some devFsTwo) (Some noAddresses) (Some SuppliedRunner))
     = inl e) /\
  (@yaml_Decode yamlOfOutputDirs yamlSame = inr configSame /\
   Devices configSame =
     [] ++ entryOut "/dev/sg0" "/out" :: [] ++ entryOut "/dev/sg1" "/out"
        :: [] /\
   OutputDir (cfgOutputDir "/out") = Some "/out") /\
  (exists e,
     fst (@NewProgram cleaningLib yamlOfOutputDirs MemFs memFs emptyFs
            yamlSame (Some devFsTwo) (Some noAddresses)
            (Some SuppliedRunner)) = inl e).
Proof.
  assert (@yaml_Decode yamlOfOutputDirs yamlTwice = inr configTwice) as Hyaml
    by reflexivity.
  assert (Devices configTwice = [] ++ entrySg0 :: [] ++ entrySg0 :: [])
    as Hdevs by reflexivity.
  assert (dy_Device entrySg0 <> "") as Hne by discriminate.
  assert (@yaml_Decode yamlOfOutputDirs yamlSame = inr configSame) as Hyaml'
    by (vm_compute; reflexivity).
  assert (Devices configSame =
            [] ++ entryOut "/dev/sg0" "/out" :: []
               ++ entryOut "/dev/sg1" "/out" :: []) as Hdevs'
    by reflexivity.
  split; [by repeat split|]. split; [|split; [by repeat split|]].
  - apply (@NewProgram_rejects_collisions asciiLib yamlOfOutputDirs MemFs
             memFs emptyFs yamlTwice (Some devFsTwo) (Some noAddresses)
             (Some SuppliedRunner) configTwice [] [] [] entrySg0 entrySg0
             Hyaml Hdevs eq_refl eq_refl).
    right. by repeat split.
  - apply (@NewProgram_rejects_collisions cleaningLib yamlOfOutputDirs MemFs
             memFs emptyFs yamlSame (Some devFsTwo) (Some noAddresses)
             (Some SuppliedRunner) configSame [] [] []
             (entryOut "/dev/sg0" "/out") (entryOut "/dev/sg1" "/out")
             Hyaml' Hdevs' eq_refl eq_refl).
    left. exists (cfgOutputDir "/out"), (cfgOutputDir "/out"), "/out".
    by repeat split.
Defined.

(** The same two devices with the directory written [/out] and [/out/]:
    the program is made, and both monitors write to [/out]. *)
Example NewProgram_accepts_two_spellings :
  (fun m => OutputDir (dm_cfg m)) <$>
    match fst (@NewProgram cleaningLib yamlOfOutputDirs MemFs memFs emptyFs
                 yamlSpellings (Some devFsTwo) (Some noAddresses)
                 (Some SuppliedRunner)) with
    | inr p => monitors p
    | inl _ => ∅
    end
  = {[ "/dev/sg0" := Some "/out"; "/dev/sg1" := Some "/out" ]}.
Proof. vm_compute. reflexivity. Qed.
